(** * professor-aid: row-level security, cascades and triggers of the
    schema, and the two client-side computations that guard it.

    The database part embeds the DDL of the initial migration (tables
    [profiles], [turmas], [atividades], their policies, the two trigger
    functions) together with the statement semantics PostgreSQL gives to
    those declarations.  The client part embeds [handleSignUp] of the
    authentication page and [filteredAtividades] of the activity manager. *)

From Stdlib Require Import ZArith NArith List Bool Ascii String Lia.
From stdpp Require Import base option strings gmap.
Import ListNotations.

Open Scope string_scope.
Open Scope list_scope.

Module Sql.

(** ** SQL values and three-valued logic *)

(** A [UUID] is a 128-bit value; only equality on it is ever used. *)
Definition UUID : Type := N.
Definition text : Type := string.
(** [TIMESTAMP WITH TIME ZONE], as an offset from an arbitrary epoch. *)
Definition timestamptz : Type := Z.
Definition date : Type := Z.

(** A column value of a stored row: [notnull] for a [NOT NULL] column,
    [nullable] otherwise ([None] is SQL [NULL]). *)
Definition notnull (A : Type) : Type := A.
Definition nullable (A : Type) : Type := option A.

(** A column of an [INSERT]: left out of the column list (so that the
    column default applies) or given, possibly as [NULL]. *)
Inductive col (A : Type) : Type :=
| Omitted
| Given (v : option A).
Arguments Omitted {A}.
Arguments Given {A} v.

Definition with_default {A} (dflt : option A) (c : col A) : option A :=
  match c with
  | Omitted => dflt
  | Given v => v
  end.

(** SQL truth values: [None] is unknown. *)
Definition sql_eq_text (x y : option text) : option bool :=
  match x, y with
  | Some a, Some b => Some (String.eqb a b)
  | _, _ => None
  end.

Definition sql_eq (x y : option UUID) : option bool :=
  match x, y with
  | Some a, Some b => Some (N.eqb a b)
  | _, _ => None
  end.

Definition sql_or (x y : option bool) : option bool :=
  match x, y with
  | Some true, _ | _, Some true => Some true
  | Some false, Some false => Some false
  | _, _ => None
  end.

Definition sql_and (x y : option bool) : option bool :=
  match x, y with
  | Some false, _ | _, Some false => Some false
  | Some true, Some true => Some true
  | _, _ => None
  end.

(** [x IN (v1, ..., vn)] is [x = v1 OR ... OR x = vn]. *)
Definition sql_in (x : option UUID) (l : list (option UUID)) : option bool :=
  fold_right (fun v acc => sql_or (sql_eq x v) acc) (Some false) l.

Definition sql_in_text (x : option text) (l : list text) : option bool :=
  fold_right (fun v acc => sql_or (sql_eq_text x (Some v)) acc) (Some false) l.

(** A [WHERE], [USING] or [WITH CHECK] expression lets a row through only
    when it is true. *)
Definition holds (b : option bool) : bool :=
  match b with
  | Some true => true
  | _ => false
  end.

(** A [CHECK] constraint is violated only when its expression is false. *)
Definition check_passes (b : option bool) : bool :=
  match b with
  | Some false => false
  | _ => true
  end.

Definition COALESCE {A} (x : option A) (y : A) : A :=
  match x with
  | Some v => v
  | None => y
  end.

(** ** Tables *)

(** One record per table, over the shape of its columns: [R] wraps the
    [NOT NULL] columns and [O] the others.  A stored row is the record at
    [notnull]/[nullable]; the tuple a statement proposes, before the
    constraints are checked, is the record at [option]/[option]; the column
    list of an [INSERT] is the record at [col]/[col]. *)
Record profiles_row (R O : Type -> Type) : Type := {
  p_id : R UUID;
  p_user_id : R UUID;
  p_nome : R text;
  p_email : R text;
  p_escola : O text;
  p_created_at : R timestamptz;
  p_updated_at : R timestamptz
}.
Arguments p_id {R O} _.
Arguments p_user_id {R O} _.
Arguments p_nome {R O} _.
Arguments p_email {R O} _.
Arguments p_escola {R O} _.
Arguments p_created_at {R O} _.
Arguments p_updated_at {R O} _.

Record turmas_row (R O : Type -> Type) : Type := {
  t_id : R UUID;
  t_professor_id : R UUID;
  t_nome : R text;
  t_ano_letivo : R text;
  t_periodo : O text;
  t_descricao : O text;
  t_created_at : R timestamptz;
  t_updated_at : R timestamptz
}.
Arguments t_id {R O} _.
Arguments t_professor_id {R O} _.
Arguments t_nome {R O} _.
Arguments t_ano_letivo {R O} _.
Arguments t_periodo {R O} _.
Arguments t_descricao {R O} _.
Arguments t_created_at {R O} _.
Arguments t_updated_at {R O} _.

Record atividades_row (R O : Type -> Type) : Type := {
  a_id : R UUID;
  a_turma_id : R UUID;
  a_titulo : R text;
  a_descricao : O text;
  a_data_entrega : O date;
  a_tipo : O text;
  a_status : O text;
  a_created_at : R timestamptz;
  a_updated_at : R timestamptz
}.
Arguments a_id {R O} _.
Arguments a_turma_id {R O} _.
Arguments a_titulo {R O} _.
Arguments a_descricao {R O} _.
Arguments a_data_entrega {R O} _.
Arguments a_tipo {R O} _.
Arguments a_status {R O} _.
Arguments a_created_at {R O} _.
Arguments a_updated_at {R O} _.

Definition profile : Type := profiles_row notnull nullable.
Definition turma : Type := turmas_row notnull nullable.
Definition atividade : Type := atividades_row notnull nullable.

Definition profiles_tuple : Type := profiles_row option option.
Definition turmas_tuple : Type := turmas_row option option.
Definition atividades_tuple : Type := atividades_row option option.

Definition profiles_insert : Type := profiles_row col col.
Definition turmas_insert : Type := turmas_row col col.
Definition atividades_insert : Type := atividades_row col col.

(** A stored row seen as a tuple of SQL values. *)
Definition profile_tuple (p : profile) : profiles_tuple :=
  {| p_id := Some (p_id p); p_user_id := Some (p_user_id p);
     p_nome := Some (p_nome p); p_email := Some (p_email p);
     p_escola := p_escola p;
     p_created_at := Some (p_created_at p);
     p_updated_at := Some (p_updated_at p) |}.

Definition turma_tuple (t : turma) : turmas_tuple :=
  {| t_id := Some (t_id t); t_professor_id := Some (t_professor_id t);
     t_nome := Some (t_nome t); t_ano_letivo := Some (t_ano_letivo t);
     t_periodo := t_periodo t; t_descricao := t_descricao t;
     t_created_at := Some (t_created_at t);
     t_updated_at := Some (t_updated_at t) |}.

Definition atividade_tuple (a : atividade) : atividades_tuple :=
  {| a_id := Some (a_id a); a_turma_id := Some (a_turma_id a);
     a_titulo := Some (a_titulo a); a_descricao := a_descricao a;
     a_data_entrega := a_data_entrega a; a_tipo := a_tipo a;
     a_status := a_status a;
     a_created_at := Some (a_created_at a);
     a_updated_at := Some (a_updated_at a) |}.

(** A JSON value of the identity metadata: the client only ever sends
    strings; [JNull] is the JSON [null]. *)
Inductive jsonb_value : Type :=
| JNull
| JString (s : string).

(** Modelled from the spec: the identity record of the managed backend
    ([auth.users]), whose declaration is not part of the repository.  The
    triggers and foreign keys use its [id], [email] and
    [raw_user_meta_data] columns; [id] is its primary key. *)
Record auth_users_row : Type := {
  u_id : UUID;
  u_email : option text;
  u_raw_user_meta_data : option (gmap string jsonb_value)
}.

(** [j ->> k]: the field [k] of the object [j] as text; [NULL] when [j] is
    [NULL], when the field is missing and when it is the JSON [null]. *)
Definition json_get_text (j : option (gmap string jsonb_value)) (k : string)
  : option text :=
  match j with
  | None => None
  | Some o =>
      match o !! k with
      | Some (JString s) => Some s
      | Some JNull => None
      | None => None
      end
  end.

Record db : Type := {
  auth_users : list auth_users_row;
  profiles : list profile;
  turmas : list turma;
  atividades : list atividade
}.

Definition empty_db : db :=
  {| auth_users := []; profiles := []; turmas := []; atividades := [] |}.

Definition with_profiles (ps : list profile) (d : db) : db :=
  {| auth_users := auth_users d; profiles := ps;
     turmas := turmas d; atividades := atividades d |}.

Definition with_turmas (ts : list turma) (d : db) : db :=
  {| auth_users := auth_users d; profiles := profiles d;
     turmas := ts; atividades := atividades d |}.

Definition with_atividades (l : list atividade) (d : db) : db :=
  {| auth_users := auth_users d; profiles := profiles d;
     turmas := turmas d; atividades := l |}.

(** ** Row-level security *)

Inductive command : Type := SELECT | INSERT | UPDATE | DELETE.

Definition command_eqb (c1 c2 : command) : bool :=
  match c1, c2 with
  | SELECT, SELECT | INSERT, INSERT | UPDATE, UPDATE | DELETE, DELETE => true
  | _, _ => false
  end.

(** [CREATE POLICY pol_name ON t FOR pol_cmd USING (..) WITH CHECK (..)],
    the expressions over a tuple of table [t]. *)
Record policy (T : Type) : Type := {
  pol_name : string;
  pol_cmd : command;
  pol_using : option (T -> option bool);
  pol_with_check : option (T -> option bool)
}.
Arguments pol_name {T} _.
Arguments pol_cmd {T} _.
Arguments pol_using {T} _.
Arguments pol_with_check {T} _.

Definition policies_for {T} (cmd : command) (pols : list (policy T))
  : list (policy T) :=
  List.filter (fun p => command_eqb (pol_cmd p) cmd) pols.

Definition qual_holds {T} (q : option (T -> option bool)) (row : T) : bool :=
  match q with
  | Some e => holds (e row)
  | None => false
  end.

(** With row-level security enabled, an existing row is visible to a
    command when some policy for that command has a [USING] expression that
    is true of it; with no such policy no row is. *)
Definition rls_using {T} (pols : list (policy T)) (cmd : command) (row : T)
  : bool :=
  existsb (fun p => qual_holds (pol_using p) row) (policies_for cmd pols).

(** The expression a new row of an [INSERT] or [UPDATE] is checked
    against: the policy's [WITH CHECK], and its [USING] when it has none. *)
Definition qual_for_wco {T} (p : policy T) : option (T -> option bool) :=
  match pol_with_check p with
  | Some e => Some e
  | None => pol_using p
  end.

Definition rls_with_check {T} (pols : list (policy T)) (cmd : command)
  (row : T) : bool :=
  existsb (fun p => qual_holds (qual_for_wco p) row) (policies_for cmd pols).

(** Who runs a statement: a request of the API, with [auth.uid()] the
    identity of its token ([None] when there is none), or the owner of the
    tables, whom row-level security does not restrict and as whom the
    [SECURITY DEFINER] function of the migration runs. *)
Inductive role : Type :=
| table_owner
| api_caller (uid : option UUID).

Definition passes_using {T} (who : role)
  (pols : option UUID -> list (policy T)) (cmd : command) (row : T) : bool :=
  match who with
  | table_owner => true
  | api_caller uid => rls_using (pols uid) cmd row
  end.

Definition passes_with_check {T} (who : role)
  (pols : option UUID -> list (policy T)) (cmd : command) (row : T) : bool :=
  match who with
  | table_owner => true
  | api_caller uid => rls_with_check (pols uid) cmd row
  end.

(** *** Policies of [profiles] *)

Definition profiles_policies (uid : option UUID)
  : list (policy profiles_tuple) :=
  [ {| pol_name := "Usuários podem ver seu próprio perfil";
       pol_cmd := SELECT;
       pol_using := Some (fun r => sql_eq uid (p_user_id r));
       pol_with_check := None |};
    {| pol_name := "Usuários podem criar seu próprio perfil";
       pol_cmd := INSERT;
       pol_using := None;
       pol_with_check := Some (fun r => sql_eq uid (p_user_id r)) |};
    {| pol_name := "Usuários podem atualizar seu próprio perfil";
       pol_cmd := UPDATE;
       pol_using := Some (fun r => sql_eq uid (p_user_id r));
       pol_with_check := None |} ].

(** The rows of [profiles] a sub-query of the caller can read. *)
Definition visible_profiles (uid : option UUID) (d : db) : list profile :=
  List.filter
    (fun p => rls_using (profiles_policies uid) SELECT (profile_tuple p))
    (profiles d).

(** [SELECT id FROM public.profiles WHERE user_id = auth.uid()] *)
Definition own_profile_ids (d : db) (uid : option UUID) : list (option UUID) :=
  map (fun p => Some (p_id p))
    (List.filter (fun p => holds (sql_eq (Some (p_user_id p)) uid))
       (visible_profiles uid d)).

(** *** Policies of [turmas] *)

Definition turmas_policies (d : db) (uid : option UUID)
  : list (policy turmas_tuple) :=
  [ {| pol_name := "Professores podem ver suas próprias turmas";
       pol_cmd := SELECT;
       pol_using :=
         Some (fun r => sql_in (t_professor_id r) (own_profile_ids d uid));
       pol_with_check := None |};
    {| pol_name := "Professores podem criar turmas";
       pol_cmd := INSERT;
       pol_using := None;
       pol_with_check :=
         Some (fun r => sql_in (t_professor_id r) (own_profile_ids d uid)) |};
    {| pol_name := "Professores podem atualizar suas turmas";
       pol_cmd := UPDATE;
       pol_using :=
         Some (fun r => sql_in (t_professor_id r) (own_profile_ids d uid));
       pol_with_check := None |};
    {| pol_name := "Professores podem excluir suas turmas";
       pol_cmd := DELETE;
       pol_using :=
         Some (fun r => sql_in (t_professor_id r) (own_profile_ids d uid));
       pol_with_check := None |} ].

Definition visible_turmas (uid : option UUID) (d : db) : list turma :=
  List.filter
    (fun t => rls_using (turmas_policies d uid) SELECT (turma_tuple t))
    (turmas d).

(** [SELECT t.id FROM public.turmas t
     JOIN public.profiles p ON t.professor_id = p.id
     WHERE p.user_id = auth.uid()] *)
Definition own_turma_ids (d : db) (uid : option UUID) : list (option UUID) :=
  flat_map
    (fun t =>
       flat_map
         (fun p =>
            if holds (sql_and
                        (sql_eq (Some (t_professor_id t)) (Some (p_id p)))
                        (sql_eq (Some (p_user_id p)) uid))
            then [Some (t_id t)] else [])
         (visible_profiles uid d))
    (visible_turmas uid d).

(** *** Policies of [atividades] *)

Definition atividades_policies (d : db) (uid : option UUID)
  : list (policy atividades_tuple) :=
  [ {| pol_name := "Professores podem ver atividades de suas turmas";
       pol_cmd := SELECT;
       pol_using :=
         Some (fun r => sql_in (a_turma_id r) (own_turma_ids d uid));
       pol_with_check := None |};
    {| pol_name := "Professores podem criar atividades para suas turmas";
       pol_cmd := INSERT;
       pol_using := None;
       pol_with_check :=
         Some (fun r => sql_in (a_turma_id r) (own_turma_ids d uid)) |};
    {| pol_name := "Professores podem atualizar atividades de suas turmas";
       pol_cmd := UPDATE;
       pol_using :=
         Some (fun r => sql_in (a_turma_id r) (own_turma_ids d uid));
       pol_with_check := None |};
    {| pol_name := "Professores podem excluir atividades de suas turmas";
       pol_cmd := DELETE;
       pol_using :=
         Some (fun r => sql_in (a_turma_id r) (own_turma_ids d uid));
       pol_with_check := None |} ].

(** ** Errors and constraints *)

(** The constraints the tables declare, under the kind PostgreSQL files
    them; the strings are the table and the column. *)
Inductive constraint : Type :=
| NotNullC (table column : string)
| PrimaryKeyC (table : string)
| UniqueC (table column : string)
| ForeignKeyC (table column : string)
| CheckC (table column : string).

Inductive error : Type :=
| ConstraintViolation (c : constraint)
| RlsViolation (table : string).

Inductive result (A : Type) : Type :=
| Ok (a : A)
| Err (e : error).
Arguments Ok {A} a.
Arguments Err {A} e.

#[global] Instance result_ret : MRet result := fun A a => Ok a.
#[global] Instance result_bind : MBind result :=
  fun A B f m => match m with Ok a => f a | Err e => Err e end.

Definition require (b : bool) (e : error) : result unit :=
  if b then Ok tt else Err e.

Definition not_null {A} (table column : string) (v : option A) : result A :=
  match v with
  | Some a => Ok a
  | None => Err (ConstraintViolation (NotNullC table column))
  end.

Definition mem (x : UUID) (l : list UUID) : bool := existsb (N.eqb x) l.

Fixpoint distinct (l : list UUID) : bool :=
  match l with
  | [] => true
  | x :: l' => negb (mem x l') && distinct l'
  end.

(** The values of the two enumerated columns of [atividades]. *)
Definition tipos : list text :=
  ["tarefa"; "prova"; "projeto"; "exercicio"; "trabalho"].
Definition statuses : list text := ["ativa"; "finalizada"; "cancelada"].

(** [CHECK (periodo IN ('matutino', 'vespertino', 'noturno'))] *)
Definition turmas_periodo_check (periodo : option text) : bool :=
  check_passes (sql_in_text periodo ["matutino"; "vespertino"; "noturno"]).

(** [CHECK (tipo IN ('tarefa', 'prova', 'projeto', 'exercicio', 'trabalho'))] *)
Definition atividades_tipo_check (tipo : option text) : bool :=
  check_passes (sql_in_text tipo tipos).

(** [CHECK (status IN ('ativa', 'finalizada', 'cancelada'))] *)
Definition atividades_status_check (status : option text) : bool :=
  check_passes (sql_in_text status statuses).

(** The column defaults of each table: [gen_random_uuid()] for [id] (the
    value drawn is the argument [gen]), [now()] for the two timestamps,
    ['ativa'] for [status], and [NULL] where none is declared. *)
Definition profiles_defaults (now : timestamptz) (gen : UUID)
  (v : profiles_insert) : profiles_tuple :=
  {| p_id := with_default (Some gen) (p_id v);
     p_user_id := with_default None (p_user_id v);
     p_nome := with_default None (p_nome v);
     p_email := with_default None (p_email v);
     p_escola := with_default None (p_escola v);
     p_created_at := with_default (Some now) (p_created_at v);
     p_updated_at := with_default (Some now) (p_updated_at v) |}.

Definition turmas_defaults (now : timestamptz) (gen : UUID)
  (v : turmas_insert) : turmas_tuple :=
  {| t_id := with_default (Some gen) (t_id v);
     t_professor_id := with_default None (t_professor_id v);
     t_nome := with_default None (t_nome v);
     t_ano_letivo := with_default None (t_ano_letivo v);
     t_periodo := with_default None (t_periodo v);
     t_descricao := with_default None (t_descricao v);
     t_created_at := with_default (Some now) (t_created_at v);
     t_updated_at := with_default (Some now) (t_updated_at v) |}.

Definition atividades_defaults (now : timestamptz) (gen : UUID)
  (v : atividades_insert) : atividades_tuple :=
  {| a_id := with_default (Some gen) (a_id v);
     a_turma_id := with_default None (a_turma_id v);
     a_titulo := with_default None (a_titulo v);
     a_descricao := with_default None (a_descricao v);
     a_data_entrega := with_default None (a_data_entrega v);
     a_tipo := with_default None (a_tipo v);
     a_status := with_default (Some "ativa") (a_status v);
     a_created_at := with_default (Some now) (a_created_at v);
     a_updated_at := with_default (Some now) (a_updated_at v) |}.

(** The constraints of a single row ([NOT NULL] and [CHECK]), in column
    order; a tuple that satisfies them is a row of the table. *)
Definition profiles_constraints (r : profiles_tuple) : result profile :=
  id ← not_null "profiles" "id" (p_id r);
  user_id ← not_null "profiles" "user_id" (p_user_id r);
  nome ← not_null "profiles" "nome" (p_nome r);
  email ← not_null "profiles" "email" (p_email r);
  created_at ← not_null "profiles" "created_at" (p_created_at r);
  updated_at ← not_null "profiles" "updated_at" (p_updated_at r);
  Ok ({| p_id := id; p_user_id := user_id; p_nome := nome;
         p_email := email; p_escola := p_escola r;
         p_created_at := created_at; p_updated_at := updated_at |}
      : profile).

Definition turmas_constraints (r : turmas_tuple) : result turma :=
  id ← not_null "turmas" "id" (t_id r);
  professor_id ← not_null "turmas" "professor_id" (t_professor_id r);
  nome ← not_null "turmas" "nome" (t_nome r);
  ano_letivo ← not_null "turmas" "ano_letivo" (t_ano_letivo r);
  created_at ← not_null "turmas" "created_at" (t_created_at r);
  updated_at ← not_null "turmas" "updated_at" (t_updated_at r);
  _ ← require (turmas_periodo_check (t_periodo r))
        (ConstraintViolation (CheckC "turmas" "periodo"));
  Ok ({| t_id := id; t_professor_id := professor_id; t_nome := nome;
         t_ano_letivo := ano_letivo; t_periodo := t_periodo r;
         t_descricao := t_descricao r;
         t_created_at := created_at; t_updated_at := updated_at |}
      : turma).

Definition atividades_constraints (r : atividades_tuple) : result atividade :=
  id ← not_null "atividades" "id" (a_id r);
  turma_id ← not_null "atividades" "turma_id" (a_turma_id r);
  titulo ← not_null "atividades" "titulo" (a_titulo r);
  created_at ← not_null "atividades" "created_at" (a_created_at r);
  updated_at ← not_null "atividades" "updated_at" (a_updated_at r);
  _ ← require (atividades_tipo_check (a_tipo r))
        (ConstraintViolation (CheckC "atividades" "tipo"));
  _ ← require (atividades_status_check (a_status r))
        (ConstraintViolation (CheckC "atividades" "status"));
  Ok ({| a_id := id; a_turma_id := turma_id; a_titulo := titulo;
         a_descricao := a_descricao r; a_data_entrega := a_data_entrega r;
         a_tipo := a_tipo r; a_status := a_status r;
         a_created_at := created_at; a_updated_at := updated_at |}
      : atividade).

(** ** Trigger functions *)

(** The tables that have an [updated_at] column. *)
Class UpdatedAt (T : Type) : Type :=
  set_updated_at : option timestamptz -> T -> T.

#[global] Instance profiles_updated_at : UpdatedAt profiles_tuple :=
  fun v r =>
    {| p_id := p_id r; p_user_id := p_user_id r; p_nome := p_nome r;
       p_email := p_email r; p_escola := p_escola r;
       p_created_at := p_created_at r; p_updated_at := v |}.

#[global] Instance turmas_updated_at : UpdatedAt turmas_tuple :=
  fun v r =>
    {| t_id := t_id r; t_professor_id := t_professor_id r;
       t_nome := t_nome r; t_ano_letivo := t_ano_letivo r;
       t_periodo := t_periodo r; t_descricao := t_descricao r;
       t_created_at := t_created_at r; t_updated_at := v |}.

#[global] Instance atividades_updated_at : UpdatedAt atividades_tuple :=
  fun v r =>
    {| a_id := a_id r; a_turma_id := a_turma_id r; a_titulo := a_titulo r;
       a_descricao := a_descricao r; a_data_entrega := a_data_entrega r;
       a_tipo := a_tipo r; a_status := a_status r;
       a_created_at := a_created_at r; a_updated_at := v |}.

(** [public.update_updated_at_column()]: [NEW.updated_at = now(); RETURN NEW]. *)
Definition update_updated_at_column {T} `{UpdatedAt T} (now : timestamptz)
  (NEW : T) : T :=
  set_updated_at (Some now) NEW.

(** The [VALUES] of the [INSERT INTO public.profiles (user_id, nome, email)]
    of [public.handle_new_user()]. *)
Definition handle_new_user_values (NEW : auth_users_row) : profiles_insert :=
  {| p_id := Omitted;
     p_user_id := Given (Some (u_id NEW));
     p_nome :=
       Given (Some (COALESCE
                      (json_get_text (u_raw_user_meta_data NEW) "full_name")
                      "Professor"));
     p_email := Given (u_email NEW);
     p_escola := Omitted;
     p_created_at := Omitted;
     p_updated_at := Omitted |}.

(** ** Statements *)

Definition with_auth_users (us : list auth_users_row) (d : db) : db :=
  {| auth_users := us; profiles := profiles d;
     turmas := turmas d; atividades := atividades d |}.

(** *** [SELECT] *)

Definition select_profiles (who : role) (where_ : profile -> bool) (d : db)
  : list profile :=
  List.filter
    (fun p => passes_using who profiles_policies SELECT (profile_tuple p)
              && where_ p)
    (profiles d).

Definition select_turmas (who : role) (where_ : turma -> bool) (d : db)
  : list turma :=
  List.filter
    (fun t => passes_using who (turmas_policies d) SELECT (turma_tuple t)
              && where_ t)
    (turmas d).

Definition select_atividades (who : role) (where_ : atividade -> bool)
  (d : db) : list atividade :=
  List.filter
    (fun a => passes_using who (atividades_policies d) SELECT
                (atividade_tuple a)
              && where_ a)
    (atividades d).

(** *** [INSERT]

    The new tuple gets its defaults, is checked against the [INSERT]
    policies, then against the constraints of the row, the unique indexes
    and the foreign key.  An error leaves the table as it was. *)

Definition insert_profiles (who : role) (now : timestamptz) (gen : UUID)
  (v : profiles_insert) (d : db) : result db :=
  let NEW := profiles_defaults now gen v in
  _ ← require (passes_with_check who profiles_policies INSERT NEW)
        (RlsViolation "profiles");
  row ← profiles_constraints NEW;
  _ ← require (negb (mem (p_id row) (map p_id (profiles d))))
        (ConstraintViolation (PrimaryKeyC "profiles"));
  _ ← require (negb (mem (p_user_id row) (map p_user_id (profiles d))))
        (ConstraintViolation (UniqueC "profiles" "user_id"));
  _ ← require (mem (p_user_id row) (map u_id (auth_users d)))
        (ConstraintViolation (ForeignKeyC "profiles" "user_id"));
  Ok (with_profiles (profiles d ++ [row]) d).

Definition insert_turmas (who : role) (now : timestamptz) (gen : UUID)
  (v : turmas_insert) (d : db) : result db :=
  let NEW := turmas_defaults now gen v in
  _ ← require (passes_with_check who (turmas_policies d) INSERT NEW)
        (RlsViolation "turmas");
  row ← turmas_constraints NEW;
  _ ← require (negb (mem (t_id row) (map t_id (turmas d))))
        (ConstraintViolation (PrimaryKeyC "turmas"));
  _ ← require (mem (t_professor_id row) (map p_id (profiles d)))
        (ConstraintViolation (ForeignKeyC "turmas" "professor_id"));
  Ok (with_turmas (turmas d ++ [row]) d).

Definition insert_atividades (who : role) (now : timestamptz) (gen : UUID)
  (v : atividades_insert) (d : db) : result db :=
  let NEW := atividades_defaults now gen v in
  _ ← require (passes_with_check who (atividades_policies d) INSERT NEW)
        (RlsViolation "atividades");
  row ← atividades_constraints NEW;
  _ ← require (negb (mem (a_id row) (map a_id (atividades d))))
        (ConstraintViolation (PrimaryKeyC "atividades"));
  _ ← require (mem (a_turma_id row) (map t_id (turmas d)))
        (ConstraintViolation (ForeignKeyC "atividades" "turma_id"));
  Ok (with_atividades (atividades d ++ [row]) d).

(** [public.handle_new_user()], [SECURITY DEFINER]: the insert runs as the
    owner of the function. *)
Definition handle_new_user (now : timestamptz) (gen : UUID)
  (NEW : auth_users_row) (d : db) : result db :=
  insert_profiles table_owner now gen (handle_new_user_values NEW) d.

(** The creation of an identity: the row enters [auth.users] and the
    trigger [on_auth_user_created] ([AFTER INSERT ... FOR EACH ROW]) runs
    [handle_new_user] on it in the same transaction; an error of the
    trigger is an error of the whole. *)
Definition insert_auth_users (now : timestamptz) (gen : UUID)
  (NEW : auth_users_row) (d : db) : result db :=
  _ ← require (negb (mem (u_id NEW) (map u_id (auth_users d))))
        (ConstraintViolation (PrimaryKeyC "users"));
  handle_new_user now gen NEW (with_auth_users (auth_users d ++ [NEW]) d).

(** *** [UPDATE]

    Each row the [UPDATE] policies and the [WHERE] clause let through is
    replaced by what the [SET] clause makes of it; the [BEFORE UPDATE]
    trigger then runs on the new tuple, which is checked against the
    policies and the constraints of the row.  The first failing row fails
    the statement.  The unique indexes and the foreign keys (of the table,
    and those that reference it: [ON UPDATE] is [NO ACTION] everywhere) are
    checked on the table as the statement leaves it (PostgreSQL probes
    a unique index row by row, and so also refuses some statements that
    permute keys; the states reached here include those it reaches).
    An [UPDATE] or [DELETE] that reads the columns of its rows must pass
    the [SELECT] policies too; on each table they carry the expression of
    the [UPDATE] and [DELETE] ones ([select_policy_same] below). *)

Fixpoint for_each_row {T} (target : T -> bool) (f : T -> result T)
  (rows : list T) : result (list T) :=
  match rows with
  | [] => Ok []
  | r :: rest =>
      r' ← (if target r then f r else Ok r);
      rest' ← for_each_row target f rest;
      Ok (r' :: rest')
  end.

(** The rows an [UPDATE] works on, and what it makes of one of them. *)
Definition profiles_update_target (who : role) (where_ : profile -> bool)
  (p : profile) : bool :=
  passes_using who profiles_policies UPDATE (profile_tuple p) && where_ p.

Definition profiles_update_row (who : role) (now : timestamptz)
  (assign : profile -> profiles_tuple) (p : profile) : result profile :=
  let NEW := update_updated_at_column now (assign p) in
  _ ← require (passes_with_check who profiles_policies UPDATE NEW)
        (RlsViolation "profiles");
  profiles_constraints NEW.

Definition update_profiles (who : role) (now : timestamptz)
  (where_ : profile -> bool) (assign : profile -> profiles_tuple) (d : db)
  : result (db * nat) :=
  let target := profiles_update_target who where_ in
  ps ← for_each_row target (profiles_update_row who now assign) (profiles d);
  _ ← require (distinct (map p_id ps))
        (ConstraintViolation (PrimaryKeyC "profiles"));
  _ ← require (distinct (map p_user_id ps))
        (ConstraintViolation (UniqueC "profiles" "user_id"));
  _ ← require
        (forallb (fun p => mem (p_user_id p) (map u_id (auth_users d))) ps)
        (ConstraintViolation (ForeignKeyC "profiles" "user_id"));
  _ ← require
        (forallb (fun t => mem (t_professor_id t) (map p_id ps)) (turmas d))
        (ConstraintViolation (ForeignKeyC "turmas" "professor_id"));
  Ok (with_profiles ps d, length (List.filter target (profiles d))).

Definition turmas_update_target (who : role) (where_ : turma -> bool) (d : db)
  (t : turma) : bool :=
  passes_using who (turmas_policies d) UPDATE (turma_tuple t) && where_ t.

Definition turmas_update_row (who : role) (now : timestamptz)
  (assign : turma -> turmas_tuple) (d : db) (t : turma) : result turma :=
  let NEW := update_updated_at_column now (assign t) in
  _ ← require (passes_with_check who (turmas_policies d) UPDATE NEW)
        (RlsViolation "turmas");
  turmas_constraints NEW.

Definition update_turmas (who : role) (now : timestamptz)
  (where_ : turma -> bool) (assign : turma -> turmas_tuple) (d : db)
  : result (db * nat) :=
  let target := turmas_update_target who where_ d in
  ts ← for_each_row target (turmas_update_row who now assign d) (turmas d);
  _ ← require (distinct (map t_id ts))
        (ConstraintViolation (PrimaryKeyC "turmas"));
  _ ← require
        (forallb (fun t => mem (t_professor_id t) (map p_id (profiles d))) ts)
        (ConstraintViolation (ForeignKeyC "turmas" "professor_id"));
  _ ← require
        (forallb (fun a => mem (a_turma_id a) (map t_id ts)) (atividades d))
        (ConstraintViolation (ForeignKeyC "atividades" "turma_id"));
  Ok (with_turmas ts d, length (List.filter target (turmas d))).

Definition atividades_update_target (who : role)
  (where_ : atividade -> bool) (d : db) (a : atividade) : bool :=
  passes_using who (atividades_policies d) UPDATE (atividade_tuple a)
  && where_ a.

Definition atividades_update_row (who : role) (now : timestamptz)
  (assign : atividade -> atividades_tuple) (d : db) (a : atividade)
  : result atividade :=
  let NEW := update_updated_at_column now (assign a) in
  _ ← require (passes_with_check who (atividades_policies d) UPDATE NEW)
        (RlsViolation "atividades");
  atividades_constraints NEW.

Definition update_atividades (who : role) (now : timestamptz)
  (where_ : atividade -> bool) (assign : atividade -> atividades_tuple)
  (d : db) : result (db * nat) :=
  let target := atividades_update_target who where_ d in
  l ← for_each_row target (atividades_update_row who now assign d)
        (atividades d);
  _ ← require (distinct (map a_id l))
        (ConstraintViolation (PrimaryKeyC "atividades"));
  _ ← require
        (forallb (fun a => mem (a_turma_id a) (map t_id (turmas d))) l)
        (ConstraintViolation (ForeignKeyC "atividades" "turma_id"));
  Ok (with_atividades l d, length (List.filter target (atividades d))).

(** *** [DELETE]

    Removing rows of a table removes, [ON DELETE CASCADE], the rows whose
    foreign key holds the key of a removed row, and so on down the chain
    [auth.users] <- [profiles] <- [turmas] <- [atividades]. *)

Definition remove_atividades (victim : atividade -> bool) (d : db) : db :=
  with_atividades (List.filter (fun a => negb (victim a)) (atividades d)) d.

Definition remove_turmas (victim : turma -> bool) (d : db) : db :=
  let gone := List.filter victim (turmas d) in
  remove_atividades (fun a => mem (a_turma_id a) (map t_id gone))
    (with_turmas (List.filter (fun t => negb (victim t)) (turmas d)) d).

Definition remove_profiles (victim : profile -> bool) (d : db) : db :=
  let gone := List.filter victim (profiles d) in
  remove_turmas (fun t => mem (t_professor_id t) (map p_id gone))
    (with_profiles (List.filter (fun p => negb (victim p)) (profiles d)) d).

Definition remove_auth_users (victim : auth_users_row -> bool) (d : db) : db :=
  let gone := List.filter victim (auth_users d) in
  remove_profiles (fun p => mem (p_user_id p) (map u_id gone))
    (with_auth_users
       (List.filter (fun u => negb (victim u)) (auth_users d)) d).

(** The deletion of the identity [id] by the managed backend. *)
Definition delete_auth_users (id : UUID) (d : db) : db :=
  remove_auth_users (fun u => N.eqb (u_id u) id) d.

(** A [DELETE] of the API: the state it leaves and the number of rows of
    the table it deleted. *)
Definition profiles_delete_target (who : role) (where_ : profile -> bool)
  (p : profile) : bool :=
  passes_using who profiles_policies DELETE (profile_tuple p) && where_ p.

Definition delete_profiles (who : role) (where_ : profile -> bool) (d : db)
  : db * nat :=
  let victim := profiles_delete_target who where_ in
  (remove_profiles victim d, length (List.filter victim (profiles d))).

Definition turmas_delete_target (who : role) (where_ : turma -> bool) (d : db)
  (t : turma) : bool :=
  passes_using who (turmas_policies d) DELETE (turma_tuple t) && where_ t.

Definition delete_turmas (who : role) (where_ : turma -> bool) (d : db)
  : db * nat :=
  let victim := turmas_delete_target who where_ d in
  (remove_turmas victim d, length (List.filter victim (turmas d))).

Definition atividades_delete_target (who : role)
  (where_ : atividade -> bool) (d : db) (a : atividade) : bool :=
  passes_using who (atividades_policies d) DELETE (atividade_tuple a)
  && where_ a.

Definition delete_atividades (who : role) (where_ : atividade -> bool)
  (d : db) : db * nat :=
  let victim := atividades_delete_target who where_ d in
  (remove_atividades victim d, length (List.filter victim (atividades d))).

(** ** The system as a transition system

    What can change the database: the managed backend creating and
    deleting identities, and requests of the API, each under the identity
    [uid] of its token. *)
Inductive statement : Type :=
| CreateIdentity (NEW : auth_users_row)
| DeleteIdentity (id : UUID)
| InsertProfiles (uid : option UUID) (v : profiles_insert)
| UpdateProfiles (uid : option UUID) (where_ : profile -> bool)
    (assign : profile -> profiles_tuple)
| DeleteProfiles (uid : option UUID) (where_ : profile -> bool)
| InsertTurmas (uid : option UUID) (v : turmas_insert)
| UpdateTurmas (uid : option UUID) (where_ : turma -> bool)
    (assign : turma -> turmas_tuple)
| DeleteTurmas (uid : option UUID) (where_ : turma -> bool)
| InsertAtividades (uid : option UUID) (v : atividades_insert)
| UpdateAtividades (uid : option UUID) (where_ : atividade -> bool)
    (assign : atividade -> atividades_tuple)
| DeleteAtividades (uid : option UUID) (where_ : atividade -> bool).

(** A statement in its transaction: [now] is the value of [now()] and
    [gen] the one of [gen_random_uuid()] there. *)
Definition execute (now : timestamptz) (gen : UUID) (s : statement) (d : db)
  : result db :=
  match s with
  | CreateIdentity NEW => insert_auth_users now gen NEW d
  | DeleteIdentity id => Ok (delete_auth_users id d)
  | InsertProfiles uid v => insert_profiles (api_caller uid) now gen v d
  | UpdateProfiles uid w f =>
      r ← update_profiles (api_caller uid) now w f d; Ok (fst r)
  | DeleteProfiles uid w => Ok (fst (delete_profiles (api_caller uid) w d))
  | InsertTurmas uid v => insert_turmas (api_caller uid) now gen v d
  | UpdateTurmas uid w f =>
      r ← update_turmas (api_caller uid) now w f d; Ok (fst r)
  | DeleteTurmas uid w => Ok (fst (delete_turmas (api_caller uid) w d))
  | InsertAtividades uid v => insert_atividades (api_caller uid) now gen v d
  | UpdateAtividades uid w f =>
      r ← update_atividades (api_caller uid) now w f d; Ok (fst r)
  | DeleteAtividades uid w =>
      Ok (fst (delete_atividades (api_caller uid) w d))
  end.

Record transaction : Type := {
  tx_now : timestamptz;
  tx_gen : UUID;
  tx_statement : statement
}.

(** A transaction that fails is rolled back. *)
Definition commit (d : db) (tx : transaction) : db :=
  match execute (tx_now tx) (tx_gen tx) (tx_statement tx) d with
  | Ok d' => d'
  | Err _ => d
  end.

Definition run (txs : list transaction) (d : db) : db :=
  fold_left commit txs d.

Definition reachable (d : db) : Prop :=
  exists txs, d = run txs empty_db.

(** ** Integrity of a state

    The declared keys, foreign keys and checks. *)
Record constraints_hold (d : db) : Prop := {
  users_pkey : List.NoDup (map u_id (auth_users d));
  profiles_pkey : List.NoDup (map p_id (profiles d));
  profiles_user_id_key : List.NoDup (map p_user_id (profiles d));
  profiles_user_id_fkey :
    forall p, In p (profiles d) -> In (p_user_id p) (map u_id (auth_users d));
  turmas_pkey : List.NoDup (map t_id (turmas d));
  turmas_professor_id_fkey :
    forall t, In t (turmas d) -> In (t_professor_id t) (map p_id (profiles d));
  turmas_periodo_ok :
    forall t, In t (turmas d) -> turmas_periodo_check (t_periodo t) = true;
  atividades_pkey : List.NoDup (map a_id (atividades d));
  atividades_turma_id_fkey :
    forall a, In a (atividades d) -> In (a_turma_id a) (map t_id (turmas d));
  atividades_tipo_ok :
    forall a, In a (atividades d) -> atividades_tipo_check (a_tipo a) = true;
  atividades_status_ok :
    forall a, In a (atividades d) ->
      atividades_status_check (a_status a) = true
}.

(** Every identity has a profile. *)
Definition provisioned (d : db) : Prop :=
  forall u, In u (auth_users d) -> In (u_id u) (map p_user_id (profiles d)).

Definition consistent (d : db) : Prop :=
  constraints_hold d /\ provisioned d.

(** ** Ownership, as the specification words it *)

(** The identity [u] owns the profile of key [profile_id]. *)
Definition owns_profile (d : db) (u : UUID) (profile_id : UUID) : Prop :=
  exists p, In p (profiles d) /\ p_id p = profile_id /\ p_user_id p = u.

(** The identity [u] owns the class of key [turma_id], through the
    profile the class belongs to. *)
Definition owns_turma (d : db) (u : UUID) (turma_id : UUID) : Prop :=
  exists t, In t (turmas d) /\ t_id t = turma_id
            /\ owns_profile d u (t_professor_id t).

(** The ownership chain of an identity: its profile, the classes of that
    profile, the assignments of those classes. *)
Definition own_profiles (d : db) (uid : option UUID) : list profile :=
  List.filter (fun p => holds (sql_eq (Some (p_user_id p)) uid)) (profiles d).

Definition own_turmas (d : db) (uid : option UUID) : list turma :=
  List.filter
    (fun t => mem (t_professor_id t) (map p_id (own_profiles d uid)))
    (turmas d).

Definition own_atividades (d : db) (uid : option UUID) : list atividade :=
  List.filter
    (fun a => mem (a_turma_id a) (map t_id (own_turmas d uid)))
    (atividades d).

(** [WHERE id = k] *)
Definition turma_with_id (k : UUID) (t : turma) : bool := N.eqb (t_id t) k.
Definition atividade_with_id (k : UUID) (a : atividade) : bool :=
  N.eqb (a_id a) k.

(** The values of [periodo]. *)
Definition periodos : list text := ["matutino"; "vespertino"; "noturno"].

(** The identity a statement of the API runs under; [None] for what the
    managed backend does itself. *)
Definition api_uid (s : statement) : option (option UUID) :=
  match s with
  | CreateIdentity _ | DeleteIdentity _ => None
  | InsertProfiles uid _ | UpdateProfiles uid _ _ | DeleteProfiles uid _
  | InsertTurmas uid _ | UpdateTurmas uid _ _ | DeleteTurmas uid _
  | InsertAtividades uid _ | UpdateAtividades uid _ _
  | DeleteAtividades uid _ => Some uid
  end.

(** The filters of the three queries of [loadUserData]:
    [.eq('user_id', userId)], [.eq('professor_id', profileData.id)] and
    [.in('turma_id', turmasData.map(t => t.id))]. *)
Definition eq_user_id (userId : UUID) (p : profile) : bool :=
  N.eqb (p_user_id p) userId.

Definition eq_professor_id (professor_id : UUID) (t : turma) : bool :=
  N.eqb (t_professor_id t) professor_id.

Definition in_turma_id (ids : list UUID) (a : atividade) : bool :=
  mem (a_turma_id a) ids.

End Sql.

(** ** JavaScript strings, as the client code uses them *)
Module Js.

(** A string is its sequence of UTF-16 code units; [length] counts them. *)
Definition code_unit : Type := N.
Definition jsstring : Type := list code_unit.

(** A literal of the source written in ASCII. *)
Definition lit (s : string) : jsstring :=
  map Ascii.N_of_ascii (String.list_ascii_of_string s).

(** A string is falsy exactly when it is empty: [!s]. *)
Definition not (s : jsstring) : bool :=
  match s with
  | [] => true
  | _ :: _ => false
  end.

(** [a === b] *)
Fixpoint strict_eq (a b : jsstring) : bool :=
  match a, b with
  | [], [] => true
  | x :: a', y :: b' => N.eqb x y && strict_eq a' b'
  | _, _ => false
  end.

(** [s.startsWith(prefix)] *)
Fixpoint startsWith (s prefix : jsstring) : bool :=
  match prefix, s with
  | [], _ => true
  | p :: prefix', c :: s' => N.eqb p c && startsWith s' prefix'
  | _ :: _, [] => false
  end.

(** [s.includes(sub)] *)
Fixpoint includes (s sub : jsstring) : bool :=
  startsWith s sub
  || match s with
     | [] => false
     | _ :: s' => includes s' sub
     end.

(** [a || b] on a value that may be [undefined]. *)
Definition or_else (a : option jsstring) (b : jsstring) : jsstring :=
  match a with
  | Some (c :: s) => c :: s
  | _ => b
  end.

End Js.

(** ** The authentication page: [handleSignUp] *)
Module AuthPage.
Import Js.

(** The state of the component ([useState]). *)
Record state : Type := {
  isLoading : bool;
  email : jsstring;
  password : jsstring;
  fullName : jsstring
}.

(** The notices the handler shows; the texts are those of the source. *)
Inductive toast : Type :=
| CamposObrigatorios
    (* destructive: "Campos obrigatórios" / "Por favor, preencha todos os campos." *)
| SenhaMuitoCurta
    (* destructive: "Senha muito curta" / "A senha deve ter pelo menos 6 caracteres." *)
| EmailJaCadastrado
    (* destructive: "Email já cadastrado" / "Este email já possui uma conta. Tente fazer login." *)
| ErroNoCadastro (description : jsstring)
    (* destructive: "Erro no cadastro" / error.message *)
| CadastroRealizado
    (* "Cadastro realizado!" / "Sua conta foi criada com sucesso. Fazendo login..." *)
| ErroInesperado (description : jsstring).
    (* destructive: "Erro inesperado" / error.message || "Tente novamente em alguns minutos." *)

(** The calls to the backend SDK. *)
Inductive request : Type :=
| signOut_global
| signUp (email password emailRedirectTo full_name : jsstring).

(** What [supabase.auth.signUp] answers: [{ error }], [{ data }] with or
    without a user, or a rejected promise with its [message]. *)
Inductive signUp_response : Type :=
| SignUpError (message : jsstring)
| SignUpData (has_user : bool)
| SignUpThrows (message : option jsstring).

Record backend : Type := {
  signOut_throws : bool;
  signUp_answer : request -> signUp_response
}.

(** The component and what it can reach: its state, [localStorage],
    [window.location], the notices shown and the requests sent, in order. *)
Record world : Type := {
  component : state;
  localStorage : gmap jsstring jsstring;
  location_origin : jsstring;
  location_href : jsstring;
  toasts : list toast;
  requests : list request;
  defaultPrevented : bool
}.

Definition preventDefault (w : world) : world :=
  {| component := component w; localStorage := localStorage w;
     location_origin := location_origin w; location_href := location_href w;
     toasts := toasts w; requests := requests w; defaultPrevented := true |}.

Definition show (t : toast) (w : world) : world :=
  {| component := component w; localStorage := localStorage w;
     location_origin := location_origin w; location_href := location_href w;
     toasts := toasts w ++ [t]; requests := requests w;
     defaultPrevented := defaultPrevented w |}.

Definition send (r : request) (w : world) : world :=
  {| component := component w; localStorage := localStorage w;
     location_origin := location_origin w; location_href := location_href w;
     toasts := toasts w; requests := requests w ++ [r];
     defaultPrevented := defaultPrevented w |}.

Definition setIsLoading (b : bool) (w : world) : world :=
  {| component :=
       {| isLoading := b; email := email (component w);
          password := password (component w);
          fullName := fullName (component w) |};
     localStorage := localStorage w;
     location_origin := location_origin w; location_href := location_href w;
     toasts := toasts w; requests := requests w;
     defaultPrevented := defaultPrevented w |}.

Definition set_location_href (h : jsstring) (w : world) : world :=
  {| component := component w; localStorage := localStorage w;
     location_origin := location_origin w; location_href := h;
     toasts := toasts w; requests := requests w;
     defaultPrevented := defaultPrevented w |}.

(** [cleanupAuthState]: every key of [localStorage] that starts with
    ['supabase.auth.'] or contains ['sb-'] is removed. *)
Definition auth_key (key : jsstring) : bool :=
  startsWith key (lit "supabase.auth.") || includes key (lit "sb-").

Definition cleanupAuthState (w : world) : world :=
  {| component := component w;
     localStorage :=
       filter (fun kv => auth_key (fst kv) = false) (localStorage w);
     location_origin := location_origin w; location_href := location_href w;
     toasts := toasts w; requests := requests w;
     defaultPrevented := defaultPrevented w |}.

(** [handleSignUp], run to completion against the answers [b] of the
    backend.  The handler closes over the state of the render it belongs
    to, so [email], [password] and [fullName] are those of [w]. *)
Definition handleSignUp (b : backend) (w : world) : world :=
  let email := email (component w) in
  let password := password (component w) in
  let fullName := fullName (component w) in
  let w := preventDefault w in
  if not email || not password || not fullName then
    show CamposObrigatorios w
  else if (List.length password <? 6)%nat then
    show SenhaMuitoCurta w
  else
    let w := setIsLoading true w in
    let w := cleanupAuthState w in
    (* the inner try: a failure of signOut is ignored *)
    let w := send signOut_global w in
    let redirectUrl := (location_origin w ++ lit "/")%list in
    let req := signUp email password redirectUrl fullName in
    let w := send req w in
    let w :=
      match signUp_answer b req with
      | SignUpThrows message =>
          show (ErroInesperado
                  (or_else message (lit "Tente novamente em alguns minutos.")))
            w
      | SignUpError message =>
          if includes message (lit "already registered")
          then show EmailJaCadastrado w
          else show (ErroNoCadastro message) w
      | SignUpData has_user =>
          if has_user
          then set_location_href (lit "/") (show CadastroRealizado w)
          else w
      end in
    (* finally *)
    setIsLoading false w.

End AuthPage.

(** ** The activity manager: [filteredAtividades] *)
Module AtividadesManager.
Import Js.

Module Turma.
Record t : Type := {
  id : jsstring;
  nome : jsstring;
  ano_letivo : jsstring;
  periodo : jsstring;
  descricao : option jsstring;
  created_at : jsstring
}.
End Turma.

Module Atividade.
Record t : Type := {
  id : jsstring;
  titulo : jsstring;
  descricao : option jsstring;
  data_entrega : option jsstring;
  tipo : jsstring;
  status : jsstring;
  turma_id : jsstring;
  turma : Turma.t;
  created_at : option jsstring
}.
End Atividade.

(** The callback of the filter. *)
Definition matches (filterTurma filterStatus : jsstring)
  (atividade : Atividade.t) : bool :=
  let matchTurma :=
    strict_eq filterTurma (lit "all")
    || strict_eq (Atividade.turma_id atividade) filterTurma in
  let matchStatus :=
    strict_eq filterStatus (lit "all")
    || strict_eq (Atividade.status atividade) filterStatus in
  matchTurma && matchStatus.

(** [atividades.filter(...)] on the value of the array. *)
Definition filteredAtividades (atividades : list Atividade.t)
  (filterTurma filterStatus : jsstring) : list Atividade.t :=
  List.filter (matches filterTurma filterStatus) atividades.

(** Arrays are objects of the heap: the prop [atividades] is a reference,
    shared with the parent component.  [Array.prototype.filter] reads the
    array it is called on and returns a newly allocated one. *)
Definition ref : Type := positive.
Definition heap : Type := gmap ref (list Atividade.t).

Definition Array_filter (callback : Atividade.t -> bool) (this : ref)
  (h : heap) : option (ref * heap) :=
  match h !! this with
  | Some elems =>
      let r := fresh (dom h) in
      Some (r, <[r := List.filter callback elems]> h)
  | None => None
  end.

Definition filteredAtividades_ref (atividades : ref)
  (filterTurma filterStatus : jsstring) (h : heap) : option (ref * heap) :=
  Array_filter (matches filterTurma filterStatus) atividades h.

(** Two activities of two classes, as the dashboard would load them. *)
Definition turma_a : Turma.t :=
  {| Turma.id := lit "t1"; Turma.nome := lit "5º Ano A";
     Turma.ano_letivo := lit "2025"; Turma.periodo := lit "matutino";
     Turma.descricao := None; Turma.created_at := lit "2025-08-18" |}.

Definition turma_b : Turma.t :=
  {| Turma.id := lit "t2"; Turma.nome := lit "6o Ano B";
     Turma.ano_letivo := lit "2025"; Turma.periodo := lit "noturno";
     Turma.descricao := None; Turma.created_at := lit "2025-08-18" |}.

Definition prova_a : Atividade.t :=
  {| Atividade.id := lit "a1"; Atividade.titulo := lit "Prova";
     Atividade.descricao := None; Atividade.data_entrega := None;
     Atividade.tipo := lit "prova"; Atividade.status := lit "ativa";
     Atividade.turma_id := lit "t1"; Atividade.turma := turma_a;
     Atividade.created_at := None |}.

Definition tarefa_b : Atividade.t :=
  {| Atividade.id := lit "a2"; Atividade.titulo := lit "Tarefa";
     Atividade.descricao := None; Atividade.data_entrega := None;
     Atividade.tipo := lit "tarefa"; Atividade.status := lit "finalizada";
     Atividade.turma_id := lit "t2"; Atividade.turma := turma_b;
     Atividade.created_at := None |}.

(** The claim in the words of the specification: an activity is shown when
    its [turma_id] is the selected one or the turma filter is "all", and
    its [status] is the selected one or the status filter is "all". *)
Definition shown_spec (filterTurma filterStatus : jsstring)
  (a : Atividade.t) : Prop :=
  (Atividade.turma_id a = filterTurma \/ filterTurma = lit "all")
  /\ (Atividade.status a = filterStatus \/ filterStatus = lit "all").

End AtividadesManager.

(** ** A run of the system

    Two teachers sign up; the first creates a class and an assignment
    in it. *)
Module Scenario.
Import Sql.
Open Scope N_scope.

Definition ana : auth_users_row :=
  {| u_id := 1; u_email := Some "ana@escola.br";
     u_raw_user_meta_data := Some {[ "full_name" := JString "Ana" ]} |}.

Definition bia : auth_users_row :=
  {| u_id := 2; u_email := Some "bia@escola.br";
     u_raw_user_meta_data := None |}.

Definition at_ (now : Z) (gen : UUID) (s : statement) : transaction :=
  {| tx_now := now; tx_gen := gen; tx_statement := s |}.

Definition turma_5A (professor_id : UUID) : turmas_insert :=
  {| t_id := Omitted; t_professor_id := Given (Some professor_id);
     t_nome := Given (Some "5º Ano A"); t_ano_letivo := Given (Some "2025");
     t_periodo := Given (Some "matutino"); t_descricao := Omitted;
     t_created_at := Omitted; t_updated_at := Omitted |}.

Definition prova (turma_id : UUID) (tipo status : col text)
  : atividades_insert :=
  {| a_id := Omitted; a_turma_id := Given (Some turma_id);
     a_titulo := Given (Some "Prova de Matemática");
     a_descricao := Omitted; a_data_entrega := Omitted;
     a_tipo := tipo; a_status := status;
     a_created_at := Omitted; a_updated_at := Omitted |}.

Definition history : list transaction :=
  [ at_ 10 101 (CreateIdentity ana);
    at_ 11 102 (CreateIdentity bia);
    at_ 12 201 (InsertTurmas (Some 1) (turma_5A 101));
    at_ 13 301
      (InsertAtividades (Some 1) (prova 201 (Given (Some "prova")) Omitted)) ].

Definition school : db := run history empty_db.

Definition P_ana : profile :=
  {| p_id := 101; p_user_id := 1; p_nome := "Ana";
     p_email := "ana@escola.br"; p_escola := None;
     p_created_at := 10%Z; p_updated_at := 10%Z |}.

Definition P_bia : profile :=
  {| p_id := 102; p_user_id := 2; p_nome := "Professor";
     p_email := "bia@escola.br"; p_escola := None;
     p_created_at := 11%Z; p_updated_at := 11%Z |}.

Definition T_5A : turma :=
  {| t_id := 201; t_professor_id := 101; t_nome := "5º Ano A";
     t_ano_letivo := "2025"; t_periodo := Some "matutino";
     t_descricao := None; t_created_at := 12%Z; t_updated_at := 12%Z |}.

Definition A_prova : atividade :=
  {| a_id := 301; a_turma_id := 201; a_titulo := "Prova de Matemática";
     a_descricao := None; a_data_entrega := None; a_tipo := Some "prova";
     a_status := Some "ativa"; a_created_at := 13%Z; a_updated_at := 13%Z |}.

(** [SET nome = ...] *)
Definition rename (nome : text) (t : turma) : turmas_tuple :=
  {| t_id := Some (t_id t); t_professor_id := Some (t_professor_id t);
     t_nome := Some nome; t_ano_letivo := Some (t_ano_letivo t);
     t_periodo := t_periodo t; t_descricao := t_descricao t;
     t_created_at := Some (t_created_at t);
     t_updated_at := Some (t_updated_at t) |}.

(** The same class, inserted with an [updated_at] of the caller's. *)
Definition turma_5A_dated (professor_id : UUID) (updated_at : Z)
  : turmas_insert :=
  {| t_id := Omitted; t_professor_id := Given (Some professor_id);
     t_nome := Given (Some "5º Ano A"); t_ano_letivo := Given (Some "2025");
     t_periodo := Given (Some "matutino"); t_descricao := Omitted;
     t_created_at := Omitted; t_updated_at := Given (Some updated_at) |}.

Definition dated_history : list transaction :=
  [ at_ 10 101 (CreateIdentity ana);
    at_ 12 201 (InsertTurmas (Some 1) (turma_5A_dated 101 9999)) ].

Definition dated_school : db := run dated_history empty_db.

Definition T_5A_dated : turma :=
  {| t_id := 201; t_professor_id := 101; t_nome := "5º Ano A";
     t_ano_letivo := "2025"; t_periodo := Some "matutino";
     t_descricao := None; t_created_at := 12%Z; t_updated_at := 9999%Z |}.

Definition T_5B : turma :=
  {| t_id := 201; t_professor_id := 101; t_nome := "5º Ano B";
     t_ano_letivo := "2025"; t_periodo := Some "matutino";
     t_descricao := None; t_created_at := 12%Z; t_updated_at := 20%Z |}.

(** The row an insert with [tipo] omitted and [status] given as [NULL]
    leaves, at time 14 under the drawn key 302. *)
Definition A_sem_status : atividade :=
  {| a_id := 302; a_turma_id := 201; a_titulo := "Prova de Matemática";
     a_descricao := None; a_data_entrega := None; a_tipo := None;
     a_status := None; a_created_at := 14%Z; a_updated_at := 14%Z |}.

(** The row an insert with [tipo] and [status] omitted leaves there. *)
Definition A_sem_tipo : atividade :=
  {| a_id := 302; a_turma_id := 201; a_titulo := "Prova de Matemática";
     a_descricao := None; a_data_entrega := None; a_tipo := None;
     a_status := Some "ativa"; a_created_at := 14%Z; a_updated_at := 14%Z |}.

(** [SET status = ...], the update of [handleUpdateStatus]. *)
Definition set_status (status : text) (a : atividade) : atividades_tuple :=
  {| a_id := Some (a_id a); a_turma_id := Some (a_turma_id a);
     a_titulo := Some (a_titulo a); a_descricao := a_descricao a;
     a_data_entrega := a_data_entrega a; a_tipo := a_tipo a;
     a_status := Some status;
     a_created_at := Some (a_created_at a);
     a_updated_at := Some (a_updated_at a) |}.

End Scenario.

(** ** The other handlers of the client

    What a handler can reach besides the state of its component: the
    notices it shows, the requests it sends, the errors it logs,
    [localStorage] and the location. *)
Module Ui.
Import Js.

(** The description of a notice: a literal of the source, a string
    built at run time (an [error.message], a template), or [undefined]
    when what was thrown has no [message]. *)
Inductive content : Type :=
| Literal (s : string)
| Message (m : jsstring)
| Undefined.

(** [toast({ variant, title, description })]; [destructive] is
    [variant: 'destructive']. *)
Record toast : Type := {
  destructive : bool;
  title : string;
  description : content
}.

(** The calls to the backend SDK, with the values they carry. *)
Inductive request : Type :=
| auth_signOut_global
| auth_signInWithPassword (email password : jsstring)
| atividades_insert (titulo : jsstring) (descricao data_entrega : option jsstring)
    (tipo turma_id status : jsstring)
| atividades_delete_eq_id (id : jsstring)
| atividades_update_status_eq_id (status id : jsstring)
| atividades_select_in_turma_id (ids : list jsstring)
| turmas_insert (professor_id nome ano_letivo periodo : jsstring)
    (descricao : option jsstring)
| turmas_delete_eq_id (id : jsstring)
| turmas_select_eq_professor_id (professor_id : jsstring)
| profiles_select_eq_user_id (user_id : jsstring).

(** What a call answers: [{ data, error: null }], [{ data: null, error }]
    with the message of the error, or a promise that rejects with a value
    that may have a [message]. *)
Inductive answer (A : Type) : Type :=
| Data (data : A)
| Error (message : jsstring)
| Rejected (message : option jsstring).
Arguments Data {A} data.
Arguments Error {A} message.
Arguments Rejected {A} message.

Record world (S : Type) : Type := {
  component : S;
  localStorage : gmap jsstring jsstring;
  location_href : jsstring;
  toasts : list toast;
  requests : list request;
  console_error : list string;
  defaultPrevented : bool
}.
Arguments component {S} _.
Arguments localStorage {S} _.
Arguments location_href {S} _.
Arguments toasts {S} _.
Arguments requests {S} _.
Arguments console_error {S} _.
Arguments defaultPrevented {S} _.

Definition set_component {S} (f : S -> S) (w : world S) : world S :=
  {| component := f (component w); localStorage := localStorage w;
     location_href := location_href w; toasts := toasts w;
     requests := requests w; console_error := console_error w;
     defaultPrevented := defaultPrevented w |}.

Definition preventDefault {S} (w : world S) : world S :=
  {| component := component w; localStorage := localStorage w;
     location_href := location_href w; toasts := toasts w;
     requests := requests w; console_error := console_error w;
     defaultPrevented := true |}.

Definition show {S} (t : toast) (w : world S) : world S :=
  {| component := component w; localStorage := localStorage w;
     location_href := location_href w; toasts := toasts w ++ [t];
     requests := requests w; console_error := console_error w;
     defaultPrevented := defaultPrevented w |}.

Definition send {S} (r : request) (w : world S) : world S :=
  {| component := component w; localStorage := localStorage w;
     location_href := location_href w; toasts := toasts w;
     requests := requests w ++ [r]; console_error := console_error w;
     defaultPrevented := defaultPrevented w |}.

Definition log {S} (label : string) (w : world S) : world S :=
  {| component := component w; localStorage := localStorage w;
     location_href := location_href w; toasts := toasts w;
     requests := requests w; console_error := console_error w ++ [label];
     defaultPrevented := defaultPrevented w |}.

Definition set_location_href {S} (h : jsstring) (w : world S) : world S :=
  {| component := component w; localStorage := localStorage w;
     location_href := h; toasts := toasts w;
     requests := requests w; console_error := console_error w;
     defaultPrevented := defaultPrevented w |}.

(** [Object.keys(localStorage).forEach(key => { if (key.startsWith(
    'supabase.auth.') || key.includes('sb-')) localStorage.removeItem(key) })] *)
Definition remove_auth_keys {S} (w : world S) : world S :=
  {| component := component w;
     localStorage :=
       filter (fun kv => AuthPage.auth_key (fst kv) = false) (localStorage w);
     location_href := location_href w; toasts := toasts w;
     requests := requests w; console_error := console_error w;
     defaultPrevented := defaultPrevented w |}.

(** What the SDK itself does to [localStorage] during a call (it keeps
    the session there). *)
Definition sdk_storage {S : Type}
  (f : gmap jsstring jsstring -> gmap jsstring jsstring) (w : world S)
  : world S :=
  {| component := component w; localStorage := f (localStorage w);
     location_href := location_href w; toasts := toasts w;
     requests := requests w; console_error := console_error w;
     defaultPrevented := defaultPrevented w |}.

(** The [error.message] that a [catch] reads, from the error of an
    answer ([if (error) throw error]) or from a rejection. *)
Definition caught {A} (a : answer A) : content :=
  match a with
  | Error message | Rejected (Some message) => Message message
  | _ => Undefined
  end.

(** [s || null] *)
Definition or_null (s : jsstring) : option jsstring :=
  match s with
  | [] => None
  | _ :: _ => Some s
  end.

(** The double quote of a template. *)
Definition quote : jsstring := [34%N].

End Ui.

(** ** The authentication page: [handleSignIn] *)
Module SignIn.
Import Js Ui.

Definition setIsLoading (b : bool) (s : AuthPage.state) : AuthPage.state :=
  {| AuthPage.isLoading := b; AuthPage.email := AuthPage.email s;
     AuthPage.password := AuthPage.password s;
     AuthPage.fullName := AuthPage.fullName s |}.

(** [handleSignIn] against the answer of [signInWithPassword]; the data
    of the answer is whether [data.user] is there. *)
Definition handleSignIn (signIn_answer : request -> answer bool)
  (storage : request -> gmap jsstring jsstring -> gmap jsstring jsstring)
  (w : world AuthPage.state) : world AuthPage.state :=
  let email := AuthPage.email (component w) in
  let password := AuthPage.password (component w) in
  let w := preventDefault w in
  if Js.not email || Js.not password then
    show {| destructive := true; title := "Campos obrigatórios";
            description := Literal "Por favor, preencha email e senha." |} w
  else
    let w := set_component (setIsLoading true) w in
    let w := remove_auth_keys w in
    (* the inner try: a failure of signOut is ignored *)
    let w := sdk_storage (storage auth_signOut_global)
               (send auth_signOut_global w) in
    let req := auth_signInWithPassword email password in
    let w := sdk_storage (storage req) (send req w) in
    let w :=
      match signIn_answer req with
      | Rejected message =>
          show {| destructive := true; title := "Erro inesperado";
                  description :=
                    Message (or_else message
                               (lit "Tente novamente em alguns minutos.")) |}
            w
      | Error message =>
          show {| destructive := true; title := "Erro no login";
                  description :=
                    if strict_eq message (lit "Invalid login credentials")
                    then Message (lit "Email ou senha incorretos")
                    else Message message |} w
      | Data has_user =>
          if has_user
          then set_location_href (lit "/")
                 (show {| destructive := false;
                          title := "Login realizado com sucesso!";
                          description :=
                            Literal "Redirecionando para o dashboard..." |}
                    w)
          else w
      end in
    (* finally *)
    set_component (setIsLoading false) w.

End SignIn.

(** ** The activity manager: its handlers and badges *)
Module AtividadesManagerHandlers.
Import Js Ui AtividadesManager.

Record formData : Type := {
  titulo : jsstring;
  descricao : jsstring;
  data_entrega : jsstring;
  tipo : jsstring;
  turma_id : jsstring;
  status : jsstring
}.

(** The state of the component, and the two props it reads and writes
    ([turmas], and [atividades] with [setAtividades]). *)
Record state : Type := {
  isDialogOpen : bool;
  isLoading : bool;
  filterTurma : jsstring;
  filterStatus : jsstring;
  form : formData;
  turmas : list Turma.t;
  atividades : list Atividade.t
}.

Definition setIsLoading (b : bool) (s : state) : state :=
  {| isDialogOpen := isDialogOpen s; isLoading := b;
     filterTurma := filterTurma s; filterStatus := filterStatus s;
     form := form s; turmas := turmas s; atividades := atividades s |}.

Definition setIsDialogOpen (b : bool) (s : state) : state :=
  {| isDialogOpen := b; isLoading := isLoading s;
     filterTurma := filterTurma s; filterStatus := filterStatus s;
     form := form s; turmas := turmas s; atividades := atividades s |}.

Definition setFormData (f : formData) (s : state) : state :=
  {| isDialogOpen := isDialogOpen s; isLoading := isLoading s;
     filterTurma := filterTurma s; filterStatus := filterStatus s;
     form := f; turmas := turmas s; atividades := atividades s |}.

Definition setAtividades (l : list Atividade.t) (s : state) : state :=
  {| isDialogOpen := isDialogOpen s; isLoading := isLoading s;
     filterTurma := filterTurma s; filterStatus := filterStatus s;
     form := form s; turmas := turmas s; atividades := l |}.

Definition resetForm (s : state) : state :=
  setFormData
    {| titulo := []; descricao := []; data_entrega := []; tipo := [];
       turma_id := []; status := lit "ativa" |} s.

Definition handleCreateAtividade (answer_of : request -> answer Atividade.t)
  (w : world state) : world state :=
  let atividades := atividades (component w) in
  let formData := form (component w) in
  let w := preventDefault w in
  if Js.not (titulo formData) || Js.not (tipo formData)
     || Js.not (turma_id formData) then
    show {| destructive := true; title := "Campos obrigatórios";
            description :=
              Literal
                "Por favor, preencha título, tipo e selecione uma turma." |}
      w
  else
    let w := set_component (setIsLoading true) w in
    let req :=
      atividades_insert (titulo formData) (or_null (descricao formData))
        (or_null (data_entrega formData)) (tipo formData)
        (turma_id formData) (status formData) in
    let w := send req w in
    let w :=
      match answer_of req with
      | Data data =>
          let w := set_component (setAtividades (data :: atividades)) w in
          let w := set_component resetForm w in
          let w := set_component (setIsDialogOpen false) w in
          show {| destructive := false;
                  title := "Atividade criada com sucesso!";
                  description :=
                    Message (lit "A atividade " ++ quote
                             ++ Atividade.titulo data ++ quote
                             ++ lit " foi adicionada.") |} w
      | failure =>
          show {| destructive := true; title := "Erro ao criar atividade";
                  description := caught failure |} w
      end in
    set_component (setIsLoading false) w.

Definition handleDeleteAtividade (answer_of : request -> answer unit)
  (atividadeId atividadeTitulo : jsstring) (w : world state) : world state :=
  let atividades := atividades (component w) in
  let w := set_component (setIsLoading true) w in
  let req := atividades_delete_eq_id atividadeId in
  let w := send req w in
  let w :=
    match answer_of req with
    | Data _ =>
        let w :=
          set_component
            (setAtividades
               (List.filter
                  (fun a => negb (strict_eq (Atividade.id a) atividadeId))
                  atividades)) w in
        show {| destructive := false; title := "Atividade excluída";
                description :=
                  Message (lit "A atividade " ++ quote ++ atividadeTitulo
                           ++ quote ++ lit " foi removida com sucesso.") |} w
    | failure =>
        show {| destructive := true; title := "Erro ao excluir atividade";
                description := caught failure |} w
    end in
  set_component (setIsLoading false) w.

Definition handleUpdateStatus (answer_of : request -> answer Atividade.t)
  (atividadeId novoStatus : jsstring) (w : world state) : world state :=
  let atividades := atividades (component w) in
  let w := set_component (setIsLoading true) w in
  let req := atividades_update_status_eq_id novoStatus atividadeId in
  let w := send req w in
  let w :=
    match answer_of req with
    | Data data =>
        let w :=
          set_component
            (setAtividades
               (map (fun a => if strict_eq (Atividade.id a) atividadeId
                              then data else a)
                  atividades)) w in
        show {| destructive := false; title := "Status atualizado";
                description :=
                  Message (lit "Atividade marcada como " ++ novoStatus
                           ++ lit ".") |} w
    | failure =>
        show {| destructive := true; title := "Erro ao atualizar status";
                description := caught failure |} w
    end in
  set_component (setIsLoading false) w.

(** The classes of the badges. *)
Definition getTipoColor (tipo : jsstring) : string :=
  if strict_eq tipo (lit "tarefa") then "bg-blue-500 text-white"
  else if strict_eq tipo (lit "prova") then "bg-red-500 text-white"
  else if strict_eq tipo (lit "projeto") then "bg-purple-500 text-white"
  else if strict_eq tipo (lit "exercicio") then "bg-green-500 text-white"
  else if strict_eq tipo (lit "trabalho") then "bg-orange-500 text-white"
  else "bg-gray-500 text-white".

Definition getStatusColor (status : jsstring) : string :=
  if strict_eq status (lit "ativa")
  then "bg-gradient-primary text-primary-foreground"
  else if strict_eq status (lit "finalizada")
  then "bg-gradient-secondary text-secondary-foreground"
  else if strict_eq status (lit "cancelada") then "bg-gray-500 text-white"
  else "bg-muted".

End AtividadesManagerHandlers.

(** ** The class manager *)
Module TurmasManager.
Import Js Ui AtividadesManager.

Module Profile.
Record t : Type := {
  id : jsstring;
  nome : jsstring;
  email : jsstring;
  escola : option jsstring
}.
End Profile.

Record formData : Type := {
  nome : jsstring;
  ano_letivo : jsstring;
  periodo : jsstring;
  descricao : jsstring
}.

(** The state of the component and its props: [profile], [turmas] with
    [setTurmas], and the [atividades] that [setAtividades] writes. *)
Record state : Type := {
  isDialogOpen : bool;
  isLoading : bool;
  form : formData;
  profile : Profile.t;
  turmas : list Turma.t;
  atividades : list Atividade.t
}.

Definition setIsLoading (b : bool) (s : state) : state :=
  {| isDialogOpen := isDialogOpen s; isLoading := b; form := form s;
     profile := profile s; turmas := turmas s; atividades := atividades s |}.

Definition setIsDialogOpen (b : bool) (s : state) : state :=
  {| isDialogOpen := b; isLoading := isLoading s; form := form s;
     profile := profile s; turmas := turmas s; atividades := atividades s |}.

Definition setFormData (f : formData) (s : state) : state :=
  {| isDialogOpen := isDialogOpen s; isLoading := isLoading s; form := f;
     profile := profile s; turmas := turmas s; atividades := atividades s |}.

Definition setTurmas (l : list Turma.t) (s : state) : state :=
  {| isDialogOpen := isDialogOpen s; isLoading := isLoading s;
     form := form s; profile := profile s; turmas := l;
     atividades := atividades s |}.

Definition setAtividades (l : list Atividade.t) (s : state) : state :=
  {| isDialogOpen := isDialogOpen s; isLoading := isLoading s;
     form := form s; profile := profile s; turmas := turmas s;
     atividades := l |}.

(** [year] is [new Date().getFullYear().toString()]. *)
Definition resetForm (year : jsstring) (s : state) : state :=
  setFormData
    {| nome := []; ano_letivo := year; periodo := []; descricao := [] |} s.

Definition handleCreateTurma (answer_of : request -> answer Turma.t)
  (year : jsstring) (w : world state) : world state :=
  let turmas := turmas (component w) in
  let profile := profile (component w) in
  let formData := form (component w) in
  let w := preventDefault w in
  if Js.not (nome formData) || Js.not (periodo formData) then
    show {| destructive := true; title := "Campos obrigatórios";
            description :=
              Literal "Por favor, preencha nome da turma e período." |} w
  else
    let w := set_component (setIsLoading true) w in
    let req :=
      turmas_insert (Profile.id profile) (nome formData)
        (ano_letivo formData) (periodo formData)
        (or_null (descricao formData)) in
    let w := send req w in
    let w :=
      match answer_of req with
      | Data data =>
          let w := set_component (setTurmas (data :: turmas)) w in
          let w := set_component (resetForm year) w in
          let w := set_component (setIsDialogOpen false) w in
          show {| destructive := false; title := "Turma criada com sucesso!";
                  description :=
                    Message (lit "A turma " ++ quote ++ Turma.nome data
                             ++ quote ++ lit " foi adicionada.") |} w
      | failure =>
          show {| destructive := true; title := "Erro ao criar turma";
                  description := caught failure |} w
      end in
    set_component (setIsLoading false) w.



Definition getPeriodoColor (periodo : jsstring) : string :=
  if strict_eq periodo (lit "matutino")
  then "bg-gradient-primary text-primary-foreground"
  else if strict_eq periodo (lit "vespertino")
  then "bg-gradient-secondary text-secondary-foreground"
  else if strict_eq periodo (lit "noturno") then "bg-gray-600 text-white"
  else "bg-muted".

End TurmasManager.

(** ** The dashboard *)
Module Dashboard.
Import Js Ui AtividadesManager.

(** The state of the component that the two handlers touch ([user] and
    [session] are written by the listener only). *)
Record state : Type := {
  profile : option TurmasManager.Profile.t;
  turmas : list Turma.t;
  atividades : list Atividade.t;
  isLoading : bool
}.

Definition setProfile (p : option TurmasManager.Profile.t) (s : state)
  : state :=
  {| profile := p; turmas := turmas s; atividades := atividades s;
     isLoading := isLoading s |}.

Definition setTurmas (l : list Turma.t) (s : state) : state :=
  {| profile := profile s; turmas := l; atividades := atividades s;
     isLoading := isLoading s |}.

Definition setAtividades (l : list Atividade.t) (s : state) : state :=
  {| profile := profile s; turmas := turmas s; atividades := l;
     isLoading := isLoading s |}.

Definition setIsLoading (b : bool) (s : state) : state :=
  {| profile := profile s; turmas := turmas s; atividades := atividades s;
     isLoading := b |}.

Record backend : Type := {
  profile_answer : request -> answer TurmasManager.Profile.t;
  turmas_answer : request -> answer (option (list Turma.t));
  atividades_answer : request -> answer (option (list Atividade.t))
}.

(** [data || []] *)
Definition or_empty {A} (data : option (list A)) : list A :=
  match data with
  | Some l => l
  | None => []
  end.

(** The [catch] of [loadUserData]. *)
Definition erro_geral (w : world state) : world state :=
  show {| destructive := true; title := "Erro";
          description := Literal "Erro ao carregar dados do usuário" |}
    (log "Erro geral:" w).

Definition loadUserData (b : backend) (userId : jsstring) (w : world state)
  : world state :=
  let req_profile := profiles_select_eq_user_id userId in
  let w := send req_profile w in
  let w :=
    match profile_answer b req_profile with
    | Rejected _ => erro_geral w
    | Error _ =>
        (* the early return *)
        set_component (setIsLoading false) (log "Erro ao carregar perfil:" w)
    | Data profileData =>
        let w := set_component (setProfile (Some profileData)) w in
        let req_turmas :=
          turmas_select_eq_professor_id
            (TurmasManager.Profile.id profileData) in
        let w := send req_turmas w in
        match turmas_answer b req_turmas with
        | Rejected _ => erro_geral w
        | answer_turmas =>
            let turmasData :=
              match answer_turmas with
              | Data data => data
              | _ => None
              end in
            let w :=
              match answer_turmas with
              | Error _ => log "Erro ao carregar turmas:" w
              | _ => set_component (setTurmas (or_empty turmasData)) w
              end in
            let req_atividades :=
              atividades_select_in_turma_id
                (map Turma.id (or_empty turmasData)) in
            let w := send req_atividades w in
            match atividades_answer b req_atividades with
            | Rejected _ => erro_geral w
            | Error _ => log "Erro ao carregar atividades:" w
            | Data atividadesData =>
                set_component (setAtividades (or_empty atividadesData)) w
            end
        end
    end in
  (* finally *)
  set_component (setIsLoading false) w.


(** [atividades.filter(a => a.status === 'ativa').length] *)
Definition atividadesPendentes (atividades : list Atividade.t) : nat :=
  List.length
    (List.filter (fun a => strict_eq (Atividade.status a) (lit "ativa"))
       atividades).

End Dashboard.

(** * Properties *)

(** ** Three-valued logic, keys and lists *)
Module SqlFacts.
Import Sql.

Lemma mem_In (x : UUID) (l : list UUID) : mem x l = true <-> In x l.
Proof.
  unfold mem. rewrite existsb_exists. split.
  - intros (y & Hy & Heq). apply N.eqb_eq in Heq. now subst.
  - intros Hx. exists x. split; [assumption | apply N.eqb_refl].
Qed.

Lemma mem_false (x : UUID) (l : list UUID) : mem x l = false <-> ~ In x l.
Proof.
  rewrite <- mem_In. destruct (mem x l); split; congruence.
Qed.

Lemma distinct_NoDup (l : list UUID) : distinct l = true <-> List.NoDup l.
Proof.
  induction l as [|x l IH]; simpl.
  - split; [constructor | reflexivity].
  - rewrite andb_true_iff, negb_true_iff, mem_false, IH. split.
    + intros [Hx Hl]. now constructor.
    + intros H. inversion H; subst. now split.
Qed.

Lemma holds_sql_or (x y : option bool) :
  holds (sql_or x y) = holds x || holds y.
Proof. destruct x as [[]|], y as [[]|]; reflexivity. Qed.

Lemma holds_sql_and (x y : option bool) :
  holds (sql_and x y) = holds x && holds y.
Proof. destruct x as [[]|], y as [[]|]; reflexivity. Qed.

Lemma holds_sql_eq (x y : option UUID) :
  holds (sql_eq x y) = true <-> exists a, x = Some a /\ y = Some a.
Proof.
  destruct x as [a|], y as [b|]; simpl; split;
    try discriminate; try (intros (c & H1 & H2); discriminate).
  - destruct (N.eqb a b) eqn:E; [|discriminate].
    apply N.eqb_eq in E. subst. intros _. now exists b.
  - intros (c & H1 & H2). inversion H1; inversion H2; subst.
    now rewrite N.eqb_refl.
Qed.

Lemma holds_sql_in (x : option UUID) (l : list (option UUID)) :
  holds (sql_in x l) = true <-> exists a, x = Some a /\ In (Some a) l.
Proof.
  induction l as [|v l IH]; simpl.
  - split; [discriminate | intros (a & _ & [])].
  - rewrite holds_sql_or, orb_true_iff, holds_sql_eq, IH. split.
    + intros [(a & -> & ->) | (a & -> & Hin)]; exists a; auto.
    + intros (a & -> & [-> | Hin]); [left | right]; exists a; auto.
Qed.

Lemma NoDup_map_filter {A B} (f : A -> B) (g : A -> bool) (l : list A) :
  List.NoDup (map f l) -> List.NoDup (map f (List.filter g l)).
Proof.
  induction l as [|x l IH]; simpl; intros H; [constructor|].
  inversion H as [|? ? Hx Hl]; subst.
  destruct (g x); simpl; auto.
  constructor; auto.
  intros Hin. apply Hx. apply in_map_iff in Hin as (y & Hy & Hin).
  apply filter_In in Hin as [Hin _]. apply in_map_iff. eauto.
Qed.

Lemma NoDup_map_In_inj {A B} (f : A -> B) (l : list A) (x y : A) :
  List.NoDup (map f l) -> In x l -> In y l -> f x = f y -> x = y.
Proof.
  induction l as [|z l IH]; simpl; intros H Hx Hy Hf; [contradiction|].
  inversion H as [|? ? Hz Hl]; subst.
  destruct Hx as [-> | Hx], Hy as [-> | Hy]; auto.
  - exfalso. apply Hz. rewrite Hf. now apply in_map.
  - exfalso. apply Hz. rewrite <- Hf. now apply in_map.
Qed.

Lemma NoDup_map_snoc {A B} (f : A -> B) (l : list A) (x : A) :
  List.NoDup (map f l) -> ~ In (f x) (map f l) -> List.NoDup (map f (l ++ [x])).
Proof.
  intros Hl Hx. rewrite map_app. simpl.
  apply List.NoDup_app; repeat split; auto.
  - constructor; [intros [] | constructor].
  - intros y Hy [<- | []]. contradiction.
Qed.

Lemma filter_all {A} (g : A -> bool) (l : list A) :
  (forall x, In x l -> g x = true) -> List.filter g l = l.
Proof.
  induction l as [|x l IH]; simpl; intros H; [reflexivity|].
  rewrite (H x) by now left. f_equal. apply IH. intros y Hy. apply H. now right.
Qed.

Lemma filter_none {A} (g : A -> bool) (l : list A) :
  (forall x, In x l -> g x = false) -> List.filter g l = [].
Proof.
  induction l as [|x l IH]; simpl; intros H; [reflexivity|].
  rewrite (H x) by now left. apply IH. intros y Hy. apply H. now right.
Qed.

(** The foreign key of the children that survive a cascade points into
    the parents that survive. *)
Lemma cascade_fkey {P C} (kp : P -> UUID) (fk : C -> UUID)
  (victim : P -> bool) (parents : list P) (children : list C) :
  (forall c, In c children -> In (fk c) (map kp parents)) ->
  forall c,
    In c (List.filter
            (fun c => negb (mem (fk c) (map kp (List.filter victim parents))))
            children) ->
    In (fk c) (map kp (List.filter (fun p => negb (victim p)) parents)).
Proof.
  intros Hfk c Hc. apply filter_In in Hc as [Hc Hkeep].
  apply negb_true_iff, mem_false in Hkeep.
  specialize (Hfk c Hc). apply in_map_iff in Hfk as (p & Hp & Hin).
  apply in_map_iff. exists p. split; [assumption|].
  apply filter_In. split; [assumption|].
  destruct (victim p) eqn:Hv; [|reflexivity].
  exfalso. apply Hkeep. rewrite <- Hp. apply in_map.
  apply filter_In. now split.
Qed.

(** *** The result monad *)

Lemma bind_Ok {A B} (m : result A) (f : A -> result B) (b : B) :
  m ≫= f = Ok b <-> exists a, m = Ok a /\ f a = Ok b.
Proof.
  destruct m as [a|e]; simpl; split.
  - intros H. now exists a.
  - intros (a' & Ha & H). now inversion Ha; subst.
  - discriminate.
  - intros (a' & Ha & _). discriminate.
Qed.

Lemma require_Ok (b : bool) (e : error) (u : unit) :
  require b e = Ok u <-> b = true.
Proof. destruct b, u; simpl; split; congruence. Qed.

Lemma not_null_Ok {A} (table column : string) (v : option A) (a : A) :
  not_null table column v = Ok a <-> v = Some a.
Proof. destruct v; simpl; split; congruence. Qed.

End SqlFacts.

(** ** What the policies say *)
Module PolicyFacts.
Import Sql SqlFacts.

Lemma profiles_using (uid : option UUID) (cmd : command) (r : profiles_tuple) :
  rls_using (profiles_policies uid) cmd r =
  match cmd with
  | SELECT | UPDATE => holds (sql_eq uid (p_user_id r))
  | INSERT | DELETE => false
  end.
Proof.
  destruct cmd; unfold rls_using, rls_with_check, policies_for; simpl;
    now rewrite ?orb_false_r.
Qed.

Lemma profiles_with_check (uid : option UUID) (cmd : command)
  (r : profiles_tuple) :
  rls_with_check (profiles_policies uid) cmd r =
  match cmd with
  | SELECT | INSERT | UPDATE => holds (sql_eq uid (p_user_id r))
  | DELETE => false
  end.
Proof.
  destruct cmd; unfold rls_using, rls_with_check, policies_for; simpl;
    now rewrite ?orb_false_r.
Qed.

Lemma turmas_using (d : db) (uid : option UUID) (cmd : command)
  (r : turmas_tuple) :
  rls_using (turmas_policies d uid) cmd r =
  match cmd with
  | SELECT | UPDATE | DELETE =>
      holds (sql_in (t_professor_id r) (own_profile_ids d uid))
  | INSERT => false
  end.
Proof.
  destruct cmd; unfold rls_using, rls_with_check, policies_for; simpl;
    now rewrite ?orb_false_r.
Qed.

Lemma turmas_with_check (d : db) (uid : option UUID) (cmd : command)
  (r : turmas_tuple) :
  rls_with_check (turmas_policies d uid) cmd r =
  holds (sql_in (t_professor_id r) (own_profile_ids d uid)).
Proof.
  destruct cmd; unfold rls_using, rls_with_check, policies_for; simpl;
    now rewrite ?orb_false_r.
Qed.

Lemma atividades_using (d : db) (uid : option UUID) (cmd : command)
  (r : atividades_tuple) :
  rls_using (atividades_policies d uid) cmd r =
  match cmd with
  | SELECT | UPDATE | DELETE =>
      holds (sql_in (a_turma_id r) (own_turma_ids d uid))
  | INSERT => false
  end.
Proof.
  destruct cmd; unfold rls_using, rls_with_check, policies_for; simpl;
    now rewrite ?orb_false_r.
Qed.

Lemma atividades_with_check (d : db) (uid : option UUID) (cmd : command)
  (r : atividades_tuple) :
  rls_with_check (atividades_policies d uid) cmd r =
  holds (sql_in (a_turma_id r) (own_turma_ids d uid)).
Proof.
  destruct cmd; unfold rls_using, rls_with_check, policies_for; simpl;
    now rewrite ?orb_false_r.
Qed.

(** On every table the [SELECT] policy carries the expression of the
    [UPDATE] policy, and of the [DELETE] policy where there is one. *)
Lemma select_policy_same (d : db) (uid : option UUID) :
  (forall r, rls_using (profiles_policies uid) UPDATE r
             = rls_using (profiles_policies uid) SELECT r)
  /\ (forall cmd r, cmd <> INSERT ->
        rls_using (turmas_policies d uid) cmd r
        = rls_using (turmas_policies d uid) SELECT r)
  /\ (forall cmd r, cmd <> INSERT ->
        rls_using (atividades_policies d uid) cmd r
        = rls_using (atividades_policies d uid) SELECT r).
Proof.
  split; [|split].
  - intros r. now rewrite !profiles_using.
  - intros cmd r H. rewrite !turmas_using. now destruct cmd.
  - intros cmd r H. rewrite !atividades_using. now destruct cmd.
Qed.

Lemma In_visible_profiles (uid : option UUID) (d : db) (p : profile) :
  In p (visible_profiles uid d) <->
  In p (profiles d) /\ uid = Some (p_user_id p).
Proof.
  unfold visible_profiles. rewrite filter_In, profiles_using, holds_sql_eq.
  simpl. split.
  - intros (Hin & a & -> & Ha). inversion Ha; subst. auto.
  - intros (Hin & ->). split; [assumption|]. now exists (p_user_id p).
Qed.

(** The sub-query of the policies of [turmas] yields the keys of the
    profiles the caller owns. *)
Lemma In_own_profile_ids (d : db) (uid : option UUID) (i : UUID) :
  In (Some i) (own_profile_ids d uid) <->
  exists u, uid = Some u /\ owns_profile d u i.
Proof.
  unfold own_profile_ids, owns_profile. rewrite in_map_iff. split.
  - intros (p & Hp & Hin). inversion Hp; subst.
    apply filter_In in Hin as [Hin _].
    apply In_visible_profiles in Hin as [Hin ->].
    exists (p_user_id p). split; [reflexivity|]. now exists p.
  - intros (u & -> & p & Hin & <- & <-). exists p. split; [reflexivity|].
    apply filter_In. split.
    + now apply In_visible_profiles.
    + apply holds_sql_eq. now exists (p_user_id p).
Qed.

Lemma holds_own_profile (d : db) (uid : option UUID) (x : option UUID) :
  holds (sql_in x (own_profile_ids d uid)) = true <->
  exists u i, uid = Some u /\ x = Some i /\ owns_profile d u i.
Proof.
  rewrite holds_sql_in. split.
  - intros (i & -> & Hin). apply In_own_profile_ids in Hin as (u & -> & H).
    now exists u, i.
  - intros (u & i & -> & -> & H). exists i. split; [reflexivity|].
    apply In_own_profile_ids. now exists u.
Qed.

Lemma In_visible_turmas (uid : option UUID) (d : db) (t : turma) :
  In t (visible_turmas uid d) <->
  In t (turmas d) /\ exists u, uid = Some u /\ owns_profile d u (t_professor_id t).
Proof.
  unfold visible_turmas. rewrite filter_In, turmas_using, holds_own_profile.
  simpl. split.
  - intros (Hin & u & i & -> & Hi & H). inversion Hi; subst. eauto.
  - intros (Hin & u & -> & H). split; [assumption|].
    now exists u, (t_professor_id t).
Qed.

(** The join of the policies of [atividades] yields the keys of the
    classes the caller owns. *)
Lemma In_own_turma_ids (d : db) (uid : option UUID) (i : UUID) :
  In (Some i) (own_turma_ids d uid) <->
  exists u, uid = Some u /\ owns_turma d u i.
Proof.
  unfold own_turma_ids, owns_turma. rewrite in_flat_map. split.
  - intros (t & Ht & Hin). apply in_flat_map in Hin as (p & Hp & Hin).
    apply In_visible_turmas in Ht as [Ht _].
    apply In_visible_profiles in Hp as [Hp ->].
    destruct (holds _) eqn:E in Hin; [|destruct Hin].
    destruct Hin as [Hi | []]. inversion Hi; subst.
    rewrite holds_sql_and, andb_true_iff, !holds_sql_eq in E.
    destruct E as [(a & Ha1 & Ha2) _]. inversion Ha1; inversion Ha2; subst.
    exists (p_user_id p). split; [reflexivity|].
    exists t. repeat split; auto. exists p. auto.
  - intros (u & -> & t & Ht & <- & p & Hp & Hid & <-).
    exists t. split.
    + apply In_visible_turmas. split; [assumption|].
      exists (p_user_id p). split; [reflexivity|]. now exists p.
    + apply in_flat_map. exists p. split.
      * now apply In_visible_profiles.
      * replace (holds _) with true; [now left|]. symmetry.
        rewrite holds_sql_and, andb_true_iff, !holds_sql_eq. split.
        -- exists (p_id p). now rewrite Hid.
        -- now exists (p_user_id p).
Qed.

Lemma holds_own_turma (d : db) (uid : option UUID) (x : option UUID) :
  holds (sql_in x (own_turma_ids d uid)) = true <->
  exists u i, uid = Some u /\ x = Some i /\ owns_turma d u i.
Proof.
  rewrite holds_sql_in. split.
  - intros (i & -> & Hin). apply In_own_turma_ids in Hin as (u & -> & H).
    now exists u, i.
  - intros (u & i & -> & -> & H). exists i. split; [reflexivity|].
    apply In_own_turma_ids. now exists u.
Qed.

End PolicyFacts.

(** ** What a successful statement did *)
Module StatementFacts.
Import Sql SqlFacts PolicyFacts.

Ltac inv_result :=
  repeat match goal with
  | H : mbind _ _ = Ok _ |- _ =>
      apply bind_Ok in H; destruct H as (? & ? & H)
  | H : require _ _ = Ok _ |- _ => apply require_Ok in H
  | H : not_null _ _ _ = Ok _ |- _ => apply not_null_Ok in H
  | H : Ok _ = Ok _ |- _ => inversion H; subst; clear H
  end.

(** A tuple that passes the constraints of the row is the row. *)
Lemma profiles_constraints_Ok (r : profiles_tuple) (row : profile) :
  profiles_constraints r = Ok row -> profile_tuple row = r.
Proof.
  unfold profiles_constraints. intros H. inv_result.
  destruct r; simpl in *. now subst.
Qed.

Lemma turmas_constraints_Ok (r : turmas_tuple) (row : turma) :
  turmas_constraints r = Ok row ->
  turma_tuple row = r /\ turmas_periodo_check (t_periodo row) = true.
Proof.
  unfold turmas_constraints. intros H. inv_result.
  destruct r; simpl in *. now subst.
Qed.

Lemma atividades_constraints_Ok (r : atividades_tuple) (row : atividade) :
  atividades_constraints r = Ok row ->
  atividade_tuple row = r
  /\ atividades_tipo_check (a_tipo row) = true
  /\ atividades_status_check (a_status row) = true.
Proof.
  unfold atividades_constraints. intros H. inv_result.
  destruct r; simpl in *. now subst.
Qed.

(** Conversely a stored row passes them once its checks do. *)
Lemma profiles_constraints_tuple (p : profile) :
  profiles_constraints (profile_tuple p) = Ok p.
Proof. now destruct p. Qed.

Lemma turmas_constraints_tuple (t : turma) :
  turmas_periodo_check (t_periodo t) = true ->
  turmas_constraints (turma_tuple t) = Ok t.
Proof.
  intros H. destruct t. unfold turmas_constraints. simpl in *. now rewrite H.
Qed.

Lemma atividades_constraints_tuple (a : atividade) :
  atividades_tipo_check (a_tipo a) = true ->
  atividades_status_check (a_status a) = true ->
  atividades_constraints (atividade_tuple a) = Ok a.
Proof.
  intros H1 H2. destruct a. unfold atividades_constraints. simpl in *.
  now rewrite H1, H2.
Qed.

Lemma insert_profiles_Ok who now gen v d d' :
  insert_profiles who now gen v d = Ok d' ->
  exists row,
    profile_tuple row = profiles_defaults now gen v
    /\ passes_with_check who profiles_policies INSERT (profile_tuple row) = true
    /\ ~ In (p_id row) (map p_id (profiles d))
    /\ ~ In (p_user_id row) (map p_user_id (profiles d))
    /\ In (p_user_id row) (map u_id (auth_users d))
    /\ d' = with_profiles (profiles d ++ [row]) d.
Proof.
  unfold insert_profiles. intros H. inv_result.
  match goal with H : profiles_constraints _ = Ok ?r |- _ =>
    exists r; apply profiles_constraints_Ok in H; rewrite H end.
  repeat match goal with
  | H : negb _ = true |- _ => apply negb_true_iff, mem_false in H
  | H : mem _ _ = true |- _ => apply mem_In in H
  end.
  repeat split; assumption.
Qed.

Lemma insert_turmas_Ok who now gen v d d' :
  insert_turmas who now gen v d = Ok d' ->
  exists row,
    turma_tuple row = turmas_defaults now gen v
    /\ passes_with_check who (turmas_policies d) INSERT (turma_tuple row) = true
    /\ turmas_periodo_check (t_periodo row) = true
    /\ ~ In (t_id row) (map t_id (turmas d))
    /\ In (t_professor_id row) (map p_id (profiles d))
    /\ d' = with_turmas (turmas d ++ [row]) d.
Proof.
  unfold insert_turmas. intros H. inv_result.
  match goal with H : turmas_constraints _ = Ok ?r |- _ =>
    exists r; apply turmas_constraints_Ok in H; destruct H as [H ?];
    rewrite H end.
  repeat match goal with
  | H : negb _ = true |- _ => apply negb_true_iff, mem_false in H
  | H : mem _ _ = true |- _ => apply mem_In in H
  end.
  repeat split; assumption.
Qed.

Lemma insert_atividades_Ok who now gen v d d' :
  insert_atividades who now gen v d = Ok d' ->
  exists row,
    atividade_tuple row = atividades_defaults now gen v
    /\ passes_with_check who (atividades_policies d) INSERT
         (atividade_tuple row) = true
    /\ atividades_tipo_check (a_tipo row) = true
    /\ atividades_status_check (a_status row) = true
    /\ ~ In (a_id row) (map a_id (atividades d))
    /\ In (a_turma_id row) (map t_id (turmas d))
    /\ d' = with_atividades (atividades d ++ [row]) d.
Proof.
  unfold insert_atividades. intros H. inv_result.
  match goal with H : atividades_constraints _ = Ok ?r |- _ =>
    exists r; apply atividades_constraints_Ok in H;
    destruct H as (H & ? & ?); rewrite H end.
  repeat match goal with
  | H : negb _ = true |- _ => apply negb_true_iff, mem_false in H
  | H : mem _ _ = true |- _ => apply mem_In in H
  end.
  repeat split; assumption.
Qed.

(** *** Updates, row by row *)

Lemma for_each_row_Ok {T} (target : T -> bool) (f : T -> result T)
  (rows rows' : list T) :
  for_each_row target f rows = Ok rows' ->
  Forall2 (fun r r' => if target r then f r = Ok r' else r' = r) rows rows'.
Proof.
  revert rows'. induction rows as [|r rows IH]; simpl; intros rows' H.
  - inversion H. constructor.
  - inv_result. constructor; [|now apply IH].
    destruct (target r); [assumption | congruence].
Qed.

Lemma for_each_row_map {T K} (key : T -> K) (target : T -> bool)
  (f : T -> result T) (rows rows' : list T) :
  (forall r r', In r rows -> target r = true -> f r = Ok r' ->
                key r' = key r) ->
  for_each_row target f rows = Ok rows' ->
  map key rows' = map key rows.
Proof.
  intros Hkey H. apply for_each_row_Ok in H.
  induction H as [|r r' rows rows' Hr _ IH]; simpl; [reflexivity|].
  f_equal.
  - destruct (target r) eqn:E; [|now subst]. apply Hkey; auto. now left.
  - apply IH. intros r0 r0' Hin. apply Hkey. now right.
Qed.

Lemma for_each_row_untargeted {T} (target : T -> bool) (f : T -> result T)
  (rows : list T) :
  (forall r, In r rows -> target r = false) ->
  for_each_row target f rows = Ok rows.
Proof.
  induction rows as [|r rows IH]; simpl; intros H; [reflexivity|].
  rewrite (H r) by now left. simpl. rewrite IH; [reflexivity|].
  intros r0 Hr0. apply H. now right.
Qed.

Lemma profiles_update_row_Ok who now f (p p' : profile) :
  profiles_update_row who now f p = Ok p' ->
  profile_tuple p' = update_updated_at_column now (f p)
  /\ passes_with_check who profiles_policies UPDATE (profile_tuple p') = true.
Proof.
  unfold profiles_update_row. intros H. inv_result.
  apply profiles_constraints_Ok in H. now rewrite H.
Qed.

Lemma turmas_update_row_Ok who now f d (t t' : turma) :
  turmas_update_row who now f d t = Ok t' ->
  turma_tuple t' = update_updated_at_column now (f t)
  /\ passes_with_check who (turmas_policies d) UPDATE (turma_tuple t') = true
  /\ turmas_periodo_check (t_periodo t') = true.
Proof.
  unfold turmas_update_row. intros H. inv_result.
  apply turmas_constraints_Ok in H as [H ?]. now rewrite H.
Qed.

Lemma atividades_update_row_Ok who now f d (a a' : atividade) :
  atividades_update_row who now f d a = Ok a' ->
  atividade_tuple a' = update_updated_at_column now (f a)
  /\ passes_with_check who (atividades_policies d) UPDATE
       (atividade_tuple a') = true
  /\ atividades_tipo_check (a_tipo a') = true
  /\ atividades_status_check (a_status a') = true.
Proof.
  unfold atividades_update_row. intros H. inv_result.
  apply atividades_constraints_Ok in H as (H & ? & ?). now rewrite H.
Qed.

Ltac fkey_goal :=
  let y := fresh in
  let Hy := fresh in
  intros y Hy; apply mem_In;
  match goal with
  | H : forallb _ _ = true |- _ =>
      rewrite forallb_forall in H; solve [apply (H _ Hy)]
  end.

Lemma update_profiles_Ok who now w f d d' n :
  update_profiles who now w f d = Ok (d', n) ->
  exists ps,
    for_each_row (profiles_update_target who w)
      (profiles_update_row who now f) (profiles d) = Ok ps
    /\ List.NoDup (map p_id ps)
    /\ List.NoDup (map p_user_id ps)
    /\ (forall p, In p ps -> In (p_user_id p) (map u_id (auth_users d)))
    /\ (forall t, In t (turmas d) -> In (t_professor_id t) (map p_id ps))
    /\ d' = with_profiles ps d
    /\ n = length (List.filter (profiles_update_target who w) (profiles d)).
Proof.
  unfold update_profiles. intros H. inv_result.
  match goal with H : for_each_row _ _ _ = Ok ?l |- _ => exists l end.
  repeat match goal with
  | H : distinct _ = true |- _ => apply distinct_NoDup in H
  end.
  repeat split; try assumption; fkey_goal.
Qed.

Lemma update_turmas_Ok who now w f d d' n :
  update_turmas who now w f d = Ok (d', n) ->
  exists ts,
    for_each_row (turmas_update_target who w d)
      (turmas_update_row who now f d) (turmas d) = Ok ts
    /\ List.NoDup (map t_id ts)
    /\ (forall t, In t ts -> In (t_professor_id t) (map p_id (profiles d)))
    /\ (forall a, In a (atividades d) -> In (a_turma_id a) (map t_id ts))
    /\ d' = with_turmas ts d
    /\ n = length (List.filter (turmas_update_target who w d) (turmas d)).
Proof.
  unfold update_turmas. intros H. inv_result.
  match goal with H : for_each_row _ _ _ = Ok ?l |- _ => exists l end.
  repeat match goal with
  | H : distinct _ = true |- _ => apply distinct_NoDup in H
  end.
  repeat split; try assumption; fkey_goal.
Qed.

Lemma update_atividades_Ok who now w f d d' n :
  update_atividades who now w f d = Ok (d', n) ->
  exists l,
    for_each_row (atividades_update_target who w d)
      (atividades_update_row who now f d) (atividades d) = Ok l
    /\ List.NoDup (map a_id l)
    /\ (forall a, In a l -> In (a_turma_id a) (map t_id (turmas d)))
    /\ d' = with_atividades l d
    /\ n = length
             (List.filter (atividades_update_target who w d) (atividades d)).
Proof.
  unfold update_atividades. intros H. inv_result.
  match goal with H : for_each_row _ _ _ = Ok ?l |- _ => exists l end.
  repeat match goal with
  | H : distinct _ = true |- _ => apply distinct_NoDup in H
  end.
  repeat split; try assumption; fkey_goal.
Qed.

(** Every row of the updated table is an old row left alone or the new
    version of a targeted one. *)
Lemma for_each_row_In {T} (target : T -> bool) (f : T -> result T)
  (rows rows' : list T) (r' : T) :
  for_each_row target f rows = Ok rows' ->
  In r' rows' ->
  exists r, In r rows
    /\ (if target r then f r = Ok r' else r' = r).
Proof.
  intros H. apply for_each_row_Ok in H.
  induction H as [|r r1 rows rows' Hr _ IH]; simpl; [contradiction|].
  intros [<- | Hin].
  - exists r. auto.
  - destruct (IH Hin) as (r0 & Hr0 & H0). exists r0. auto.
Qed.

Lemma for_each_row_In_old {T} (target : T -> bool) (f : T -> result T)
  (rows rows' : list T) (r : T) :
  for_each_row target f rows = Ok rows' ->
  In r rows ->
  exists r', In r' rows'
    /\ (if target r then f r = Ok r' else r' = r).
Proof.
  intros H. apply for_each_row_Ok in H.
  induction H as [|r0 r1 rows rows' Hr _ IH]; simpl; [contradiction|].
  intros [<- | Hin].
  - exists r1. auto.
  - destruct (IH Hin) as (r' & Hr' & H0). exists r'. auto.
Qed.

End StatementFacts.

(** ** Every statement keeps the state consistent *)
Module Invariants.
Import Sql SqlFacts PolicyFacts StatementFacts.

Lemma empty_db_consistent : consistent empty_db.
Proof.
  split.
  - constructor; simpl; try constructor; intros ? [].
  - intros u [].
Qed.

Ltac in_snoc H := apply in_app_iff in H as [H | [<- | []]].

Lemma insert_profiles_constraints who now gen v d d' :
  constraints_hold d -> insert_profiles who now gen v d = Ok d' ->
  constraints_hold d'.
Proof.
  intros [] H.
  apply insert_profiles_Ok in H as (row & _ & _ & Hid & Huid & Hfk & ->).
  constructor; simpl; auto.
  - now apply NoDup_map_snoc.
  - now apply NoDup_map_snoc.
  - intros p Hp. in_snoc Hp; auto.
  - intros t Ht. rewrite map_app. apply in_app_iff. left. auto.
Qed.

Lemma insert_turmas_constraints who now gen v d d' :
  constraints_hold d -> insert_turmas who now gen v d = Ok d' ->
  constraints_hold d'.
Proof.
  intros [] H.
  apply insert_turmas_Ok in H as (row & _ & _ & Hck & Hid & Hfk & ->).
  constructor; simpl; auto.
  - now apply NoDup_map_snoc.
  - intros t Ht. in_snoc Ht; auto.
  - intros t Ht. in_snoc Ht; auto.
  - intros a Ha. rewrite map_app. apply in_app_iff. left. auto.
Qed.

Lemma insert_atividades_constraints who now gen v d d' :
  constraints_hold d -> insert_atividades who now gen v d = Ok d' ->
  constraints_hold d'.
Proof.
  intros [] H.
  apply insert_atividades_Ok in H
    as (row & _ & _ & Htipo & Hstatus & Hid & Hfk & ->).
  constructor; simpl; auto.
  - now apply NoDup_map_snoc.
  - intros a Ha. in_snoc Ha; auto.
  - intros a Ha. in_snoc Ha; auto.
  - intros a Ha. in_snoc Ha; auto.
Qed.

(** The trigger gives the new identity its profile. *)
Lemma insert_auth_users_Ok now gen NEW d d' :
  insert_auth_users now gen NEW d = Ok d' ->
  exists row,
    profile_tuple row =
      profiles_defaults now gen (handle_new_user_values NEW)
    /\ ~ In (u_id NEW) (map u_id (auth_users d))
    /\ ~ In (p_id row) (map p_id (profiles d))
    /\ ~ In (p_user_id row) (map p_user_id (profiles d))
    /\ d' = with_profiles (profiles d ++ [row])
              (with_auth_users (auth_users d ++ [NEW]) d).
Proof.
  unfold insert_auth_users, handle_new_user. intros H. inv_result.
  apply insert_profiles_Ok in H as (row & Hrow & _ & Hid & Huid & _ & ->).
  exists row. simpl in *.
  match goal with H : negb _ = true |- _ =>
    apply negb_true_iff, mem_false in H end.
  repeat split; assumption.
Qed.

Lemma insert_auth_users_consistent now gen NEW d d' :
  consistent d -> insert_auth_users now gen NEW d = Ok d' -> consistent d'.
Proof.
  intros [[] Hprov] H.
  apply insert_auth_users_Ok in H as (row & Hrow & Hu & Hid & Huid & ->).
  assert (Hrow_uid : p_user_id row = u_id NEW).
  { apply (f_equal p_user_id) in Hrow. simpl in Hrow. now inversion Hrow. }
  split.
  - constructor; simpl; auto.
    + now apply NoDup_map_snoc.
    + now apply NoDup_map_snoc.
    + now apply NoDup_map_snoc.
    + intros p Hp. rewrite map_app. apply in_app_iff. in_snoc Hp.
      * left. auto.
      * right. left. now symmetry.
    + intros t Ht. rewrite map_app. apply in_app_iff. left. auto.
  - intros u Hin. simpl in *. rewrite map_app. apply in_app_iff.
    in_snoc Hin.
    + left. auto.
    + right. left. assumption.
Qed.

(** *** Cascading deletes *)

Ltac cascade :=
  constructor; simpl; try assumption;
  try (apply NoDup_map_filter; assumption);
  try (apply cascade_fkey; assumption);
  try (let x := fresh in
       let Hx := fresh in
       intros x Hx; apply filter_In in Hx as [Hx _]; auto).

Lemma remove_atividades_constraints victim d :
  constraints_hold d -> constraints_hold (remove_atividades victim d).
Proof. intros []. cascade. Qed.

Lemma remove_turmas_constraints victim d :
  constraints_hold d -> constraints_hold (remove_turmas victim d).
Proof. intros []. cascade. Qed.

Lemma remove_profiles_constraints victim d :
  constraints_hold d -> constraints_hold (remove_profiles victim d).
Proof. intros []. cascade. Qed.

Lemma remove_auth_users_constraints victim d :
  constraints_hold d -> constraints_hold (remove_auth_users victim d).
Proof. intros []. cascade. Qed.

Lemma remove_auth_users_provisioned victim d :
  constraints_hold d -> provisioned d ->
  provisioned (remove_auth_users victim d).
Proof.
  intros [] Hprov u Hu. simpl in *.
  apply filter_In in Hu as [Hu Hkeep]. apply negb_true_iff in Hkeep.
  specialize (Hprov u Hu). apply in_map_iff in Hprov as (p & Hp & Hin).
  apply in_map_iff. exists p. split; [assumption|].
  apply filter_In. split; [assumption|].
  apply negb_true_iff, mem_false. intros Hgone.
  apply in_map_iff in Hgone as (u' & Hu' & Hin').
  apply filter_In in Hin' as [Hin' Hv].
  assert (u' = u).
  { apply (NoDup_map_In_inj u_id (auth_users d)); auto. congruence. }
  subst. congruence.
Qed.

(** The API cannot delete a profile: [profiles] has no [DELETE] policy. *)
Lemma profiles_delete_target_api uid where_ p :
  profiles_delete_target (api_caller uid) where_ p = false.
Proof.
  unfold profiles_delete_target, passes_using. now rewrite profiles_using.
Qed.

Lemma with_profiles_id d : with_profiles (profiles d) d = d.
Proof. now destruct d. Qed.

Lemma with_turmas_id d : with_turmas (turmas d) d = d.
Proof. now destruct d. Qed.

Lemma with_atividades_id d : with_atividades (atividades d) d = d.
Proof. now destruct d. Qed.

Lemma remove_profiles_nothing victim d :
  (forall p, In p (profiles d) -> victim p = false) ->
  remove_profiles victim d = d.
Proof.
  intros Hv. unfold remove_profiles, remove_turmas, remove_atividades.
  rewrite (filter_none victim) by assumption. simpl.
  unfold with_atividades, with_turmas, with_profiles. simpl.
  rewrite (filter_all (fun p => negb (victim p)))
    by (intros p Hp; now rewrite Hv).
  rewrite (filter_all (fun _ : turma => true)) by reflexivity.
  rewrite (filter_none (fun _ : turma => false)) by reflexivity. simpl.
  rewrite (filter_all _ (atividades d)) by reflexivity.
  now destruct d.
Qed.

Lemma delete_profiles_api uid where_ d :
  delete_profiles (api_caller uid) where_ d = (d, 0).
Proof.
  unfold delete_profiles.
  rewrite remove_profiles_nothing, filter_none; auto;
    intros; apply profiles_delete_target_api.
Qed.

(** *** Updates *)

Lemma profiles_update_target_api uid w (p : profile) :
  profiles_update_target (api_caller uid) w p = true ->
  uid = Some (p_user_id p) /\ w p = true.
Proof.
  unfold profiles_update_target, passes_using. rewrite profiles_using.
  intros H. apply andb_true_iff in H as [H Hw]. split; [|assumption].
  apply holds_sql_eq in H as (a & -> & Ha). simpl in Ha. now inversion Ha.
Qed.

(** An [UPDATE] of the API cannot hand a profile to another identity: the
    [USING] expression of the policy is also the check of the new row. *)
Lemma profiles_update_keeps_user_id uid now w f (p p' : profile) :
  profiles_update_target (api_caller uid) w p = true ->
  profiles_update_row (api_caller uid) now f p = Ok p' ->
  p_user_id p' = p_user_id p.
Proof.
  intros Ht Hrow. apply profiles_update_target_api in Ht as [-> _].
  apply profiles_update_row_Ok in Hrow as [_ Hck].
  unfold passes_with_check in Hck. rewrite profiles_with_check in Hck.
  apply holds_sql_eq in Hck as (a & Ha1 & Ha2). simpl in Ha2.
  inversion Ha1; inversion Ha2; congruence.
Qed.

Lemma update_profiles_constraints who now w f d d' n :
  constraints_hold d -> update_profiles who now w f d = Ok (d', n) ->
  constraints_hold d'.
Proof.
  intros [] H.
  apply update_profiles_Ok in H as (ps & _ & ? & ? & ? & ? & -> & _).
  constructor; simpl; assumption.
Qed.

Lemma update_profiles_provisioned uid now w f d d' n :
  provisioned d ->
  update_profiles (api_caller uid) now w f d = Ok (d', n) ->
  provisioned d'.
Proof.
  intros Hprov H.
  apply update_profiles_Ok in H as (ps & Hps & _ & _ & _ & _ & -> & _).
  intros u Hu. simpl in *.
  rewrite (for_each_row_map p_user_id _ _ _ _
             (fun r r' _ => profiles_update_keeps_user_id uid now w f r r')
             Hps).
  now apply Hprov.
Qed.

Lemma update_turmas_constraints who now w f d d' n :
  constraints_hold d -> update_turmas who now w f d = Ok (d', n) ->
  constraints_hold d'.
Proof.
  intros [] H.
  apply update_turmas_Ok in H as (ts & Hts & ? & ? & ? & -> & _).
  constructor; simpl; try assumption.
  intros t' Ht'.
  destruct (for_each_row_In _ _ _ _ _ Hts Ht') as (t & Ht & Hrow).
  destruct (turmas_update_target who w d t).
  - now apply turmas_update_row_Ok in Hrow as (_ & _ & ?).
  - subst. auto.
Qed.

Lemma update_atividades_constraints who now w f d d' n :
  constraints_hold d -> update_atividades who now w f d = Ok (d', n) ->
  constraints_hold d'.
Proof.
  intros [] H.
  apply update_atividades_Ok in H as (l & Hl & ? & ? & -> & _).
  constructor; simpl; try assumption.
  - intros a' Ha'.
    destruct (for_each_row_In _ _ _ _ _ Hl Ha') as (a & Ha & Hrow).
    destruct (atividades_update_target who w d a).
    + now apply atividades_update_row_Ok in Hrow as (_ & _ & ? & _).
    + subst. auto.
  - intros a' Ha'.
    destruct (for_each_row_In _ _ _ _ _ Hl Ha') as (a & Ha & Hrow).
    destruct (atividades_update_target who w d a).
    + now apply atividades_update_row_Ok in Hrow as (_ & _ & _ & ?).
    + subst. auto.
Qed.

(** *** Reachable states *)

Lemma execute_consistent now gen s d d' :
  consistent d -> execute now gen s d = Ok d' -> consistent d'.
Proof.
  intros Hd H. pose proof Hd as [Hc Hprov].
  destruct s; cbv beta iota delta [execute] in H; inv_result.
  - eapply insert_auth_users_consistent; eauto.
  - split.
    + now apply remove_auth_users_constraints.
    + now apply remove_auth_users_provisioned.
  - split.
    + eapply insert_profiles_constraints; eauto.
    + apply insert_profiles_Ok in H as (row & _ & _ & _ & _ & _ & ->).
      intros u Hu. simpl in *. rewrite map_app. apply in_app_iff. left. auto.
  - match goal with H : update_profiles _ _ _ _ _ = Ok ?r |- _ =>
      destruct r as [d' n] end.
    split.
    + eapply update_profiles_constraints; eauto.
    + eapply update_profiles_provisioned; eauto.
  - rewrite remove_profiles_nothing; [assumption|].
    intros; apply profiles_delete_target_api.
  - split.
    + eapply insert_turmas_constraints; eauto.
    + apply insert_turmas_Ok in H as (row & _ & _ & _ & _ & _ & ->).
      exact Hprov.
  - match goal with H : update_turmas _ _ _ _ _ = Ok ?r |- _ =>
      destruct r as [d' n] end.
    split.
    + eapply update_turmas_constraints; eauto.
    + match goal with H : update_turmas _ _ _ _ _ = Ok _ |- _ =>
        apply update_turmas_Ok in H as (ts & _ & _ & _ & _ & -> & _) end.
      exact Hprov.
  - split.
    + now apply remove_turmas_constraints.
    + exact Hprov.
  - split.
    + eapply insert_atividades_constraints; eauto.
    + apply insert_atividades_Ok in H as (row & _ & _ & _ & _ & _ & _ & ->).
      exact Hprov.
  - match goal with H : update_atividades _ _ _ _ _ = Ok ?r |- _ =>
      destruct r as [d' n] end.
    split.
    + eapply update_atividades_constraints; eauto.
    + match goal with H : update_atividades _ _ _ _ _ = Ok _ |- _ =>
        apply update_atividades_Ok in H as (l & _ & _ & _ & -> & _) end.
      exact Hprov.
  - split.
    + now apply remove_atividades_constraints.
    + exact Hprov.
Qed.

Lemma commit_consistent d tx : consistent d -> consistent (commit d tx).
Proof.
  intros Hd. unfold commit.
  destruct (execute _ _ _ d) eqn:E; [|assumption].
  eapply execute_consistent; eauto.
Qed.

Lemma run_consistent txs d : consistent d -> consistent (run txs d).
Proof.
  revert d. induction txs as [|tx txs IH]; simpl; intros d Hd; [assumption|].
  apply IH. now apply commit_consistent.
Qed.

Lemma reachable_consistent d : reachable d -> consistent d.
Proof.
  intros [txs ->]. apply run_consistent, empty_db_consistent.
Qed.

Lemma reachable_commit d tx : reachable d -> reachable (commit d tx).
Proof.
  intros [txs ->]. exists (txs ++ [tx]). unfold run.
  now rewrite fold_left_app.
Qed.

End Invariants.

(** ** Ownership along the keys *)
Module Ownership.
Import Sql SqlFacts PolicyFacts StatementFacts Invariants.

Lemma owns_profile_iff d (P : profile) u :
  List.NoDup (map p_id (profiles d)) -> In P (profiles d) ->
  owns_profile d u (p_id P) <-> u = p_user_id P.
Proof.
  intros Hnd HP. unfold owns_profile. split.
  - intros (p & Hp & Hid & <-).
    now rewrite (NoDup_map_In_inj p_id _ p P Hnd Hp HP Hid).
  - intros ->. now exists P.
Qed.

Lemma owns_turma_iff d (C : turma) u :
  List.NoDup (map t_id (turmas d)) -> In C (turmas d) ->
  owns_turma d u (t_id C) <-> owns_profile d u (t_professor_id C).
Proof.
  intros Hnd HC. unfold owns_turma. split.
  - intros (t & Ht & Hid & H).
    now rewrite <- (NoDup_map_In_inj t_id _ t C Hnd Ht HC Hid).
  - intros H. now exists C.
Qed.

(** The predicate of the four policies of [turmas], on a class whose
    profile is [P]: true exactly for the identity of [P]. *)
Lemma turmas_policy_owner d (P : profile) (r : turmas_tuple) uid :
  constraints_hold d -> In P (profiles d) ->
  t_professor_id r = Some (p_id P) ->
  holds (sql_in (t_professor_id r) (own_profile_ids d uid)) = true <->
  uid = Some (p_user_id P).
Proof.
  intros [] HP Hr. rewrite holds_own_profile, Hr. split.
  - intros (u & i & -> & Hi & H). inversion Hi; subst.
    apply owns_profile_iff in H; auto. now subst.
  - intros ->. exists (p_user_id P), (p_id P). repeat split.
    apply owns_profile_iff; auto.
Qed.

(** The predicate of the four policies of [atividades], on an assignment
    of the class [C] whose profile is [P]. *)
Lemma atividades_policy_owner d (P : profile) (C : turma)
  (r : atividades_tuple) uid :
  constraints_hold d -> In P (profiles d) -> In C (turmas d) ->
  t_professor_id C = p_id P ->
  a_turma_id r = Some (t_id C) ->
  holds (sql_in (a_turma_id r) (own_turma_ids d uid)) = true <->
  uid = Some (p_user_id P).
Proof.
  intros [] HP HC HCP Hr. rewrite holds_own_turma, Hr. split.
  - intros (u & i & -> & Hi & H). inversion Hi; subst.
    apply owns_turma_iff in H; auto. rewrite HCP in H.
    apply owns_profile_iff in H; auto. now subst.
  - intros ->. exists (p_user_id P), (t_id C). repeat split.
    apply owns_turma_iff; auto. rewrite HCP. apply owns_profile_iff; auto.
Qed.

(** What the caller can read of [turmas] is the classes of its chain. *)
Lemma In_own_profiles d uid (p : profile) :
  In p (own_profiles d uid) <-> In p (profiles d) /\ uid = Some (p_user_id p).
Proof.
  unfold own_profiles. rewrite filter_In, holds_sql_eq. split.
  - intros (Hin & a & Ha & ->). inversion Ha; subst. auto.
  - intros (Hin & ->). split; [assumption|]. now exists (p_user_id p).
Qed.

Lemma own_turmas_policy d uid (t : turma) :
  mem (t_professor_id t) (map p_id (own_profiles d uid)) =
  rls_using (turmas_policies d uid) SELECT (turma_tuple t).
Proof.
  rewrite turmas_using. apply eq_true_iff_eq.
  rewrite mem_In, holds_own_profile, in_map_iff. simpl. split.
  - intros (p & Hid & Hp). apply In_own_profiles in Hp as [Hp ->].
    exists (p_user_id p), (t_professor_id t). repeat split. now exists p.
  - intros (u & i & -> & Hi & p & Hp & Hid & <-). inversion Hi; subst.
    exists p. split; [now symmetry|]. now apply In_own_profiles.
Qed.

Lemma filter_andb {A} (f g : A -> bool) (l : list A) :
  List.filter (fun x => f x && g x) l = List.filter g (List.filter f l).
Proof.
  induction l as [|x l IH]; simpl; [reflexivity|].
  destruct (f x); simpl; [|assumption]. destruct (g x); now rewrite IH.
Qed.

Lemma select_turmas_own uid where_ d :
  select_turmas (api_caller uid) where_ d =
  List.filter where_ (own_turmas d uid).
Proof.
  unfold select_turmas, own_turmas, passes_using.
  rewrite filter_andb. f_equal. apply filter_ext. intros t.
  now rewrite own_turmas_policy.
Qed.

Lemma own_atividades_policy d uid (a : atividade) :
  mem (a_turma_id a) (map t_id (own_turmas d uid)) =
  rls_using (atividades_policies d uid) SELECT (atividade_tuple a).
Proof.
  rewrite atividades_using. apply eq_true_iff_eq.
  rewrite mem_In, holds_own_turma, in_map_iff. simpl. split.
  - intros (t & Hid & Ht). unfold own_turmas in Ht.
    apply filter_In in Ht as [Ht Hown]. rewrite own_turmas_policy in Hown.
    rewrite turmas_using in Hown. apply holds_own_profile in Hown
      as (u & i & -> & Hi & Hp). simpl in Hi. inversion Hi; subst.
    exists u, (t_id t). repeat split; [now rewrite Hid|]. now exists t.
  - intros (u & i & -> & Hi & t & Ht & Hid & Hp). inversion Hi; subst.
    exists t. split; [now symmetry|]. apply filter_In. split; [assumption|].
    rewrite own_turmas_policy, turmas_using. apply holds_own_profile.
    now exists u, (t_professor_id t).
Qed.

Lemma select_atividades_own uid where_ d :
  select_atividades (api_caller uid) where_ d =
  List.filter where_ (own_atividades d uid).
Proof.
  unfold select_atividades, own_atividades, passes_using.
  rewrite filter_andb. f_equal. apply filter_ext. intros a.
  now rewrite own_atividades_policy.
Qed.

End Ownership.

(** ** Statements that touch one row, or none *)
Module Targeted.
Import Sql SqlFacts PolicyFacts StatementFacts Invariants Ownership.

Lemma filter_single {A} (key : A -> UUID) (g : A -> bool) (l : list A)
  (x : A) :
  List.NoDup (map key l) -> In x l -> g x = true ->
  (forall y, In y l -> g y = true -> key y = key x) ->
  List.filter g l = [x].
Proof.
  induction l as [|z l IH]; simpl; intros Hnd Hx Hgx Hkey; [contradiction|].
  inversion Hnd as [|? ? Hz Hl]; subst.
  destruct Hx as [-> | Hx].
  - rewrite Hgx. f_equal. apply filter_none. intros y Hy.
    destruct (g y) eqn:E; [|reflexivity].
    exfalso. apply Hz. rewrite <- (Hkey y (or_intror Hy) E). now apply in_map.
  - destruct (g z) eqn:E.
    + exfalso. apply Hz. rewrite (Hkey z (or_introl eq_refl) E).
      now apply in_map.
    + apply IH; auto.
Qed.

Lemma for_each_row_replace {T} (target : T -> bool) (f : T -> result T)
  (g : T -> T) (rows : list T) :
  (forall r, In r rows -> target r = true -> f r = Ok (g r)) ->
  for_each_row target f rows =
  Ok (map (fun r => if target r then g r else r) rows).
Proof.
  induction rows as [|r rows IH]; simpl; intros H; [reflexivity|].
  rewrite IH by (intros r0 Hr0; apply H; now right).
  destruct (target r) eqn:E; [|reflexivity].
  now rewrite (H r (or_introl eq_refl) E).
Qed.

Lemma forallb_mem_true {A} (key : A -> UUID) (keys : list UUID) (l : list A) :
  (forall x, In x l -> In (key x) keys) ->
  forallb (fun x => mem (key x) keys) l = true.
Proof.
  intros H. apply forallb_forall. intros x Hx. apply mem_In. auto.
Qed.

(** An update whose new rows pass the checks of the table commits. *)
Lemma update_turmas_commits who now w f d ts :
  for_each_row (turmas_update_target who w d)
    (turmas_update_row who now f d) (turmas d) = Ok ts ->
  List.NoDup (map t_id ts) ->
  (forall t, In t ts -> In (t_professor_id t) (map p_id (profiles d))) ->
  (forall a, In a (atividades d) -> In (a_turma_id a) (map t_id ts)) ->
  update_turmas who now w f d =
  Ok (with_turmas ts d,
      length (List.filter (turmas_update_target who w d) (turmas d))).
Proof.
  intros Hts Hnd Hfk1 Hfk2. unfold update_turmas. rewrite Hts. simpl.
  rewrite (proj2 (distinct_NoDup _) Hnd). simpl.
  rewrite (forallb_mem_true t_professor_id _ _ Hfk1). simpl.
  now rewrite (forallb_mem_true a_turma_id _ _ Hfk2).
Qed.

Lemma update_atividades_commits who now w f d l :
  for_each_row (atividades_update_target who w d)
    (atividades_update_row who now f d) (atividades d) = Ok l ->
  List.NoDup (map a_id l) ->
  (forall a, In a l -> In (a_turma_id a) (map t_id (turmas d))) ->
  update_atividades who now w f d =
  Ok (with_atividades l d,
      length (List.filter (atividades_update_target who w d) (atividades d))).
Proof.
  intros Hl Hnd Hfk. unfold update_atividades. rewrite Hl. simpl.
  rewrite (proj2 (distinct_NoDup _) Hnd). simpl.
  now rewrite (forallb_mem_true a_turma_id _ _ Hfk).
Qed.

(** A statement none of whose rows is targeted changes nothing. *)
Lemma update_turmas_nothing who now w f d :
  constraints_hold d ->
  (forall t, In t (turmas d) -> turmas_update_target who w d t = false) ->
  update_turmas who now w f d = Ok (d, 0).
Proof.
  intros [] Hno.
  rewrite (update_turmas_commits who now w f d (turmas d)); auto.
  - now rewrite with_turmas_id, filter_none.
  - now apply for_each_row_untargeted.
Qed.

Lemma update_atividades_nothing who now w f d :
  constraints_hold d ->
  (forall a, In a (atividades d) ->
             atividades_update_target who w d a = false) ->
  update_atividades who now w f d = Ok (d, 0).
Proof.
  intros [] Hno.
  rewrite (update_atividades_commits who now w f d (atividades d)); auto.
  - now rewrite with_atividades_id, filter_none.
  - now apply for_each_row_untargeted.
Qed.

Lemma remove_turmas_nothing victim d :
  (forall t, In t (turmas d) -> victim t = false) ->
  remove_turmas victim d = d.
Proof.
  intros Hv. unfold remove_turmas, remove_atividades.
  rewrite (filter_none victim) by assumption. simpl.
  unfold with_atividades, with_turmas. simpl.
  rewrite (filter_all (fun t => negb (victim t)))
    by (intros t Ht; now rewrite Hv).
  rewrite (filter_all _ (atividades d)) by reflexivity.
  now destruct d.
Qed.

Lemma remove_atividades_nothing victim d :
  (forall a, In a (atividades d) -> victim a = false) ->
  remove_atividades victim d = d.
Proof.
  intros Hv. unfold remove_atividades.
  rewrite (filter_all (fun a => negb (victim a)))
    by (intros a Ha; now rewrite Hv).
  apply with_atividades_id.
Qed.

Lemma turma_with_id_In d (C t : turma) :
  List.NoDup (map t_id (turmas d)) -> In C (turmas d) -> In t (turmas d) ->
  turma_with_id (t_id C) t = true -> t = C.
Proof.
  intros Hnd HC Ht H. apply N.eqb_eq in H.
  exact (NoDup_map_In_inj t_id _ t C Hnd Ht HC H).
Qed.

Lemma atividade_with_id_In d (A a : atividade) :
  List.NoDup (map a_id (atividades d)) ->
  In A (atividades d) -> In a (atividades d) ->
  atividade_with_id (a_id A) a = true -> a = A.
Proof.
  intros Hnd HA Ha H. apply N.eqb_eq in H.
  exact (NoDup_map_In_inj a_id _ a A Hnd Ha HA H).
Qed.

End Targeted.

(** ** Classes: visible to, and writable by, their owner only *)
Module TurmasAccess.
Import Sql SqlFacts PolicyFacts StatementFacts Invariants Ownership Targeted.

Section OneClass.
Variables (d : db) (P : profile) (C : turma).
Hypothesis Hd : constraints_hold d.
Hypothesis HP : In P (profiles d).
Hypothesis HC : In C (turmas d).
Hypothesis HCP : t_professor_id C = p_id P.

Lemma policy_of_C uid (cmd : command) :
  cmd <> INSERT ->
  rls_using (turmas_policies d uid) cmd (turma_tuple C) = true <->
  uid = Some (p_user_id P).
Proof using Hd HP HCP.
  intros Hcmd. rewrite turmas_using.
  destruct cmd; try congruence;
    apply turmas_policy_owner; auto; simpl; now rewrite HCP.
Qed.

Lemma policy_of_C_other uid (cmd : command) :
  uid <> Some (p_user_id P) ->
  rls_using (turmas_policies d uid) cmd (turma_tuple C) = false.
Proof using Hd HP HCP.
  intros Hne. destruct (rls_using _ cmd _) eqn:E; [|reflexivity].
  destruct cmd.
  - apply policy_of_C in E; congruence.
  - now rewrite turmas_using in E.
  - apply policy_of_C in E; congruence.
  - apply policy_of_C in E; congruence.
Qed.

(** Among the rows of the table, [WHERE id = C.id] selects [C]. *)
Lemma only_C t :
  In t (turmas d) -> turma_with_id (t_id C) t = true -> t = C.
Proof using Hd HC.
  destruct Hd. now apply turma_with_id_In.
Qed.

Lemma owner_select :
  select_turmas (api_caller (Some (p_user_id P))) (turma_with_id (t_id C)) d
  = [C].
Proof using Hd HP HC HCP.
  unfold select_turmas, passes_using.
  apply (filter_single t_id); auto.
  - now destruct Hd.
  - rewrite (proj2 (policy_of_C _ SELECT ltac:(discriminate)) eq_refl).
    apply N.eqb_refl.
  - intros t Ht H. apply andb_true_iff in H as [_ H]. now apply N.eqb_eq.
Qed.

Lemma owner_update_target t :
  In t (turmas d) ->
  turmas_update_target (api_caller (Some (p_user_id P)))
    (turma_with_id (t_id C)) d t
  = turma_with_id (t_id C) t.
Proof using Hd HP HC HCP.
  intros Ht. unfold turmas_update_target, passes_using.
  destruct (turma_with_id (t_id C) t) eqn:E; [|apply andb_false_r].
  rewrite (only_C t Ht E).
  now rewrite (proj2 (policy_of_C _ UPDATE ltac:(discriminate)) eq_refl).
Qed.

Lemma owner_update now assign (C' : turma) :
  turmas_constraints (update_updated_at_column now (assign C)) = Ok C' ->
  t_id C' = t_id C -> t_professor_id C' = t_professor_id C ->
  update_turmas (api_caller (Some (p_user_id P))) now
    (turma_with_id (t_id C)) assign d
  = Ok (with_turmas
          (map (fun t => if turma_with_id (t_id C) t then C' else t)
             (turmas d)) d, 1).
Proof using Hd HP HC HCP.
  intros HC' Hid Hprof.
  set (owner := api_caller (Some (p_user_id P))).
  set (ts := map (fun t => if turma_with_id (t_id C) t then C' else t)
               (turmas d)).
  assert (Hids : map t_id ts = map t_id (turmas d)).
  { unfold ts. rewrite map_map. apply map_ext_in. intros t Ht.
    destruct (turma_with_id (t_id C) t) eqn:E; [|reflexivity].
    apply N.eqb_eq in E. now rewrite Hid. }
  assert (Hcount :
    List.filter (turmas_update_target owner (turma_with_id (t_id C)) d)
      (turmas d) = [C]).
  { apply (filter_single t_id); auto.
    - now destruct Hd.
    - rewrite owner_update_target by assumption. apply N.eqb_refl.
    - intros t Ht H. rewrite owner_update_target in H by assumption.
      now apply N.eqb_eq. }
  rewrite (update_turmas_commits owner now _ assign d ts).
  - now rewrite Hcount.
  - rewrite (for_each_row_replace _ _ (fun _ => C')).
    + f_equal. apply map_ext_in. intros t Ht.
      now rewrite owner_update_target.
    + intros t Ht Htarget. rewrite owner_update_target in Htarget by auto.
      rewrite (only_C t Ht Htarget). unfold turmas_update_row.
      pose proof (turmas_constraints_Ok _ _ HC') as [Htuple _].
      replace (passes_with_check _ _ _ _) with true; [exact HC'|].
      symmetry. unfold passes_with_check, owner.
      assert (Hr : t_professor_id (update_updated_at_column now (assign C))
                   = Some (p_id P)).
      { rewrite <- Htuple. simpl. now rewrite Hprof, HCP. }
      rewrite turmas_with_check.
      now apply (turmas_policy_owner d P _ _ Hd HP Hr).
  - rewrite Hids. now destruct Hd.
  - intros t Ht. unfold ts in Ht. apply in_map_iff in Ht as (t0 & <- & Ht0).
    destruct Hd. destruct (turma_with_id (t_id C) t0); [rewrite Hprof|]; auto.
  - rewrite Hids. now destruct Hd.
Qed.

Lemma owner_delete :
  let d' :=
    delete_turmas (api_caller (Some (p_user_id P))) (turma_with_id (t_id C))
      d in
  snd d' = 1 /\ ~ In (t_id C) (map t_id (turmas (fst d'))).
Proof using Hd HP HC HCP.
  set (owner := api_caller (Some (p_user_id P))).
  assert (Hv : turmas_delete_target owner (turma_with_id (t_id C)) d C
               = true).
  { unfold turmas_delete_target, passes_using, owner.
    rewrite (proj2 (policy_of_C _ DELETE ltac:(discriminate)) eq_refl).
    apply N.eqb_refl. }
  simpl. split.
  - rewrite (filter_single t_id _ _ C); auto.
    + now destruct Hd.
    + intros t Ht H. apply andb_true_iff in H as [_ H]. now apply N.eqb_eq.
  - intros Hin. apply in_map_iff in Hin as (t & Hid & Ht).
    apply filter_In in Ht as [Ht Hkeep].
    assert (t = C) by (apply only_C; auto; now apply N.eqb_eq).
    subst. fold owner in Hkeep. now rewrite Hv in Hkeep.
Qed.

(** Another identity. *)
Variable uid : option UUID.
Hypothesis Hother : uid <> Some (p_user_id P).

Lemma other_select where_ :
  ~ In C (select_turmas (api_caller uid) where_ d).
Proof using Hd HP HCP Hother.
  unfold select_turmas, passes_using. intros H.
  apply filter_In in H as [_ H].
  now rewrite policy_of_C_other in H.
Qed.

Lemma other_select_none :
  select_turmas (api_caller uid) (turma_with_id (t_id C)) d = [].
Proof using Hd HP HC HCP Hother.
  unfold select_turmas, passes_using. apply filter_none. intros t Ht.
  destruct (turma_with_id (t_id C) t) eqn:E; [|apply andb_false_r].
  rewrite (only_C t Ht E). now rewrite policy_of_C_other.
Qed.

Lemma other_update_target where_ :
  turmas_update_target (api_caller uid) where_ d C = false.
Proof using Hd HP HCP Hother.
  unfold turmas_update_target, passes_using.
  now rewrite policy_of_C_other.
Qed.

Lemma other_delete_target where_ :
  turmas_delete_target (api_caller uid) where_ d C = false.
Proof using Hd HP HCP Hother.
  unfold turmas_delete_target, passes_using.
  now rewrite policy_of_C_other.
Qed.

Lemma other_update_none now assign :
  update_turmas (api_caller uid) now (turma_with_id (t_id C)) assign d
  = Ok (d, 0).
Proof using Hd HP HC HCP Hother.
  apply update_turmas_nothing; auto. intros t Ht.
  destruct (turma_with_id (t_id C) t) eqn:E.
  - rewrite (only_C t Ht E). apply other_update_target.
  - unfold turmas_update_target. now rewrite E, andb_false_r.
Qed.

Lemma other_update_keeps now where_ assign d' n :
  update_turmas (api_caller uid) now where_ assign d = Ok (d', n) ->
  In C (turmas d').
Proof using Hd HP HC HCP Hother.
  intros H. apply update_turmas_Ok in H as (ts & Hts & _ & _ & _ & -> & _).
  destruct (for_each_row_In_old _ _ _ _ C Hts HC) as (t' & Ht' & H).
  rewrite other_update_target in H. now subst.
Qed.

Lemma other_delete_none :
  delete_turmas (api_caller uid) (turma_with_id (t_id C)) d = (d, 0).
Proof using Hd HP HC HCP Hother.
  assert (Hno : forall t, In t (turmas d) ->
            turmas_delete_target (api_caller uid) (turma_with_id (t_id C))
              d t = false).
  { intros t Ht. destruct (turma_with_id (t_id C) t) eqn:E.
    - rewrite (only_C t Ht E). apply other_delete_target.
    - unfold turmas_delete_target. now rewrite E, andb_false_r. }
  unfold delete_turmas.
  now rewrite remove_turmas_nothing, filter_none.
Qed.

Lemma other_delete_keeps where_ :
  In C (turmas (fst (delete_turmas (api_caller uid) where_ d))).
Proof using Hd HP HC HCP Hother.
  simpl. apply filter_In. split; [assumption|].
  now rewrite other_delete_target.
Qed.

End OneClass.

(** C1. For a profile [P] and a class [C] of it in a reachable state: the
    identity of [P] reads [C], updates it (one row) and deletes it (one
    row); any other caller reads no row of [C] and its [UPDATE] and
    [DELETE] of [C] affect zero rows and leave [C] in place; and what a
    caller reads of [turmas] is a function of the classes of its own
    chain alone. *)
Theorem owner_only (d : db) (P : profile) (C : turma) :
  reachable d -> In P (profiles d) -> In C (turmas d) ->
  t_professor_id C = p_id P ->
  let owner := api_caller (Some (p_user_id P)) in
  let this := turma_with_id (t_id C) in
  select_turmas owner this d = [C]
  /\ (forall now assign (C' : turma),
        turmas_constraints (update_updated_at_column now (assign C)) = Ok C' ->
        t_id C' = t_id C -> t_professor_id C' = t_professor_id C ->
        update_turmas owner now this assign d
        = Ok (with_turmas (map (fun t => if this t then C' else t) (turmas d))
                d, 1))
  /\ snd (delete_turmas owner this d) = 1
  /\ ~ In (t_id C) (map t_id (turmas (fst (delete_turmas owner this d))))
  /\ (forall uid, uid <> Some (p_user_id P) ->
        (forall where_, ~ In C (select_turmas (api_caller uid) where_ d))
        /\ select_turmas (api_caller uid) this d = []
        /\ (forall now assign,
              update_turmas (api_caller uid) now this assign d = Ok (d, 0))
        /\ (forall now where_ assign d' n,
              update_turmas (api_caller uid) now where_ assign d = Ok (d', n) ->
              In C (turmas d'))
        /\ delete_turmas (api_caller uid) this d = (d, 0)
        /\ (forall where_,
              In C (turmas (fst (delete_turmas (api_caller uid) where_ d)))))
  /\ (forall uid where_ d2,
        own_turmas d2 uid = own_turmas d uid ->
        select_turmas (api_caller uid) where_ d2
        = select_turmas (api_caller uid) where_ d).
Proof.
  intros Hreach HP HC HCP owner this.
  destruct (reachable_consistent d Hreach) as [Hd _].
  split; [now apply owner_select|].
  split; [intros; now apply owner_update|].
  destruct (owner_delete d P C Hd HP HC HCP) as [Hn Hgone].
  split; [exact Hn|]. split; [exact Hgone|]. split.
  - intros uid Hother. repeat split; intros.
    + now apply (other_select d P C).
    + now apply (other_select_none d P C).
    + now apply (other_update_none d P C).
    + eapply (other_update_keeps d P C); eauto.
    + now apply (other_delete_none d P C).
    + now apply (other_delete_keeps d P C).
  - intros uid where_ d2 H. rewrite !select_turmas_own. now rewrite H.
Qed.

Lemma owner_only_witness :
  reachable Scenario.school
  /\ In Scenario.P_ana (profiles Scenario.school)
  /\ In Scenario.T_5A (turmas Scenario.school)
  /\ select_turmas (api_caller (Some 1%N)) (turma_with_id 201%N)
       Scenario.school = [Scenario.T_5A]
  /\ select_turmas (api_caller (Some 2%N)) (turma_with_id 201%N)
       Scenario.school = [].
Proof.
  assert (Hr : reachable Scenario.school)
    by (exists Scenario.history; reflexivity).
  assert (HP : In Scenario.P_ana (profiles Scenario.school))
    by (vm_compute; auto).
  assert (HC : In Scenario.T_5A (turmas Scenario.school))
    by (vm_compute; auto).
  destruct (owner_only Scenario.school Scenario.P_ana Scenario.T_5A
              Hr HP HC eq_refl) as (Hsel & _ & _ & _ & Hother & _).
  destruct (Hother (Some 2%N) ltac:(discriminate)) as (_ & Hnone & _).
  repeat split; assumption.
Defined.

End TurmasAccess.

(** ** Assignments: the two-hop policy *)
Module AtividadesAccess.
Import Sql SqlFacts PolicyFacts StatementFacts Invariants Ownership Targeted.

Section OneAssignment.
Variables (d : db) (P : profile) (C : turma) (A : atividade).
Hypothesis Hd : constraints_hold d.
Hypothesis HP : In P (profiles d).
Hypothesis HC : In C (turmas d).
Hypothesis HA : In A (atividades d).
Hypothesis HCP : t_professor_id C = p_id P.
Hypothesis HAC : a_turma_id A = t_id C.

(** The expression of the four policies, on any tuple of the class [C]. *)
Lemma policy_of_class (r : atividades_tuple) uid :
  a_turma_id r = Some (t_id C) ->
  holds (sql_in (a_turma_id r) (own_turma_ids d uid)) = true <->
  uid = Some (p_user_id P).
Proof using Hd HP HC HCP.
  intros Hr. now apply (atividades_policy_owner d P C).
Qed.

Lemma tuple_of_A : a_turma_id (atividade_tuple A) = Some (t_id C).
Proof using HAC. simpl. now rewrite HAC. Qed.

Lemma using_of_A uid (cmd : command) :
  cmd <> INSERT ->
  rls_using (atividades_policies d uid) cmd (atividade_tuple A) = true <->
  uid = Some (p_user_id P).
Proof using Hd HP HC HCP HAC.
  intros Hcmd. rewrite atividades_using.
  destruct cmd; try congruence; apply policy_of_class, tuple_of_A.
Qed.

Lemma using_of_A_other uid (cmd : command) :
  uid <> Some (p_user_id P) ->
  rls_using (atividades_policies d uid) cmd (atividade_tuple A) = false.
Proof using Hd HP HC HCP HAC.
  intros Hne. destruct (rls_using _ cmd _) eqn:E; [|reflexivity].
  destruct cmd.
  - apply using_of_A in E; congruence.
  - now rewrite atividades_using in E.
  - apply using_of_A in E; congruence.
  - apply using_of_A in E; congruence.
Qed.

Lemma with_check_of_class uid (cmd : command) (r : atividades_tuple) :
  a_turma_id r = Some (t_id C) ->
  rls_with_check (atividades_policies d uid) cmd r = true <->
  uid = Some (p_user_id P).
Proof using Hd HP HC HCP.
  intros Hr. rewrite atividades_with_check. now apply policy_of_class.
Qed.

Lemma only_A a :
  In a (atividades d) -> atividade_with_id (a_id A) a = true -> a = A.
Proof using Hd HA.
  destruct Hd. now apply atividade_with_id_In.
Qed.

(** An [INSERT] into the class [C] gets through for its owner only. *)
Lemma insert_by_owner_only uid now gen v d' :
  a_turma_id v = Given (Some (t_id C)) ->
  insert_atividades (api_caller uid) now gen v d = Ok d' ->
  uid = Some (p_user_id P).
Proof using Hd HP HC HCP.
  intros Hv H.
  apply insert_atividades_Ok in H as (row & Hrow & Hck & _).
  unfold passes_with_check in Hck.
  apply (with_check_of_class uid INSERT (atividade_tuple row)); auto.
  rewrite Hrow. simpl. now rewrite Hv.
Qed.

Lemma insert_by_other uid now gen v :
  a_turma_id v = Given (Some (t_id C)) ->
  uid <> Some (p_user_id P) ->
  insert_atividades (api_caller uid) now gen v d
  = Err (RlsViolation "atividades").
Proof using Hd HP HC HCP.
  intros Hv Hne. unfold insert_atividades, passes_with_check.
  destruct (rls_with_check _ _ _) eqn:E; [|reflexivity].
  apply with_check_of_class in E; [congruence|]. simpl. now rewrite Hv.
Qed.

Lemma atividade_owner_select :
  select_atividades (api_caller (Some (p_user_id P)))
    (atividade_with_id (a_id A)) d = [A].
Proof using Hd HP HC HA HCP HAC.
  unfold select_atividades, passes_using.
  apply (filter_single a_id); auto.
  - now destruct Hd.
  - rewrite (proj2 (using_of_A _ SELECT ltac:(discriminate)) eq_refl).
    apply N.eqb_refl.
  - intros a Ha H. apply andb_true_iff in H as [_ H]. now apply N.eqb_eq.
Qed.

Lemma atividade_owner_update_target a :
  In a (atividades d) ->
  atividades_update_target (api_caller (Some (p_user_id P)))
    (atividade_with_id (a_id A)) d a
  = atividade_with_id (a_id A) a.
Proof using Hd HP HC HA HCP HAC.
  intros Ha. unfold atividades_update_target, passes_using.
  destruct (atividade_with_id (a_id A) a) eqn:E; [|apply andb_false_r].
  rewrite (only_A a Ha E).
  now rewrite (proj2 (using_of_A _ UPDATE ltac:(discriminate)) eq_refl).
Qed.

Lemma atividade_owner_update now assign (A' : atividade) :
  atividades_constraints (update_updated_at_column now (assign A)) = Ok A' ->
  a_id A' = a_id A -> a_turma_id A' = a_turma_id A ->
  update_atividades (api_caller (Some (p_user_id P))) now
    (atividade_with_id (a_id A)) assign d
  = Ok (with_atividades
          (map (fun a => if atividade_with_id (a_id A) a then A' else a)
             (atividades d)) d, 1).
Proof using Hd HP HC HA HCP HAC.
  intros HA' Hid Hturma.
  set (owner := api_caller (Some (p_user_id P))).
  set (l := map (fun a => if atividade_with_id (a_id A) a then A' else a)
              (atividades d)).
  assert (Hids : map a_id l = map a_id (atividades d)).
  { unfold l. rewrite map_map. apply map_ext_in. intros a Ha.
    destruct (atividade_with_id (a_id A) a) eqn:E; [|reflexivity].
    apply N.eqb_eq in E. now rewrite Hid. }
  assert (Hcount :
    List.filter
      (atividades_update_target owner (atividade_with_id (a_id A)) d)
      (atividades d) = [A]).
  { apply (filter_single a_id); auto.
    - now destruct Hd.
    - rewrite atividade_owner_update_target by assumption. apply N.eqb_refl.
    - intros a Ha H. rewrite atividade_owner_update_target in H by assumption.
      now apply N.eqb_eq. }
  rewrite (update_atividades_commits owner now _ assign d l).
  - now rewrite Hcount.
  - rewrite (for_each_row_replace _ _ (fun _ => A')).
    + f_equal. apply map_ext_in. intros a Ha.
      now rewrite atividade_owner_update_target.
    + intros a Ha Htarget. rewrite atividade_owner_update_target in Htarget by auto.
      rewrite (only_A a Ha Htarget). unfold atividades_update_row.
      pose proof (atividades_constraints_Ok _ _ HA') as [Htuple _].
      replace (passes_with_check _ _ _ _) with true; [exact HA'|].
      symmetry. unfold passes_with_check, owner.
      assert (Hr : a_turma_id (update_updated_at_column now (assign A))
                   = Some (t_id C)).
      { rewrite <- Htuple. simpl. now rewrite Hturma, HAC. }
      exact (proj2 (with_check_of_class _ UPDATE _ Hr) eq_refl).
  - rewrite Hids. now destruct Hd.
  - intros a Ha. unfold l in Ha. apply in_map_iff in Ha as (a0 & <- & Ha0).
    destruct Hd.
    destruct (atividade_with_id (a_id A) a0); [rewrite Hturma|]; auto.
Qed.

Lemma atividade_owner_delete :
  let r :=
    delete_atividades (api_caller (Some (p_user_id P)))
      (atividade_with_id (a_id A)) d in
  snd r = 1 /\ ~ In (a_id A) (map a_id (atividades (fst r))).
Proof using Hd HP HC HA HCP HAC.
  set (owner := api_caller (Some (p_user_id P))).
  assert (Hv : atividades_delete_target owner (atividade_with_id (a_id A)) d A
               = true).
  { unfold atividades_delete_target, passes_using, owner.
    rewrite (proj2 (using_of_A _ DELETE ltac:(discriminate)) eq_refl).
    apply N.eqb_refl. }
  simpl. split.
  - rewrite (filter_single a_id _ _ A); auto.
    + now destruct Hd.
    + intros a Ha H. apply andb_true_iff in H as [_ H]. now apply N.eqb_eq.
  - intros Hin. apply in_map_iff in Hin as (a & Hid & Ha).
    apply filter_In in Ha as [Ha Hkeep].
    assert (a = A) by (apply only_A; auto; now apply N.eqb_eq).
    subst. fold owner in Hkeep. now rewrite Hv in Hkeep.
Qed.

(** Another identity. *)
Variable uid : option UUID.
Hypothesis Hother : uid <> Some (p_user_id P).

Lemma atividade_other_select where_ :
  ~ In A (select_atividades (api_caller uid) where_ d).
Proof using Hd HP HC HCP HAC Hother.
  unfold select_atividades, passes_using. intros H.
  apply filter_In in H as [_ H].
  now rewrite using_of_A_other in H.
Qed.

Lemma atividade_other_select_none :
  select_atividades (api_caller uid) (atividade_with_id (a_id A)) d = [].
Proof using Hd HP HC HA HCP HAC Hother.
  unfold select_atividades, passes_using. apply filter_none. intros a Ha.
  destruct (atividade_with_id (a_id A) a) eqn:E; [|apply andb_false_r].
  rewrite (only_A a Ha E). now rewrite using_of_A_other.
Qed.

Lemma atividade_other_update_none now assign :
  update_atividades (api_caller uid) now (atividade_with_id (a_id A)) assign d
  = Ok (d, 0).
Proof using Hd HP HC HA HCP HAC Hother.
  apply update_atividades_nothing; auto. intros a Ha.
  unfold atividades_update_target, passes_using.
  destruct (atividade_with_id (a_id A) a) eqn:E; [|apply andb_false_r].
  rewrite (only_A a Ha E). now rewrite using_of_A_other.
Qed.

Lemma atividade_other_delete_none :
  delete_atividades (api_caller uid) (atividade_with_id (a_id A)) d = (d, 0).
Proof using Hd HP HC HA HCP HAC Hother.
  assert (Hno : forall a, In a (atividades d) ->
            atividades_delete_target (api_caller uid)
              (atividade_with_id (a_id A)) d a = false).
  { intros a Ha. unfold atividades_delete_target, passes_using.
    destruct (atividade_with_id (a_id A) a) eqn:E; [|apply andb_false_r].
    rewrite (only_A a Ha E). now rewrite using_of_A_other. }
  unfold delete_atividades.
  now rewrite remove_atividades_nothing, filter_none.
Qed.

End OneAssignment.

(** The class and the profile an assignment hangs from. *)
Lemma chain_exists (d : db) (A : atividade) :
  constraints_hold d -> In A (atividades d) ->
  exists C P, In C (turmas d) /\ In P (profiles d)
              /\ a_turma_id A = t_id C /\ t_professor_id C = p_id P.
Proof.
  intros [] HA.
  destruct (proj1 (in_map_iff _ _ _) (atividades_turma_id_fkey0 A HA))
    as (C & HCid & HC).
  destruct (proj1 (in_map_iff _ _ _) (turmas_professor_id_fkey0 C HC))
    as (P & HPid & HP).
  exists C, P. repeat split; auto.
Qed.

(** C2. For an assignment [A] of a reachable state, with [C] its class and
    [P] the profile of [C]: each of the [SELECT], [INSERT], [UPDATE] and
    [DELETE] policies lets a caller through exactly when the caller is the
    identity of [P]; that identity reads, updates and deletes [A], and
    another one selecting [A] gets an empty result, updates and deletes
    zero rows, and is refused the insert. *)
Theorem two_hop (d : db) (A : atividade) :
  reachable d -> In A (atividades d) ->
  exists (C : turma) (P : profile),
    In C (turmas d) /\ In P (profiles d)
    /\ a_turma_id A = t_id C /\ t_professor_id C = p_id P
    /\ forall uid,
         let who := api_caller uid in
         let this := atividade_with_id (a_id A) in
         (rls_using (atividades_policies d uid) SELECT (atividade_tuple A)
            = true <-> uid = Some (p_user_id P))
         /\ (forall r, a_turma_id r = Some (t_id C) ->
               rls_with_check (atividades_policies d uid) INSERT r = true
               <-> uid = Some (p_user_id P))
         /\ (rls_using (atividades_policies d uid) UPDATE (atividade_tuple A)
               = true <-> uid = Some (p_user_id P))
         /\ (forall r, a_turma_id r = Some (t_id C) ->
               rls_with_check (atividades_policies d uid) UPDATE r = true
               <-> uid = Some (p_user_id P))
         /\ (rls_using (atividades_policies d uid) DELETE (atividade_tuple A)
               = true <-> uid = Some (p_user_id P))
         /\ (uid = Some (p_user_id P) ->
               select_atividades who this d = [A]
               /\ (forall now assign (A' : atividade),
                     atividades_constraints
                       (update_updated_at_column now (assign A)) = Ok A' ->
                     a_id A' = a_id A -> a_turma_id A' = a_turma_id A ->
                     update_atividades who now this assign d
                     = Ok (with_atividades
                             (map (fun a => if this a then A' else a)
                                (atividades d)) d, 1))
               /\ snd (delete_atividades who this d) = 1
               /\ ~ In (a_id A)
                    (map a_id (atividades (fst (delete_atividades who this d)))))
         /\ (uid <> Some (p_user_id P) ->
               select_atividades who this d = []
               /\ (forall where_, ~ In A (select_atividades who where_ d))
               /\ (forall now gen v,
                     a_turma_id v = Given (Some (t_id C)) ->
                     insert_atividades who now gen v d
                     = Err (RlsViolation "atividades"))
               /\ (forall now assign,
                     update_atividades who now this assign d = Ok (d, 0))
               /\ delete_atividades who this d = (d, 0)).
Proof.
  intros Hreach HA.
  destruct (reachable_consistent d Hreach) as [Hd _].
  destruct (chain_exists d A Hd HA) as (C & P & HC & HP & HAC & HCP).
  exists C, P. repeat (split; [assumption|]).
  intros uid who this.
  split; [apply (using_of_A d P C A); auto; discriminate|].
  split; [intros r Hr; now apply (with_check_of_class d P C)|].
  split; [apply (using_of_A d P C A); auto; discriminate|].
  split; [intros r Hr; now apply (with_check_of_class d P C)|].
  split; [apply (using_of_A d P C A); auto; discriminate|].
  split.
  - intros ->.
    destruct (atividade_owner_delete d P C A Hd HP HC HA HCP HAC) as [Hn Hgone].
    split; [now apply (atividade_owner_select d P C)|].
    split; [intros; now apply (atividade_owner_update d P C)|].
    split; assumption.
  - intros Hother.
    split; [now apply (atividade_other_select_none d P C)|].
    split; [intros; now apply (atividade_other_select d P C)|].
    split; [intros; now apply (insert_by_other d P C)|].
    split; [intros; now apply (atividade_other_update_none d P C)|].
    now apply (atividade_other_delete_none d P C).
Qed.

Lemma two_hop_witness :
  reachable Scenario.school
  /\ In Scenario.A_prova (atividades Scenario.school)
  /\ exists (C : turma) (P : profile),
       In C (turmas Scenario.school) /\ In P (profiles Scenario.school)
       /\ a_turma_id Scenario.A_prova = t_id C
       /\ t_professor_id C = p_id P
       /\ (rls_using (atividades_policies Scenario.school (Some 2%N)) SELECT
             (atividade_tuple Scenario.A_prova) = true
           <-> Some 2%N = Some (p_user_id P)).
Proof.
  assert (Hr : reachable Scenario.school)
    by (exists Scenario.history; reflexivity).
  assert (HA : In Scenario.A_prova (atividades Scenario.school))
    by (vm_compute; auto).
  destruct (two_hop Scenario.school Scenario.A_prova Hr HA)
    as (C & P & HC & HP & HAC & HCP & H).
  destruct (H (Some 2%N)) as (Hsel & _).
  repeat split; try assumption.
  exists C, P. repeat split; try assumption; apply Hsel.
Defined.

End AtividadesAccess.

(** ** The provisioning trigger *)
Module Provisioning.
Import Sql SqlFacts PolicyFacts StatementFacts Invariants Targeted.

Lemma full_name_present (m : gmap string jsonb_value) (s : string) :
  m !! "full_name" = Some (JString s) ->
  json_get_text (Some m) "full_name" = Some s.
Proof. intros H. simpl. now rewrite H. Qed.

Lemma full_name_absent (j : option (gmap string jsonb_value)) :
  (j = None \/ exists m, j = Some m /\ m !! "full_name" = None) ->
  json_get_text j "full_name" = None.
Proof.
  intros [-> | (m & -> & H)]; simpl; [reflexivity|]. now rewrite H.
Qed.

(** The profile of an identity, in a consistent state, is the one row of
    [profiles] that refers to it. *)
Lemma one_profile d (u : auth_users_row) :
  consistent d -> In u (auth_users d) ->
  exists p, List.filter (fun p => N.eqb (p_user_id p) (u_id u)) (profiles d)
            = [p].
Proof.
  intros [[] Hprov] Hu.
  specialize (Hprov u Hu). apply in_map_iff in Hprov as (p & Hp & Hin).
  exists p. apply (filter_single p_user_id); auto.
  - apply N.eqb_eq. exact Hp.
  - intros y _ Hy. apply N.eqb_eq in Hy. now rewrite Hp.
Qed.

Lemma trigger_effect now gen NEW d d' :
  insert_auth_users now gen NEW d = Ok d' ->
  exists row : profile,
    auth_users d' = auth_users d ++ [NEW]
    /\ profiles d' = profiles d ++ [row]
    /\ turmas d' = turmas d /\ atividades d' = atividades d
    /\ p_user_id row = u_id NEW
    /\ p_nome row =
         COALESCE (json_get_text (u_raw_user_meta_data NEW) "full_name")
           "Professor"
    /\ u_email NEW = Some (p_email row)
    /\ List.filter (fun p => N.eqb (p_user_id p) (u_id NEW)) (profiles d')
       = [row].
Proof.
  intros H.
  apply insert_auth_users_Ok in H as (row & Hrow & Hu & Hid & Huid & ->).
  assert (Huser : p_user_id row = u_id NEW).
  { apply (f_equal p_user_id) in Hrow. simpl in Hrow. now inversion Hrow. }
  exists row. simpl. repeat split; auto.
  - apply (f_equal p_nome) in Hrow. simpl in Hrow. now inversion Hrow.
  - apply (f_equal p_email) in Hrow. simpl in Hrow. now symmetry.
  - rewrite List.filter_app. simpl. rewrite Huser, N.eqb_refl.
    rewrite filter_none; [reflexivity|].
    intros p Hp. apply N.eqb_neq. intros Heq. apply Huid.
    rewrite Huser, <- Heq. now apply in_map.
Qed.

Lemma trigger_runs now gen NEW d :
  constraints_hold d ->
  ~ In (u_id NEW) (map u_id (auth_users d)) ->
  ~ In gen (map p_id (profiles d)) ->
  u_email NEW <> None ->
  exists d', insert_auth_users now gen NEW d = Ok d'.
Proof.
  intros [] Hu Hgen Hemail.
  destruct (u_email NEW) as [e|] eqn:He; [|congruence].
  assert (Hfresh : ~ In (u_id NEW) (map p_user_id (profiles d))).
  { intros Hin. apply in_map_iff in Hin as (p & Hp & Hin).
    apply Hu. rewrite <- Hp. auto. }
  unfold insert_auth_users, handle_new_user, insert_profiles.
  rewrite (proj2 (mem_false _ _) Hu). simpl.
  unfold profiles_constraints, profiles_defaults, handle_new_user_values.
  simpl. rewrite He. simpl.
  rewrite (proj2 (mem_false _ _) Hgen). simpl.
  rewrite (proj2 (mem_false _ _) Hfresh). simpl.
  assert (Hin : mem (u_id NEW) (map u_id (auth_users d ++ [NEW])) = true).
  { apply mem_In. rewrite map_app. apply in_app_iff. right. now left. }
  rewrite Hin. simpl. eauto.
Qed.

Lemma trigger_not_twice now gen NEW d :
  In (u_id NEW) (map u_id (auth_users d)) ->
  insert_auth_users now gen NEW d
  = Err (ConstraintViolation (PrimaryKeyC "users")).
Proof.
  intros Hin. unfold insert_auth_users.
  now rewrite (proj2 (mem_In _ _) Hin).
Qed.

(** An identity that has no email cannot be created: the insert of the
    trigger violates [NOT NULL], and the transaction with it. *)
Lemma trigger_needs_email now gen NEW d :
  ~ In (u_id NEW) (map u_id (auth_users d)) ->
  u_email NEW = None ->
  insert_auth_users now gen NEW d
  = Err (ConstraintViolation (NotNullC "profiles" "email")).
Proof.
  intros Hu He. unfold insert_auth_users, handle_new_user, insert_profiles.
  rewrite (proj2 (mem_false _ _) Hu). simpl.
  unfold profiles_constraints, profiles_defaults, handle_new_user_values.
  simpl. now rewrite He.
Qed.

(** C3. In a reachable state every identity has exactly one profile.
    Creating an identity adds, in the same transaction, exactly one profile
    row: its [user_id] is the new identity, its [nome] the [full_name] of
    the metadata when there is one and ['Professor'] otherwise, its [email]
    the one of the identity.  The creation goes through for a new identity
    that has an email; when it fails nothing is kept; and it fails, without
    running the trigger, for an identity that already exists. *)
Theorem handle_new_user_provisions (d : db) (now : timestamptz) (gen : UUID)
  (NEW : auth_users_row) :
  reachable d ->
  let tx := {| tx_now := now; tx_gen := gen;
               tx_statement := CreateIdentity NEW |} in
  (forall u, In u (auth_users d) ->
     exists p, List.filter (fun p => N.eqb (p_user_id p) (u_id u))
                 (profiles d) = [p])
  /\ (forall d', insert_auth_users now gen NEW d = Ok d' ->
        commit d tx = d'
        /\ exists row : profile,
             auth_users d' = auth_users d ++ [NEW]
             /\ profiles d' = profiles d ++ [row]
             /\ turmas d' = turmas d /\ atividades d' = atividades d
             /\ List.filter (fun p => N.eqb (p_user_id p) (u_id NEW))
                  (profiles d') = [row]
             /\ p_user_id row = u_id NEW
             /\ u_email NEW = Some (p_email row)
             /\ (forall m full_name,
                   u_raw_user_meta_data NEW = Some m ->
                   m !! "full_name" = Some (JString full_name) ->
                   p_nome row = full_name)
             /\ (u_raw_user_meta_data NEW = None
                 \/ (exists m, u_raw_user_meta_data NEW = Some m
                               /\ m !! "full_name" = None) ->
                 p_nome row = "Professor"))
  /\ (~ In (u_id NEW) (map u_id (auth_users d)) ->
      ~ In gen (map p_id (profiles d)) ->
      u_email NEW <> None ->
      exists d', insert_auth_users now gen NEW d = Ok d')
  /\ (forall e, insert_auth_users now gen NEW d = Err e -> commit d tx = d)
  /\ (In (u_id NEW) (map u_id (auth_users d)) ->
      insert_auth_users now gen NEW d
      = Err (ConstraintViolation (PrimaryKeyC "users")))
  /\ (forall u, In u (auth_users (commit d tx)) ->
        exists p, List.filter (fun p => N.eqb (p_user_id p) (u_id u))
                    (profiles (commit d tx)) = [p]).
Proof.
  intros Hreach tx. pose proof (reachable_consistent d Hreach) as Hd.
  split; [intros u Hu; now apply one_profile|].
  split.
  { intros d' H. split; [unfold commit; simpl; now rewrite H|].
    destruct (trigger_effect _ _ _ _ _ H)
      as (row & ? & ? & ? & ? & Huser & Hnome & Hemail & Hone).
    exists row. repeat (split; [assumption|]). split.
    - intros m full_name Hm Hfull.
      now rewrite Hnome, Hm, (full_name_present m full_name Hfull).
    - intros Habsent. now rewrite Hnome, (full_name_absent _ Habsent). }
  split; [destruct Hd; now apply trigger_runs|].
  split; [intros e H; unfold commit; simpl; now rewrite H|].
  split; [apply trigger_not_twice|].
  intros u Hu. apply one_profile; [|assumption].
  apply reachable_consistent. now apply reachable_commit.
Qed.

Lemma handle_new_user_provisions_witness :
  reachable empty_db
  /\ exists d', insert_auth_users 10%Z 101%N Scenario.ana empty_db = Ok d'.
Proof.
  assert (Hr : reachable empty_db) by (exists []; reflexivity).
  split; [assumption|].
  destruct (handle_new_user_provisions empty_db 10%Z 101%N Scenario.ana Hr)
    as (_ & _ & Hruns & _).
  apply Hruns; simpl; [tauto | tauto | discriminate].
Defined.

End Provisioning.

(** ** Cascading deletes *)
Module Cascades.
Import Sql SqlFacts PolicyFacts StatementFacts Invariants Ownership Targeted.

(** A removed row leaves no row of its key behind. *)
Lemma removed_key {A} (key : A -> UUID) (victim : A -> bool) (l : list A)
  (x : A) :
  List.NoDup (map key l) -> In x l -> victim x = true ->
  ~ In (key x) (map key (List.filter (fun y => negb (victim y)) l)).
Proof.
  intros Hnd Hx Hv Hin. apply in_map_iff in Hin as (y & Hkey & Hy).
  apply filter_In in Hy as [Hy Hkeep].
  rewrite (NoDup_map_In_inj key l y x Hnd Hy Hx Hkey) in Hkeep.
  now rewrite Hv in Hkeep.
Qed.

(** The children of a removed parent are removed. *)
Lemma children_removed {P C} (kp : P -> UUID) (fk : C -> UUID)
  (victim : P -> bool) (parents : list P) (children : list C) (p : P) :
  In p parents -> victim p = true ->
  forall c,
    In c (List.filter
            (fun c => negb (mem (fk c) (map kp (List.filter victim parents))))
            children) ->
    fk c <> kp p.
Proof.
  intros Hp Hv c Hc Heq. apply filter_In in Hc as [_ Hkeep].
  apply negb_true_iff, mem_false in Hkeep. apply Hkeep.
  rewrite Heq. apply in_map. apply filter_In. now split.
Qed.

(** The children of the parents that stay, stay. *)
Lemma children_kept {P C} (kp : P -> UUID) (fk : C -> UUID)
  (victim : P -> bool) (parents : list P) (children : list C) (c : C) :
  In c children ->
  (forall p, In p parents -> victim p = true -> fk c <> kp p) ->
  In c (List.filter
          (fun c => negb (mem (fk c) (map kp (List.filter victim parents))))
          children).
Proof.
  intros Hc Hfree. apply filter_In. split; [assumption|].
  apply negb_true_iff, mem_false. intros Hin.
  apply in_map_iff in Hin as (p & Hkey & Hp).
  apply filter_In in Hp as [Hp Hv]. now apply (Hfree p Hp Hv).
Qed.

(** C4. In a reachable state no assignment refers to a class that does
    not exist.  A [DELETE] on [turmas] is one transaction that removes,
    with every class it deletes, all the assignments of that class and no
    other assignment, so that the state it leaves has no orphan either;
    and the owner's [DELETE ... WHERE id = C.id] does delete [C]. *)
Theorem class_delete_cascades (d : db) :
  reachable d ->
  (forall a, In a (atividades d) -> In (a_turma_id a) (map t_id (turmas d)))
  /\ forall uid where_,
       let who := api_caller uid in
       let d' := fst (delete_turmas who where_ d) in
       (forall now gen,
          commit d {| tx_now := now; tx_gen := gen;
                      tx_statement := DeleteTurmas uid where_ |} = d')
       /\ (forall C, In C (turmas d) ->
             turmas_delete_target who where_ d C = true ->
             ~ In (t_id C) (map t_id (turmas d'))
             /\ forall a, In a (atividades d') -> a_turma_id a <> t_id C)
       /\ (forall a, In a (atividades d) ->
             (forall C, In C (turmas d) ->
                turmas_delete_target who where_ d C = true ->
                a_turma_id a <> t_id C) ->
             In a (atividades d'))
       /\ (forall a, In a (atividades d') ->
             In (a_turma_id a) (map t_id (turmas d')))
       /\ (forall (C : turma) (P : profile),
             In C (turmas d) -> In P (profiles d) ->
             t_professor_id C = p_id P -> uid = Some (p_user_id P) ->
             where_ C = true ->
             turmas_delete_target who where_ d C = true).
Proof.
  intros Hreach. destruct (reachable_consistent d Hreach) as [Hd _].
  split; [now destruct Hd|].
  intros uid where_ who d'.
  split; [reflexivity|]. split; [|split; [|split]].
  - intros C HC Hv. split.
    + destruct Hd. now apply removed_key.
    + now apply (children_removed t_id a_turma_id _ (turmas d)).
  - intros a Ha Hfree. now apply (children_kept t_id a_turma_id).
  - now destruct (remove_turmas_constraints
                    (turmas_delete_target who where_ d) d Hd).
  - intros C P HC HP HCP -> Hw. unfold turmas_delete_target, who, passes_using.
    rewrite Hw, andb_true_r.
    apply (TurmasAccess.policy_of_C d P C); auto; discriminate.
Qed.

Lemma class_delete_cascades_witness :
  reachable Scenario.school
  /\ (forall a, In a (atividades Scenario.school) ->
        In (a_turma_id a) (map t_id (turmas Scenario.school)))
  /\ atividades
       (fst (delete_turmas (api_caller (Some 1%N)) (turma_with_id 201%N)
               Scenario.school)) = [].
Proof.
  assert (Hr : reachable Scenario.school)
    by (exists Scenario.history; reflexivity).
  destruct (class_delete_cascades Scenario.school Hr) as [Hno _].
  split; [exact Hr|]. split; [exact Hno | reflexivity].
Defined.

(** C5. Deleting an identity is one transaction after which the identity
    is gone, and with it its profile, every class of that profile and
    every assignment of those classes: the ownership chain of the identity
    is empty, and the state is consistent. *)
Theorem identity_delete_cascades (d : db) (id : UUID) :
  reachable d ->
  let d' := delete_auth_users id d in
  (forall now gen,
     commit d {| tx_now := now; tx_gen := gen;
                 tx_statement := DeleteIdentity id |} = d')
  /\ ~ In id (map u_id (auth_users d'))
  /\ (forall p, In p (profiles d') -> p_user_id p <> id)
  /\ (forall P, In P (profiles d) -> p_user_id P = id ->
        ~ In (p_id P) (map p_id (profiles d'))
        /\ forall C, In C (turmas d) -> t_professor_id C = p_id P ->
             ~ In (t_id C) (map t_id (turmas d'))
             /\ forall A, In A (atividades d) -> a_turma_id A = t_id C ->
                  ~ In (a_id A) (map a_id (atividades d')))
  /\ own_profiles d' (Some id) = []
  /\ own_turmas d' (Some id) = []
  /\ own_atividades d' (Some id) = []
  /\ consistent d'.
Proof.
  intros Hreach d'. pose proof (reachable_consistent d Hreach) as [Hd Hprov].
  set (gone_users := List.filter (fun u => N.eqb (u_id u) id) (auth_users d)).
  set (victim_p := fun p : profile => mem (p_user_id p) (map u_id gone_users)).
  set (gone_profiles := List.filter victim_p (profiles d)).
  set (victim_t :=
         fun t : turma => mem (t_professor_id t) (map p_id gone_profiles)).
  set (gone_turmas := List.filter victim_t (turmas d)).
  set (victim_a :=
         fun a : atividade => mem (a_turma_id a) (map t_id gone_turmas)).
  assert (Hvp : forall P, In P (profiles d) ->
                  (victim_p P = true <-> p_user_id P = id)).
  { intros P HP. unfold victim_p. rewrite mem_In, in_map_iff. split.
    - intros (u & Hu & Hin). apply filter_In in Hin as [_ Hin].
      apply N.eqb_eq in Hin. congruence.
    - intros Hid. destruct Hd.
      destruct (proj1 (in_map_iff _ _ _) (profiles_user_id_fkey0 P HP))
        as (u & Hu & Hin).
      exists u. split; [assumption|]. apply filter_In. split; [assumption|].
      apply N.eqb_eq. congruence. }
  assert (Hprofiles : forall p, In p (profiles d') -> p_user_id p <> id).
  { intros p Hp Hid. simpl in Hp. apply filter_In in Hp as [Hp Hkeep].
    fold gone_users in Hkeep. fold (victim_p p) in Hkeep.
    apply Hvp in Hid; [|assumption]. now rewrite Hid in Hkeep. }
  assert (Hown : own_profiles d' (Some id) = []).
  { apply filter_none. intros p Hp.
    destruct (holds _) eqn:E; [|reflexivity].
    apply holds_sql_eq in E as (a & Ha1 & Ha2).
    inversion Ha1; inversion Ha2; subst.
    now destruct (Hprofiles p Hp). }
  assert (Hown_t : own_turmas d' (Some id) = []).
  { unfold own_turmas. rewrite Hown. now apply filter_none. }
  split; [reflexivity|]. split; [|split; [exact Hprofiles|split]].
  - simpl. intros Hin. apply in_map_iff in Hin as (u & Hu & Hin).
    apply filter_In in Hin as [_ Hkeep].
    apply negb_true_iff, N.eqb_neq in Hkeep. contradiction.
  - intros P HP Hid. apply Hvp in Hid; [|assumption].
    destruct Hd. split.
    + now apply (removed_key p_id victim_p).
    + intros C HC HCP.
      assert (HvC : victim_t C = true).
      { unfold victim_t. apply mem_In. rewrite HCP. apply in_map.
        apply filter_In. now split. }
      split.
      * now apply (removed_key t_id victim_t).
      * intros A HA HAC.
        assert (HvA : victim_a A = true).
        { unfold victim_a. apply mem_In. rewrite HAC. apply in_map.
          apply filter_In. now split. }
        now apply (removed_key a_id victim_a).
  - split; [exact Hown|]. split; [exact Hown_t|]. split.
    + unfold own_atividades. rewrite Hown_t. now apply filter_none.
    + split.
      * now apply remove_auth_users_constraints.
      * now apply remove_auth_users_provisioned.
Qed.

Lemma identity_delete_cascades_witness :
  reachable Scenario.school
  /\ profiles (delete_auth_users 1%N Scenario.school) = [Scenario.P_bia]
  /\ own_turmas (delete_auth_users 1%N Scenario.school) (Some 1%N) = [].
Proof.
  assert (Hr : reachable Scenario.school)
    by (exists Scenario.history; reflexivity).
  destruct (identity_delete_cascades Scenario.school 1%N Hr)
    as (_ & _ & _ & _ & _ & Hown & _).
  split; [exact Hr|]. split; [reflexivity | exact Hown].
Defined.

End Cascades.

(** ** The timestamp trigger *)
Module Timestamps.
Import Sql SqlFacts PolicyFacts StatementFacts Invariants.

(** The trigger overwrites whatever the statement put in [updated_at]. *)
Lemma profiles_overwrite now (r : profiles_tuple) :
  update_updated_at_column now r
  = update_updated_at_column now (set_updated_at None r).
Proof. reflexivity. Qed.

Lemma turmas_overwrite now (r : turmas_tuple) :
  update_updated_at_column now r
  = update_updated_at_column now (set_updated_at None r).
Proof. reflexivity. Qed.

Lemma atividades_overwrite now (r : atividades_tuple) :
  update_updated_at_column now r
  = update_updated_at_column now (set_updated_at None r).
Proof. reflexivity. Qed.

Lemma for_each_row_ext {T} (target : T -> bool) (f g : T -> result T)
  (rows : list T) :
  (forall r, In r rows -> f r = g r) ->
  for_each_row target f rows = for_each_row target g rows.
Proof.
  induction rows as [|r rows IH]; simpl; intros H; [reflexivity|].
  rewrite (H r) by now left. rewrite IH; [reflexivity|].
  intros r0 Hr0. apply H. now right.
Qed.

Lemma update_profiles_stamp who now w f d d' n :
  update_profiles who now w f d = Ok (d', n) ->
  Forall2
    (fun p p' : profile =>
       if profiles_update_target who w p
       then profile_tuple p' = set_updated_at (Some now) (f p)
            /\ p_updated_at p' = now
       else p' = p)
    (profiles d) (profiles d').
Proof.
  intros H. apply update_profiles_Ok in H as (ps & Hps & _ & _ & _ & _ & -> & _).
  apply for_each_row_Ok in Hps. simpl.
  eapply Forall2_impl; [exact Hps|]. intros p p' Hp. simpl in Hp.
  destruct (profiles_update_target who w p); [|assumption].
  apply profiles_update_row_Ok in Hp as [Hp _]. split; [exact Hp|].
  apply (f_equal p_updated_at) in Hp. simpl in Hp. now inversion Hp.
Qed.

Lemma update_turmas_stamp who now w f d d' n :
  update_turmas who now w f d = Ok (d', n) ->
  Forall2
    (fun t t' : turma =>
       if turmas_update_target who w d t
       then turma_tuple t' = set_updated_at (Some now) (f t)
            /\ t_updated_at t' = now
       else t' = t)
    (turmas d) (turmas d').
Proof.
  intros H. apply update_turmas_Ok in H as (ts & Hts & _ & _ & _ & -> & _).
  apply for_each_row_Ok in Hts. simpl.
  eapply Forall2_impl; [exact Hts|]. intros t t' Ht. simpl in Ht.
  destruct (turmas_update_target who w d t); [|assumption].
  apply turmas_update_row_Ok in Ht as [Ht _]. split; [exact Ht|].
  apply (f_equal t_updated_at) in Ht. simpl in Ht. now inversion Ht.
Qed.

Lemma update_atividades_stamp who now w f d d' n :
  update_atividades who now w f d = Ok (d', n) ->
  Forall2
    (fun a a' : atividade =>
       if atividades_update_target who w d a
       then atividade_tuple a' = set_updated_at (Some now) (f a)
            /\ a_updated_at a' = now
       else a' = a)
    (atividades d) (atividades d').
Proof.
  intros H. apply update_atividades_Ok in H as (l & Hl & _ & _ & -> & _).
  apply for_each_row_Ok in Hl. simpl.
  eapply Forall2_impl; [exact Hl|]. intros a a' Ha. simpl in Ha.
  destruct (atividades_update_target who w d a); [|assumption].
  apply atividades_update_row_Ok in Ha as [Ha _]. split; [exact Ha|].
  apply (f_equal a_updated_at) in Ha. simpl in Ha. now inversion Ha.
Qed.

(** Two [SET] clauses that differ in [updated_at] only are the same
    statement. *)
Lemma update_profiles_discards who now w f g d :
  (forall p, set_updated_at None (f p) = set_updated_at None (g p)) ->
  update_profiles who now w f d = update_profiles who now w g d.
Proof.
  intros H. unfold update_profiles.
  rewrite (for_each_row_ext _ (profiles_update_row who now f)
             (profiles_update_row who now g)); [reflexivity|].
  intros p _. unfold profiles_update_row.
  now rewrite (profiles_overwrite now (f p)), H, <- profiles_overwrite.
Qed.

Lemma update_turmas_discards who now w f g d :
  (forall t, set_updated_at None (f t) = set_updated_at None (g t)) ->
  update_turmas who now w f d = update_turmas who now w g d.
Proof.
  intros H. unfold update_turmas.
  rewrite (for_each_row_ext _ (turmas_update_row who now f d)
             (turmas_update_row who now g d)); [reflexivity|].
  intros t _. unfold turmas_update_row.
  now rewrite (turmas_overwrite now (f t)), H, <- turmas_overwrite.
Qed.

Lemma update_atividades_discards who now w f g d :
  (forall a, set_updated_at None (f a) = set_updated_at None (g a)) ->
  update_atividades who now w f d = update_atividades who now w g d.
Proof.
  intros H. unfold update_atividades.
  rewrite (for_each_row_ext _ (atividades_update_row who now f d)
             (atividades_update_row who now g d)); [reflexivity|].
  intros a _. unfold atividades_update_row.
  now rewrite (atividades_overwrite now (f a)), H, <- atividades_overwrite.
Qed.

(** C6, as the code has it.  An [UPDATE] on any of the three tables leaves
    in every row it updated an [updated_at] equal to [now()], whatever the
    [SET] clause put there: two statements that differ in that column only
    are the same statement.  The other rows are as they were.  The new
    value is at least the previous one whenever the previous one is not
    later than [now()]. *)
Theorem updated_at_is_now (who : role) (now : timestamptz) (d d' : db)
  (n : nat) :
  (forall w f,
     update_profiles who now w f d = Ok (d', n) ->
     Forall2
       (fun p p' : profile =>
          if profiles_update_target who w p
          then p_updated_at p' = now
               /\ profile_tuple p' = set_updated_at (Some now) (f p)
               /\ ((p_updated_at p <= now)%Z ->
                   (p_updated_at p <= p_updated_at p')%Z)
          else p' = p)
       (profiles d) (profiles d'))
  /\ (forall w f,
        update_turmas who now w f d = Ok (d', n) ->
        Forall2
          (fun t t' : turma =>
             if turmas_update_target who w d t
             then t_updated_at t' = now
                  /\ turma_tuple t' = set_updated_at (Some now) (f t)
                  /\ ((t_updated_at t <= now)%Z ->
                      (t_updated_at t <= t_updated_at t')%Z)
             else t' = t)
          (turmas d) (turmas d'))
  /\ (forall w f,
        update_atividades who now w f d = Ok (d', n) ->
        Forall2
          (fun a a' : atividade =>
             if atividades_update_target who w d a
             then a_updated_at a' = now
                  /\ atividade_tuple a' = set_updated_at (Some now) (f a)
                  /\ ((a_updated_at a <= now)%Z ->
                      (a_updated_at a <= a_updated_at a')%Z)
             else a' = a)
          (atividades d) (atividades d'))
  /\ (forall w f g,
        (forall p, set_updated_at None (f p) = set_updated_at None (g p)) ->
        update_profiles who now w f d = update_profiles who now w g d)
  /\ (forall w f g,
        (forall t, set_updated_at None (f t) = set_updated_at None (g t)) ->
        update_turmas who now w f d = update_turmas who now w g d)
  /\ (forall w f g,
        (forall a, set_updated_at None (f a) = set_updated_at None (g a)) ->
        update_atividades who now w f d = update_atividades who now w g d).
Proof.
  split; [|split; [|split; [|split; [|split]]]].
  - intros w f H. apply update_profiles_stamp in H.
    eapply Forall2_impl; [exact H|]. intros p p' Hp. simpl in Hp.
    destruct (profiles_update_target who w p); [|assumption].
    destruct Hp as [Htuple Hnow]. rewrite Hnow. auto.
  - intros w f H. apply update_turmas_stamp in H.
    eapply Forall2_impl; [exact H|]. intros t t' Ht. simpl in Ht.
    destruct (turmas_update_target who w d t); [|assumption].
    destruct Ht as [Htuple Hnow]. rewrite Hnow. auto.
  - intros w f H. apply update_atividades_stamp in H.
    eapply Forall2_impl; [exact H|]. intros a a' Ha. simpl in Ha.
    destruct (atividades_update_target who w d a); [|assumption].
    destruct Ha as [Htuple Hnow]. rewrite Hnow. auto.
  - intros. now apply update_profiles_discards.
  - intros. now apply update_turmas_discards.
  - intros. now apply update_atividades_discards.
Qed.

Lemma updated_at_is_now_witness :
  update_turmas (api_caller (Some 1%N)) 20%Z (turma_with_id 201%N)
    (Scenario.rename "5º Ano B") Scenario.school
  = Ok (with_turmas [Scenario.T_5B] Scenario.school, 1)
  /\ Forall2
       (fun t t' : turma =>
          if turmas_update_target (api_caller (Some 1%N))
               (turma_with_id 201%N) Scenario.school t
          then t_updated_at t' = 20%Z
               /\ turma_tuple t' =
                    set_updated_at (Some 20%Z) (Scenario.rename "5º Ano B" t)
               /\ ((t_updated_at t <= 20)%Z ->
                   (t_updated_at t <= t_updated_at t')%Z)
          else t' = t)
       (turmas Scenario.school)
       (turmas (with_turmas [Scenario.T_5B] Scenario.school)).
Proof.
  assert (H : update_turmas (api_caller (Some 1%N)) 20%Z
                (turma_with_id 201%N) (Scenario.rename "5º Ano B")
                Scenario.school
              = Ok (with_turmas [Scenario.T_5B] Scenario.school, 1))
    by reflexivity.
  split; [exact H|].
  destruct (updated_at_is_now (api_caller (Some 1%N)) 20%Z Scenario.school
              (with_turmas [Scenario.T_5B] Scenario.school) 1)
    as (_ & Hturmas & _).
  exact (Hturmas _ _ H).
Defined.

(** C6, as stated, fails: the owner inserts a class with an [updated_at]
    of its own choosing, later than the clock; the next update brings the
    column back to [now()], below its previous value. *)
Lemma updated_at_goes_back :
  reachable Scenario.dated_school
  /\ In Scenario.T_5A_dated (turmas Scenario.dated_school)
  /\ update_turmas (api_caller (Some 1%N)) 20%Z (turma_with_id 201%N)
       (Scenario.rename "5º Ano B") Scenario.dated_school
     = Ok (with_turmas [Scenario.T_5B] Scenario.dated_school, 1)
  /\ t_id Scenario.T_5B = t_id Scenario.T_5A_dated
  /\ (t_updated_at Scenario.T_5B < t_updated_at Scenario.T_5A_dated)%Z.
Proof.
  split; [exists Scenario.dated_history; reflexivity|].
  split; [vm_compute; auto|].
  split; [reflexivity|]. split; reflexivity.
Qed.

End Timestamps.

(** ** The [CHECK] constraints of [atividades] *)
Module Checks.
Import Sql SqlFacts PolicyFacts StatementFacts Invariants.

Lemma sql_in_text_Some (s : text) (l : list text) :
  sql_in_text (Some s) l = Some (existsb (String.eqb s) l).
Proof.
  induction l as [|v l IH]; simpl; [reflexivity|].
  rewrite IH. now destruct (String.eqb s v), (existsb (String.eqb s) l).
Qed.

Lemma check_in_Some (s : text) (l : list text) :
  check_passes (sql_in_text (Some s) l) = true <-> In s l.
Proof.
  rewrite sql_in_text_Some. simpl.
  assert (Hb : existsb (String.eqb s) l = true <-> In s l).
  { rewrite existsb_exists. split.
    - intros (y & Hy & E). apply String.eqb_eq in E. now subst.
    - intros Hs. exists s. split; [assumption | apply String.eqb_refl]. }
  destruct (existsb (String.eqb s) l); simpl; rewrite <- Hb; split; auto.
Qed.

(** [NULL] passes a check; a value passes when it is in the list. *)
Lemma tipo_check_iff (x : option text) :
  atividades_tipo_check x = true <->
  x = None \/ exists s, x = Some s /\ In s tipos.
Proof.
  destruct x as [s|].
  - unfold atividades_tipo_check. rewrite check_in_Some. split.
    + intros H. right. now exists s.
    + intros [H | (s' & H & Hin)]; [discriminate | now inversion H; subst].
  - split; [now left | reflexivity].
Qed.

Lemma status_check_iff (x : option text) :
  atividades_status_check x = true <->
  x = None \/ exists s, x = Some s /\ In s statuses.
Proof.
  destruct x as [s|].
  - unfold atividades_status_check. rewrite check_in_Some. split.
    + intros H. right. now exists s.
    + intros [H | (s' & H & Hin)]; [discriminate | now inversion H; subst].
  - split; [now left | reflexivity].
Qed.

(** The only ways out of [atividades_constraints]. *)
Lemma atividades_constraints_Err (r : atividades_tuple) (e : error) :
  atividades_constraints r = Err e -> exists c, e = ConstraintViolation c.
Proof.
  unfold atividades_constraints, not_null, require.
  destruct (a_id r), (a_turma_id r), (a_titulo r), (a_created_at r),
    (a_updated_at r), (atividades_tipo_check (a_tipo r)),
    (atividades_status_check (a_status r)); simpl; intros H;
    inversion H; eauto.
Qed.

Lemma insert_checked who now gen v d :
  let NEW := atividades_defaults now gen v in
  (atividades_tipo_check (a_tipo NEW) = false
   \/ atividades_status_check (a_status NEW) = false) ->
  (exists e, insert_atividades who now gen v d = Err e)
  /\ (passes_with_check who (atividades_policies d) INSERT NEW = true ->
      exists c, insert_atividades who now gen v d
                = Err (ConstraintViolation c)).
Proof.
  intros NEW Hbad.
  assert (Hc : exists c, atividades_constraints NEW
                         = Err (ConstraintViolation c)).
  { destruct (atividades_constraints NEW) as [row|e] eqn:E.
    - apply atividades_constraints_Ok in E as (Htuple & Htipo & Hstatus).
      rewrite <- Htuple in Hbad. simpl in Hbad.
      destruct Hbad; congruence.
    - destruct (atividades_constraints_Err _ _ E) as (c & ->). eauto. }
  destruct Hc as (c & Hc). unfold insert_atividades. fold NEW.
  destruct (passes_with_check who (atividades_policies d) INSERT NEW);
    simpl; rewrite ?Hc; simpl; split; eauto; discriminate.
Qed.

Lemma insert_accepted who now gen v d (row : atividade) :
  let NEW := atividades_defaults now gen v in
  passes_with_check who (atividades_policies d) INSERT NEW = true ->
  atividades_constraints NEW = Ok row ->
  ~ In (a_id row) (map a_id (atividades d)) ->
  In (a_turma_id row) (map t_id (turmas d)) ->
  insert_atividades who now gen v d
  = Ok (with_atividades (atividades d ++ [row]) d).
Proof.
  intros NEW Hpol Hrow Hfresh Hfk. unfold insert_atividades. fold NEW.
  rewrite Hpol. simpl. rewrite Hrow. simpl.
  rewrite (proj2 (mem_false _ _) Hfresh). simpl.
  now rewrite (proj2 (mem_In _ _) Hfk).
Qed.

(** C7, as the code has it.  An insert into [atividades] whose [tipo] is a
    value outside the five allowed ones never inserts a row and coerces
    nothing; it fails with a constraint violation whenever the [INSERT]
    policy lets the caller through.  The same holds of a [status] outside
    the three allowed ones.  A row that is inserted has the [tipo] given,
    [NULL] when it was omitted, and the [status] given, ['ativa'] when it
    was omitted; each is [NULL] or one of the allowed values.  An insert
    that omits [tipo] and is otherwise in order succeeds with [tipo]
    [NULL]. *)
Theorem enum_checks (who : role) (now : timestamptz) (gen : UUID)
  (v : atividades_insert) (d : db) :
  let NEW := atividades_defaults now gen v in
  let admitted := passes_with_check who (atividades_policies d) INSERT NEW in
  (forall tipo, a_tipo v = Given (Some tipo) -> ~ In tipo tipos ->
     (exists e, insert_atividades who now gen v d = Err e)
     /\ (admitted = true ->
         exists c, insert_atividades who now gen v d
                   = Err (ConstraintViolation c)))
  /\ (forall status, a_status v = Given (Some status) ->
        ~ In status statuses ->
        (exists e, insert_atividades who now gen v d = Err e)
        /\ (admitted = true ->
            exists c, insert_atividades who now gen v d
                      = Err (ConstraintViolation c)))
  /\ (forall d', insert_atividades who now gen v d = Ok d' ->
        exists row : atividade,
          d' = with_atividades (atividades d ++ [row]) d
          /\ (a_tipo v = Omitted -> a_tipo row = None)
          /\ (forall x, a_tipo v = Given x -> a_tipo row = x)
          /\ (a_status v = Omitted -> a_status row = Some "ativa")
          /\ (forall x, a_status v = Given x -> a_status row = x)
          /\ (a_tipo row = None
              \/ exists s, a_tipo row = Some s /\ In s tipos)
          /\ (a_status row = None
              \/ exists s, a_status row = Some s /\ In s statuses))
  /\ (forall id turma_id titulo created_at updated_at,
        a_tipo v = Omitted ->
        admitted = true ->
        a_id NEW = Some id -> a_turma_id NEW = Some turma_id ->
        a_titulo NEW = Some titulo ->
        a_created_at NEW = Some created_at ->
        a_updated_at NEW = Some updated_at ->
        atividades_status_check (a_status NEW) = true ->
        ~ In id (map a_id (atividades d)) ->
        In turma_id (map t_id (turmas d)) ->
        exists row : atividade,
          insert_atividades who now gen v d
          = Ok (with_atividades (atividades d ++ [row]) d)
          /\ a_id row = id /\ a_tipo row = None).
Proof.
  intros NEW admitted.
  split; [|split; [|split]].
  - intros tipo Hv Hout. apply insert_checked. left.
    destruct (atividades_tipo_check _) eqn:E; [|reflexivity].
    apply tipo_check_iff in E. simpl in E. rewrite Hv in E. simpl in E.
    destruct E as [E | (s & E & Hin)]; [discriminate|].
    inversion E; subst. contradiction.
  - intros status Hv Hout. apply insert_checked. right.
    destruct (atividades_status_check _) eqn:E; [|reflexivity].
    apply status_check_iff in E. simpl in E. rewrite Hv in E. simpl in E.
    destruct E as [E | (s & E & Hin)]; [discriminate|].
    inversion E; subst. contradiction.
  - intros d' H.
    apply insert_atividades_Ok in H
      as (row & Hrow & _ & Htipo & Hstatus & _ & _ & ->).
    exists row. split; [reflexivity|].
    pose proof (f_equal a_tipo Hrow) as Ht.
    pose proof (f_equal a_status Hrow) as Hs. simpl in Ht, Hs.
    split; [intros Hv; now rewrite Ht, Hv|].
    split; [intros x Hv; now rewrite Ht, Hv|].
    split; [intros Hv; now rewrite Hs, Hv|].
    split; [intros x Hv; now rewrite Hs, Hv|].
    split; [now apply tipo_check_iff | now apply status_check_iff].
  - intros id turma_id titulo created_at updated_at
      Hv Hadm Hid Hturma Htitulo Hcreated Hupdated Hstatus Hfresh Hfk.
    set (row := ({| a_id := id; a_turma_id := turma_id; a_titulo := titulo;
                    a_descricao := a_descricao NEW;
                    a_data_entrega := a_data_entrega NEW;
                    a_tipo := None; a_status := a_status NEW;
                    a_created_at := created_at;
                    a_updated_at := updated_at |} : atividade)).
    assert (Htipo : a_tipo NEW = None) by (simpl; now rewrite Hv).
    assert (Hrow : atividades_constraints NEW = Ok row).
    { unfold atividades_constraints.
      rewrite Hid, Hturma, Htitulo, Hcreated, Hupdated, Hstatus, Htipo.
      reflexivity. }
    exists row. split; [|split; reflexivity].
    now apply insert_accepted.
Qed.

Lemma enum_checks_witness :
  insert_atividades (api_caller (Some 1%N)) 14%Z 302%N
    (Scenario.prova 201%N Omitted Omitted) Scenario.school
  = Ok (with_atividades (atividades Scenario.school ++ [Scenario.A_sem_tipo])
          Scenario.school)
  /\ (exists c,
        insert_atividades (api_caller (Some 1%N)) 14%Z 302%N
          (Scenario.prova 201%N (Given (Some "teste")) Omitted)
          Scenario.school
        = Err (ConstraintViolation c)).
Proof.
  split; [reflexivity|].
  destruct (enum_checks (api_caller (Some 1%N)) 14%Z 302%N
              (Scenario.prova 201%N (Given (Some "teste")) Omitted)
              Scenario.school) as (Htipo & _).
  destruct (Htipo "teste" eq_refl) as [_ Hc].
  - unfold tipos. simpl. intros [H | [H | [H | [H | [H | []]]]]];
      discriminate.
  - apply Hc. reflexivity.
Defined.

(** C7, as stated, fails on [status]: an insert that gives [status] as
    [NULL] is accepted, and the row it stores has a [status] that is none
    of the three values. *)
Lemma null_status_accepted :
  reachable Scenario.school
  /\ insert_atividades (api_caller (Some 1%N)) 14%Z 302%N
       (Scenario.prova 201%N Omitted (Given None)) Scenario.school
     = Ok (with_atividades
             (atividades Scenario.school ++ [Scenario.A_sem_status])
             Scenario.school)
  /\ a_status Scenario.A_sem_status = None
  /\ ~ (exists s, a_status Scenario.A_sem_status = Some s /\ In s statuses).
Proof.
  split; [exists Scenario.history; reflexivity|].
  split; [reflexivity|]. split; [reflexivity|].
  intros (s & H & _). discriminate.
Qed.

End Checks.

(** ** Profiles: no [DELETE] policy *)
Module ProfilesAccess.
Import Sql SqlFacts PolicyFacts StatementFacts Invariants.

Lemma profiles_policy_iff (uid : option UUID) (r : profiles_tuple) :
  holds (sql_eq uid (p_user_id r)) = true <->
  exists u, uid = Some u /\ p_user_id r = Some u.
Proof. apply holds_sql_eq. Qed.

(** Apart from the deletion of an identity, a transaction keeps the
    profile of every identity and can only add profiles. *)
Lemma commit_keeps_profiles d tx :
  (forall id, tx_statement tx <> DeleteIdentity id) ->
  exists more,
    map p_user_id (profiles (commit d tx))
    = map p_user_id (profiles d) ++ more.
Proof.
  intros Hstmt. unfold commit.
  destruct tx as [now gen s]. simpl in *.
  destruct (execute now gen s d) as [d'|e] eqn:E;
    [|exists []; now rewrite app_nil_r].
  destruct s; cbv beta iota delta [execute] in E; inv_result.
  - apply insert_auth_users_Ok in E as (row & _ & _ & _ & _ & ->).
    exists [p_user_id row]. simpl. now rewrite map_app.
  - now destruct (Hstmt id).
  - apply insert_profiles_Ok in E as (row & _ & _ & _ & _ & _ & ->).
    exists [p_user_id row]. simpl. now rewrite map_app.
  - match goal with H : update_profiles _ _ _ _ _ = Ok ?r |- _ =>
      destruct r as [d' n];
      apply update_profiles_Ok in H as (ps & Hps & _ & _ & _ & _ & -> & _)
    end.
    exists []. rewrite app_nil_r. simpl.
    apply (for_each_row_map p_user_id _ _ _ _
             (fun r r' _ => profiles_update_keeps_user_id uid now where_
                              assign r r') Hps).
  - exists []. rewrite app_nil_r.
    rewrite remove_profiles_nothing; [reflexivity|].
    intros; apply profiles_delete_target_api.
  - apply insert_turmas_Ok in E as (row & _ & _ & _ & _ & _ & ->).
    exists []. now rewrite app_nil_r.
  - match goal with H : update_turmas _ _ _ _ _ = Ok ?r |- _ =>
      destruct r as [d' n];
      apply update_turmas_Ok in H as (ts & _ & _ & _ & _ & -> & _)
    end.
    exists []. now rewrite app_nil_r.
  - exists []. now rewrite app_nil_r.
  - apply insert_atividades_Ok in E as (row & _ & _ & _ & _ & _ & _ & ->).
    exists []. now rewrite app_nil_r.
  - match goal with H : update_atividades _ _ _ _ _ = Ok ?r |- _ =>
      destruct r as [d' n];
      apply update_atividades_Ok in H as (l & _ & _ & _ & -> & _)
    end.
    exists []. now rewrite app_nil_r.
  - exists []. now rewrite app_nil_r.
Qed.

(** The deletion of an identity removes no profile of another one. *)
Lemma delete_auth_users_keeps d id (p : profile) :
  In p (profiles d) -> p_user_id p <> id ->
  In p (profiles (delete_auth_users id d)).
Proof.
  intros Hp Hne. simpl. apply filter_In. split; [assumption|].
  apply negb_true_iff, mem_false. intros Hin.
  apply in_map_iff in Hin as (u & Hu & Hin).
  apply filter_In in Hin as [_ Hid]. apply N.eqb_eq in Hid. congruence.
Qed.

(** C8. On [profiles] the [SELECT], [INSERT] and [UPDATE] policies let a
    caller through exactly when the row's [user_id] is the caller's
    identity, and there is no [DELETE] policy: a [DELETE] of the API
    deletes zero rows, whoever sends it.  No transaction other than the
    deletion of an identity removes the profile of any identity, and that
    one removes no profile of another identity. *)
Theorem no_delete_policy (d : db) (tx : transaction) :
  (forall id, tx_statement tx <> DeleteIdentity id) ->
  (forall uid (r : profiles_tuple),
     let mine := exists u, uid = Some u /\ p_user_id r = Some u in
     (rls_using (profiles_policies uid) SELECT r = true <-> mine)
     /\ (rls_with_check (profiles_policies uid) INSERT r = true <-> mine)
     /\ (rls_using (profiles_policies uid) UPDATE r = true <-> mine)
     /\ (rls_with_check (profiles_policies uid) UPDATE r = true <-> mine)
     /\ policies_for DELETE (profiles_policies uid) = []
     /\ rls_using (profiles_policies uid) DELETE r = false)
  /\ (forall uid where_,
        delete_profiles (api_caller uid) where_ d = (d, 0))
  /\ (forall p, In p (profiles d) ->
        In (p_user_id p) (map p_user_id (profiles (commit d tx))))
  /\ length (profiles d) <= length (profiles (commit d tx))
  /\ (forall id (p : profile), In p (profiles d) -> p_user_id p <> id ->
        In p (profiles (delete_auth_users id d))).
Proof.
  intros Hstmt. split; [|split; [|split; [|split]]].
  - intros uid r mine.
    rewrite !profiles_using, !profiles_with_check.
    repeat split; try apply profiles_policy_iff;
      intros H; now apply profiles_policy_iff.
  - intros. apply delete_profiles_api.
  - intros p Hp. destruct (commit_keeps_profiles d tx Hstmt) as [more ->].
    apply in_app_iff. left. now apply in_map.
  - destruct (commit_keeps_profiles d tx Hstmt) as [more H].
    apply (f_equal (@length _)) in H.
    rewrite length_app, !length_map in H. unfold profile in *. lia.
  - intros. now apply delete_auth_users_keeps.
Qed.

Lemma no_delete_policy_witness :
  (forall id, DeleteProfiles (Some 1%N) (fun _ => true) <> DeleteIdentity id)
  /\ delete_profiles (api_caller (Some 1%N)) (fun _ => true) Scenario.school
     = (Scenario.school, 0).
Proof.
  assert (H : forall id,
            DeleteProfiles (Some 1%N) (fun _ => true) <> DeleteIdentity id)
    by discriminate.
  split; [exact H|].
  destruct (no_delete_policy Scenario.school
              (Scenario.at_ 14%Z 0%N
                 (DeleteProfiles (Some 1%N) (fun _ => true))) H)
    as (_ & Hdel & _).
  apply Hdel.
Defined.

End ProfilesAccess.

(** ** JavaScript strings *)
Module JsFacts.
Import Js.

Lemma strict_eq_eq (a b : jsstring) : strict_eq a b = true <-> a = b.
Proof.
  revert b. induction a as [|x a IH]; intros [|y b]; simpl;
    try (split; [discriminate | intros H; inversion H]).
  - split; reflexivity.
  - rewrite andb_true_iff, N.eqb_eq, IH. split.
    + intros [-> ->]. reflexivity.
    + intros H. inversion H. auto.
Qed.

Lemma not_empty (s : jsstring) : Js.not s = true <-> s = [].
Proof. destruct s; simpl; split; congruence. Qed.

End JsFacts.

(** ** The sign-up form *)
Module AuthPageFacts.
Import Js JsFacts AuthPage.

(** A form that passes the two checks is sent: the handler signs out,
    then asks for the sign-up. *)
Lemma handleSignUp_sends (b : backend) (w : world) :
  email (component w) <> [] -> password (component w) <> [] ->
  fullName (component w) <> [] ->
  6 <= List.length (password (component w)) ->
  requests (handleSignUp b w)
  = requests w
    ++ [signOut_global;
        signUp (email (component w)) (password (component w))
          (location_origin w ++ lit "/") (fullName (component w))].
Proof.
  intros He Hp Hf Hlen. unfold handleSignUp.
  destruct (email (component w)) as [|e es]; [congruence|].
  destruct (password (component w)) as [|p ps] eqn:Epw; [congruence|].
  destruct (fullName (component w)) as [|f fs]; [congruence|].
  cbn [Js.not orb].
  destruct (Nat.ltb_spec (List.length (p :: ps)) 6) as [Hlt | _]; [lia|].
  destruct (signUp_answer b _) as [m | [] | m]; simpl;
    try destruct (includes m _); simpl; now rewrite <- app_assoc.
Qed.

(** C9. When [fullName], [email] or [password] is empty, or the password
    has fewer than 6 code units, [handleSignUp] sends no request to the
    backend, and leaves the state of the component, [localStorage] and the
    location as they were: all it does is show one error notice. *)
Theorem handleSignUp_validates (b : backend) (w : world) :
  fullName (component w) = [] \/ email (component w) = []
  \/ password (component w) = []
  \/ List.length (password (component w)) < 6 ->
  let w' := handleSignUp b w in
  requests w' = requests w
  /\ component w' = component w
  /\ localStorage w' = localStorage w
  /\ location_href w' = location_href w
  /\ exists t, toasts w' = toasts w ++ [t]
               /\ (t = CamposObrigatorios \/ t = SenhaMuitoCurta).
Proof.
  intros Hbad w'. unfold w', handleSignUp.
  destruct (Js.not (email (component w)) || Js.not (password (component w))
            || Js.not (fullName (component w))) eqn:Eempty.
  - simpl. repeat split. exists CamposObrigatorios. auto.
  - destruct (Nat.ltb_spec (List.length (password (component w))) 6)
      as [Hlt | Hge].
    + simpl. repeat split. exists SenhaMuitoCurta. auto.
    + exfalso. apply orb_false_iff in Eempty as [Eempty Hf].
      apply orb_false_iff in Eempty as [He Hp].
      destruct Hbad as [H | [H | [H | H]]].
      * apply JsFacts.not_empty in H. congruence.
      * apply JsFacts.not_empty in H. congruence.
      * apply JsFacts.not_empty in H. congruence.
      * lia.
Qed.

Lemma handleSignUp_validates_witness :
  let b := {| signOut_throws := false;
              signUp_answer := fun _ => SignUpData true |} in
  let w := {| component := {| isLoading := false;
                              email := lit "ana@escola.br";
                              password := lit "12345";
                              fullName := lit "Ana" |};
              localStorage := ∅;
              location_origin := lit "https://app";
              location_href := lit "https://app/auth";
              toasts := []; requests := []; defaultPrevented := false |} in
  List.length (password (component w)) < 6
  /\ requests (handleSignUp b w) = []
  /\ toasts (handleSignUp b w) = [SenhaMuitoCurta].
Proof.
  intros b w.
  assert (H : List.length (password (component w)) < 6) by (simpl; lia).
  split; [exact H|].
  destruct (handleSignUp_validates b w (or_intror (or_intror (or_intror H))))
    as (Hreq & _).
  split; [exact Hreq | reflexivity].
Defined.

End AuthPageFacts.

(** ** The filter of the activity list *)
Module AtividadesManagerFacts.
Import Js JsFacts AtividadesManager.

Lemma matches_spec (filterTurma filterStatus : jsstring) (a : Atividade.t) :
  matches filterTurma filterStatus a = true <->
  shown_spec filterTurma filterStatus a.
Proof.
  unfold matches, shown_spec.
  rewrite andb_true_iff, !orb_true_iff, !strict_eq_eq. tauto.
Qed.

Lemma Array_filter_fresh callback this (h : heap) elems :
  h !! this = Some elems ->
  exists r,
    Array_filter callback this h
    = Some (r, <[r := List.filter callback elems]> h)
    /\ h !! r = None.
Proof.
  intros H. unfold Array_filter. rewrite H.
  exists (fresh (dom h)). split; [reflexivity|].
  apply not_elem_of_dom. apply is_fresh.
Qed.

(** C10. The filtered list has exactly the activities of the list that
    are of the selected turma (or the turma filter is "all") and of the
    selected status (or the status filter is "all"), in their order and as
    often as they occur; with both filters at "all" it is the whole list;
    and filtering allocates a new array and leaves the one it reads, and
    every other, untouched. *)
Theorem filteredAtividades_spec (atividades : list Atividade.t)
  (filterTurma filterStatus : jsstring) :
  (forall a,
     In a (filteredAtividades atividades filterTurma filterStatus) <->
     In a atividades /\ shown_spec filterTurma filterStatus a)
  /\ (forall l1 l2,
        atividades = l1 ++ l2 ->
        filteredAtividades atividades filterTurma filterStatus
        = filteredAtividades l1 filterTurma filterStatus
          ++ filteredAtividades l2 filterTurma filterStatus)
  /\ (forall a,
        (shown_spec filterTurma filterStatus a ->
         filteredAtividades [a] filterTurma filterStatus = [a])
        /\ (~ shown_spec filterTurma filterStatus a ->
            filteredAtividades [a] filterTurma filterStatus = []))
  /\ filteredAtividades atividades (lit "all") (lit "all") = atividades
  /\ (forall (h : heap) (r : ref),
        h !! r = Some atividades ->
        exists r' h',
          filteredAtividades_ref r filterTurma filterStatus h = Some (r', h')
          /\ h !! r' = None
          /\ h' !! r'
             = Some (filteredAtividades atividades filterTurma filterStatus)
          /\ h' !! r = Some atividades
          /\ forall r0, r0 <> r' -> h' !! r0 = h !! r0).
Proof.
  split; [|split; [|split; [|split]]].
  - intros a. unfold filteredAtividades.
    now rewrite filter_In, matches_spec.
  - intros l1 l2 ->. apply List.filter_app.
  - intros a. unfold filteredAtividades. simpl.
    destruct (matches filterTurma filterStatus a) eqn:E; split; intros H;
      try reflexivity.
    + apply matches_spec in E. contradiction.
    + apply matches_spec in H. congruence.
  - unfold filteredAtividades. induction atividades as [|a l IH];
      simpl; [reflexivity|]. now rewrite IH.
  - intros h r Hr. unfold filteredAtividades_ref.
    destruct (Array_filter_fresh (matches filterTurma filterStatus) r h
                atividades Hr) as (r' & -> & Hfresh).
    exists r', (<[r' := List.filter (matches filterTurma filterStatus)
                        atividades]> h).
    unfold heap, ref in *.
    split; [reflexivity|]. split; [exact Hfresh|].
    split; [apply lookup_insert_eq|]. split.
    + rewrite lookup_insert_ne; [exact Hr|]. congruence.
    + intros r0 Hne. now rewrite lookup_insert_ne.
Qed.

Lemma filteredAtividades_spec_witness :
  let h : heap := {[ 1%positive := [prova_a; tarefa_b] ]} in
  h !! 1%positive = Some [prova_a; tarefa_b]
  /\ filteredAtividades [prova_a; tarefa_b] (lit "t1") (lit "all") = [prova_a]
  /\ exists r' h',
       filteredAtividades_ref 1%positive (lit "t1") (lit "all") h
       = Some (r', h')
       /\ h' !! 1%positive = Some [prova_a; tarefa_b].
Proof.
  intros h.
  assert (H : h !! 1%positive = Some [prova_a; tarefa_b]) by reflexivity.
  split; [exact H|]. split; [reflexivity|].
  destruct (filteredAtividades_spec [prova_a; tarefa_b] (lit "t1") (lit "all"))
    as (_ & _ & _ & _ & Hheap).
  destruct (Hheap h 1%positive H) as (r' & h' & Hrun & _ & _ & Hold & _).
  now exists r', h'.
Defined.

End AtividadesManagerFacts.

(** ** The run of [Scenario], end to end *)
Module ScenarioFacts.
Import Sql Scenario.

Example school_state :
  auth_users school = [ana; bia]
  /\ profiles school = [P_ana; P_bia]
  /\ turmas school = [T_5A]
  /\ atividades school = [A_prova].
Proof. repeat split; reflexivity. Qed.

(** The second teacher sees neither the class nor the assignment of the
    first, and cannot add an assignment to her class. *)
Example bia_sees_nothing :
  select_turmas (api_caller (Some 2%N)) (fun _ => true) school = []
  /\ select_atividades (api_caller (Some 2%N)) (fun _ => true) school = []
  /\ insert_atividades (api_caller (Some 2%N)) 14%Z 302%N
       (prova 201%N (Given (Some "prova")) Omitted) school
     = Err (RlsViolation "atividades").
Proof. repeat split; reflexivity. Qed.

Example ana_sees_her_own :
  select_turmas (api_caller (Some 1%N)) (fun _ => true) school = [T_5A]
  /\ select_atividades (api_caller (Some 1%N)) (fun _ => true) school
     = [A_prova].
Proof. split; reflexivity. Qed.

(** Without a token nothing is visible. *)
Example anon_sees_nothing :
  select_profiles (api_caller None) (fun _ => true) school = []
  /\ select_turmas (api_caller None) (fun _ => true) school = []
  /\ select_atividades (api_caller None) (fun _ => true) school = [].
Proof. repeat split; reflexivity. Qed.

End ScenarioFacts.

(** ** Requests without an identity *)
Module Anonymous.
Import Sql SqlFacts PolicyFacts StatementFacts Invariants Targeted.

Lemma no_own_profile d (x : option UUID) :
  holds (sql_in x (own_profile_ids d None)) = false.
Proof.
  destruct (holds _) eqn:E; [|reflexivity].
  apply holds_own_profile in E as (u & i & Hu & _). discriminate.
Qed.

Lemma no_own_turma d (x : option UUID) :
  holds (sql_in x (own_turma_ids d None)) = false.
Proof.
  destruct (holds _) eqn:E; [|reflexivity].
  apply holds_own_turma in E as (u & i & Hu & _). discriminate.
Qed.

Lemma anon_using_profiles cmd (r : profiles_tuple) :
  rls_using (profiles_policies None) cmd r = false.
Proof. rewrite profiles_using. now destruct cmd. Qed.

Lemma anon_using_turmas d cmd (r : turmas_tuple) :
  rls_using (turmas_policies d None) cmd r = false.
Proof. rewrite turmas_using. destruct cmd; auto using no_own_profile. Qed.

Lemma anon_using_atividades d cmd (r : atividades_tuple) :
  rls_using (atividades_policies d None) cmd r = false.
Proof. rewrite atividades_using. destruct cmd; auto using no_own_turma. Qed.

Lemma update_profiles_commits who now w f d ps :
  for_each_row (profiles_update_target who w)
    (profiles_update_row who now f) (profiles d) = Ok ps ->
  List.NoDup (map p_id ps) ->
  List.NoDup (map p_user_id ps) ->
  (forall p, In p ps -> In (p_user_id p) (map u_id (auth_users d))) ->
  (forall t, In t (turmas d) -> In (t_professor_id t) (map p_id ps)) ->
  update_profiles who now w f d =
  Ok (with_profiles ps d,
      length (List.filter (profiles_update_target who w) (profiles d))).
Proof.
  intros Hps Hid Huid Hfk1 Hfk2. unfold update_profiles. rewrite Hps. simpl.
  rewrite (proj2 (distinct_NoDup _) Hid). simpl.
  rewrite (proj2 (distinct_NoDup _) Huid). simpl.
  rewrite (forallb_mem_true p_user_id _ _ Hfk1). simpl.
  now rewrite (forallb_mem_true t_professor_id _ _ Hfk2).
Qed.

Lemma update_profiles_nothing who now w f d :
  constraints_hold d ->
  (forall p, In p (profiles d) -> profiles_update_target who w p = false) ->
  update_profiles who now w f d = Ok (d, 0).
Proof.
  intros [] Hno.
  rewrite (update_profiles_commits who now w f d (profiles d)); auto.
  - now rewrite with_profiles_id, filter_none.
  - now apply for_each_row_untargeted.
Qed.

(** X1. A request that carries no identity ([auth.uid()] is [NULL]) reads
    no row of any of the three tables, is refused every insert, and its
    updates and deletes touch no row, whatever their [WHERE] clause. *)
Theorem anon_locked_out (d : db) :
  reachable d ->
  let anon := api_caller None in
  (forall w, select_profiles anon w d = [])
  /\ (forall w, select_turmas anon w d = [])
  /\ (forall w, select_atividades anon w d = [])
  /\ (forall now gen v,
        insert_profiles anon now gen v d = Err (RlsViolation "profiles"))
  /\ (forall now gen v,
        insert_turmas anon now gen v d = Err (RlsViolation "turmas"))
  /\ (forall now gen v,
        insert_atividades anon now gen v d = Err (RlsViolation "atividades"))
  /\ (forall now w f, update_profiles anon now w f d = Ok (d, 0))
  /\ (forall now w f, update_turmas anon now w f d = Ok (d, 0))
  /\ (forall now w f, update_atividades anon now w f d = Ok (d, 0))
  /\ (forall w, delete_profiles anon w d = (d, 0))
  /\ (forall w, delete_turmas anon w d = (d, 0))
  /\ (forall w, delete_atividades anon w d = (d, 0)).
Proof.
  intros Hreach anon. destruct (reachable_consistent d Hreach) as [Hd _].
  repeat apply conj; intros.
  - apply filter_none. intros p _. unfold anon, passes_using.
    now rewrite anon_using_profiles.
  - apply filter_none. intros t _. unfold anon, passes_using.
    now rewrite anon_using_turmas.
  - apply filter_none. intros a _. unfold anon, passes_using.
    now rewrite anon_using_atividades.
  - unfold insert_profiles, anon, passes_with_check.
    now rewrite profiles_with_check.
  - unfold insert_turmas, anon, passes_with_check.
    now rewrite turmas_with_check, no_own_profile.
  - unfold insert_atividades, anon, passes_with_check.
    now rewrite atividades_with_check, no_own_turma.
  - apply update_profiles_nothing; [assumption|]. intros p _.
    unfold profiles_update_target, anon, passes_using.
    now rewrite anon_using_profiles.
  - apply update_turmas_nothing; [assumption|]. intros t _.
    unfold turmas_update_target, anon, passes_using.
    now rewrite anon_using_turmas.
  - apply update_atividades_nothing; [assumption|]. intros a _.
    unfold atividades_update_target, anon, passes_using.
    now rewrite anon_using_atividades.
  - apply delete_profiles_api.
  - unfold delete_turmas.
    rewrite remove_turmas_nothing, filter_none; auto; intros t _;
      unfold turmas_delete_target, anon, passes_using;
      now rewrite anon_using_turmas.
  - unfold delete_atividades.
    rewrite remove_atividades_nothing, filter_none; auto; intros a _;
      unfold atividades_delete_target, anon, passes_using;
      now rewrite anon_using_atividades.
Qed.

Lemma anon_locked_out_witness :
  reachable Scenario.school
  /\ select_atividades (api_caller None) (fun _ => true) Scenario.school = []
  /\ delete_turmas (api_caller None) (fun _ => true) Scenario.school
     = (Scenario.school, 0).
Proof.
  assert (Hr : reachable Scenario.school)
    by (exists Scenario.history; reflexivity).
  destruct (anon_locked_out Scenario.school Hr)
    as (_ & _ & Hsel & _ & _ & _ & _ & _ & _ & _ & Hdel & _).
  split; [exact Hr|]. split; [apply Hsel | apply Hdel].
Defined.

End Anonymous.

(** ** Writes stay inside the caller's chain *)
Module Isolation.
Import Sql SqlFacts PolicyFacts StatementFacts Invariants Ownership Targeted.

Lemma mem_own_profiles d v (x : UUID) :
  mem x (map p_id (own_profiles d v)) = true <->
  exists u, v = Some u /\ owns_profile d u x.
Proof.
  rewrite mem_In, in_map_iff. split.
  - intros (p & Hid & Hp). apply In_own_profiles in Hp as [Hp ->].
    exists (p_user_id p). split; [reflexivity|]. now exists p.
  - intros (u & -> & p & Hp & Hid & <-). exists p. split; [assumption|].
    now apply In_own_profiles.
Qed.

Lemma mem_own_turmas d v (x : UUID) :
  mem x (map t_id (own_turmas d v)) = true <->
  exists u, v = Some u /\ owns_turma d u x.
Proof.
  rewrite mem_In, in_map_iff. split.
  - intros (t & Hid & Ht). apply filter_In in Ht as [Ht Hown].
    apply mem_own_profiles in Hown as (u & -> & Hown).
    exists u. split; [reflexivity|]. now exists t.
  - intros (u & -> & t & Ht & Hid & Hown). exists t. split; [assumption|].
    apply filter_In. split; [assumption|].
    apply mem_own_profiles. now exists u.
Qed.

Lemma one_owner_profile d u u' (x : UUID) :
  constraints_hold d -> owns_profile d u x -> owns_profile d u' x -> u = u'.
Proof.
  intros [] (p & Hp & Hid & <-) (p' & Hp' & Hid' & <-).
  rewrite (NoDup_map_In_inj p_id _ p p' profiles_pkey0 Hp Hp'); [reflexivity|].
  now rewrite Hid, Hid'.
Qed.

Lemma one_owner_turma d u u' (x : UUID) :
  constraints_hold d -> owns_turma d u x -> owns_turma d u' x -> u = u'.
Proof.
  intros Hd (t & Ht & Hid & Hown) (t' & Ht' & Hid' & Hown').
  assert (t = t').
  { destruct Hd. apply (NoDup_map_In_inj t_id (turmas d)); auto.
    now rewrite Hid, Hid'. }
  subst. eapply one_owner_profile; eauto.
Qed.

(** What the policy grants to one identity is outside the chain of any
    other. *)
Lemma foreign_profile d uid v (x : option UUID) :
  constraints_hold d -> v <> uid ->
  holds (sql_in x (own_profile_ids d uid)) = true ->
  forall i, x = Some i -> mem i (map p_id (own_profiles d v)) = false.
Proof.
  intros Hd Hne H i ->. apply holds_own_profile in H as (u & j & -> & Hj & H).
  inversion Hj; subst.
  destruct (mem _ _) eqn:E; [|reflexivity].
  apply mem_own_profiles in E as (u' & -> & H').
  now rewrite (one_owner_profile d u u' j Hd H H') in Hne.
Qed.

Lemma foreign_turma d uid v (x : option UUID) :
  constraints_hold d -> v <> uid ->
  holds (sql_in x (own_turma_ids d uid)) = true ->
  forall i, x = Some i -> mem i (map t_id (own_turmas d v)) = false.
Proof.
  intros Hd Hne H i ->. apply holds_own_turma in H as (u & j & -> & Hj & H).
  inversion Hj; subst.
  destruct (mem _ _) eqn:E; [|reflexivity].
  apply mem_own_turmas in E as (u' & -> & H').
  now rewrite (one_owner_turma d u u' j Hd H H') in Hne.
Qed.

Lemma filter_updated {T} (P : T -> bool) (l l' : list T) :
  Forall2 (fun r r' => r' = r \/ (P r = false /\ P r' = false)) l l' ->
  List.filter P l' = List.filter P l.
Proof.
  induction 1 as [|r r' l l' [-> | [Hr Hr']] _ IH]; simpl.
  - reflexivity.
  - now rewrite IH.
  - now rewrite Hr, Hr'.
Qed.

Lemma filter_filter_implied {T} (P Q : T -> bool) (l : list T) :
  (forall x, In x l -> P x = true -> Q x = true) ->
  List.filter P (List.filter Q l) = List.filter P l.
Proof.
  induction l as [|x l IH]; simpl; intros H; [reflexivity|].
  assert (IH' := IH (fun y Hy => H y (or_intror Hy))).
  destruct (Q x) eqn:EQ; simpl.
  - now rewrite IH'.
  - destruct (P x) eqn:EP; [|assumption].
    rewrite (H x (or_introl eq_refl) EP) in EQ. discriminate.
Qed.

Lemma filter_snoc_false {T} (P : T -> bool) (l : list T) (x : T) :
  P x = false -> List.filter P (l ++ [x]) = List.filter P l.
Proof.
  intros H. rewrite List.filter_app. simpl. rewrite H. apply app_nil_r.
Qed.

Section Statements.
Variables (d : db) (uid v : option UUID).
Hypothesis Hd : constraints_hold d.
Hypothesis Hne : v <> uid.

Lemma not_own_profile (p : profiles_tuple) (i : UUID) :
  holds (sql_eq uid (p_user_id p)) = true -> p_user_id p = Some i ->
  holds (sql_eq (Some i) v) = false.
Proof using Hne.
  intros H Hi. apply holds_sql_eq in H as (a & Hu & Ha).
  rewrite Hi in Ha. injection Ha as <-.
  destruct (holds _) eqn:E; [|reflexivity].
  apply holds_sql_eq in E as (b & Hb1 & Hb2).
  exfalso. apply Hne. congruence.
Qed.

Lemma insert_profiles_isolated now gen v0 d' :
  insert_profiles (api_caller uid) now gen v0 d = Ok d' ->
  own_profiles d' v = own_profiles d v
  /\ turmas d' = turmas d /\ atividades d' = atividades d.
Proof using Hne.
  intros H. apply insert_profiles_Ok in H as (row & _ & Hck & _ & _ & _ & ->).
  repeat split. unfold own_profiles. simpl. apply filter_snoc_false.
  unfold passes_with_check in Hck. rewrite profiles_with_check in Hck.
  now apply (not_own_profile (profile_tuple row)).
Qed.

Lemma update_profiles_isolated now w f d' n :
  update_profiles (api_caller uid) now w f d = Ok (d', n) ->
  own_profiles d' v = own_profiles d v
  /\ turmas d' = turmas d /\ atividades d' = atividades d.
Proof using Hne.
  intros H. apply update_profiles_Ok in H as (ps & Hps & _ & _ & _ & _ & -> & _).
  repeat split. unfold own_profiles. simpl. apply filter_updated.
  apply for_each_row_Ok in Hps. eapply Forall2_impl; [exact Hps|].
  intros p p' Hp. simpl in Hp.
  destruct (profiles_update_target (api_caller uid) w p) eqn:Et;
    [right | now left].
  pose proof (profiles_update_keeps_user_id uid now w f p p' Et Hp) as Hk.
  apply profiles_update_target_api in Et as [Hu _].
  assert (Hp0 : holds (sql_eq (Some (p_user_id p)) v) = false).
  { apply (not_own_profile (profile_tuple p)); [|reflexivity].
    apply holds_sql_eq. now exists (p_user_id p). }
  split; [exact Hp0 | now rewrite Hk].
Qed.

Lemma chain_below_profiles d' :
  own_profiles d' v = own_profiles d v ->
  turmas d' = turmas d -> atividades d' = atividades d ->
  own_turmas d' v = own_turmas d v
  /\ own_atividades d' v = own_atividades d v.
Proof using.
  intros Hp Ht Ha.
  assert (Hown : own_turmas d' v = own_turmas d v).
  { unfold own_turmas. now rewrite Hp, Ht. }
  split; [exact Hown|]. unfold own_atividades. now rewrite Hown, Ha.
Qed.

Lemma chain_below_turmas d' :
  own_turmas d' v = own_turmas d v -> atividades d' = atividades d ->
  own_atividades d' v = own_atividades d v.
Proof using.
  intros Ht Ha. unfold own_atividades. now rewrite Ht, Ha.
Qed.

Lemma insert_turmas_isolated now gen v0 d' :
  insert_turmas (api_caller uid) now gen v0 d = Ok d' ->
  own_profiles d' v = own_profiles d v
  /\ own_turmas d' v = own_turmas d v
  /\ atividades d' = atividades d.
Proof using Hd Hne.
  intros H. apply insert_turmas_Ok in H as (row & _ & Hck & _ & _ & _ & ->).
  repeat split. unfold own_turmas. simpl. apply filter_snoc_false.
  unfold passes_with_check in Hck. rewrite turmas_with_check in Hck.
  now apply (foreign_profile d uid v _ Hd Hne Hck).
Qed.

Lemma update_turmas_isolated now w f d' n :
  update_turmas (api_caller uid) now w f d = Ok (d', n) ->
  own_profiles d' v = own_profiles d v
  /\ own_turmas d' v = own_turmas d v
  /\ atividades d' = atividades d.
Proof using Hd Hne.
  intros H. apply update_turmas_Ok in H as (ts & Hts & _ & _ & _ & -> & _).
  repeat split. unfold own_turmas. simpl. apply filter_updated.
  apply for_each_row_Ok in Hts. eapply Forall2_impl; [exact Hts|].
  intros t t' Ht. simpl in Ht.
  destruct (turmas_update_target (api_caller uid) w d t) eqn:Et;
    [right | now left].
  unfold turmas_update_target, passes_using in Et.
  apply andb_true_iff in Et as [Et _]. rewrite turmas_using in Et.
  apply turmas_update_row_Ok in Ht as (_ & Hck & _).
  unfold passes_with_check in Hck. rewrite turmas_with_check in Hck.
  split.
  - now apply (foreign_profile d uid v _ Hd Hne Et).
  - now apply (foreign_profile d uid v _ Hd Hne Hck).
Qed.

Lemma delete_turmas_isolated w :
  let d' := fst (delete_turmas (api_caller uid) w d) in
  own_profiles d' v = own_profiles d v
  /\ own_turmas d' v = own_turmas d v
  /\ own_atividades d' v = own_atividades d v.
Proof using Hd Hne.
  intros d'.
  assert (Hvictim : forall t,
            turmas_delete_target (api_caller uid) w d t = true ->
            mem (t_professor_id t) (map p_id (own_profiles d v)) = false).
  { intros t Et. unfold turmas_delete_target, passes_using in Et.
    apply andb_true_iff in Et as [Et _]. rewrite turmas_using in Et.
    now apply (foreign_profile d uid v _ Hd Hne Et). }
  assert (Hown : own_turmas d' v = own_turmas d v).
  { unfold own_turmas. simpl. apply filter_filter_implied.
    intros t _ Ht. destruct (turmas_delete_target _ w d t) eqn:Et;
      [|reflexivity].
    rewrite (Hvictim t Et) in Ht. discriminate. }
  split; [reflexivity|]. split; [exact Hown|].
  unfold own_atividades. rewrite Hown. simpl. apply filter_filter_implied.
  intros a _ Ha. apply negb_true_iff, mem_false. intros Hgone.
  apply in_map_iff in Hgone as (t & Hid & Ht).
  apply filter_In in Ht as [Ht Et].
  apply mem_In, in_map_iff in Ha as (t' & Hid' & Ht').
  apply filter_In in Ht' as [Ht' Hown'].
  assert (t' = t).
  { destruct Hd. apply (NoDup_map_In_inj t_id (turmas d)); auto.
    now rewrite Hid, Hid'. }
  subst. rewrite (Hvictim t Et) in Hown'. discriminate.
Qed.

Lemma insert_atividades_isolated now gen v0 d' :
  insert_atividades (api_caller uid) now gen v0 d = Ok d' ->
  own_profiles d' v = own_profiles d v
  /\ own_turmas d' v = own_turmas d v
  /\ own_atividades d' v = own_atividades d v.
Proof using Hd Hne.
  intros H.
  apply insert_atividades_Ok in H as (row & _ & Hck & _ & _ & _ & _ & ->).
  repeat split. unfold own_atividades. simpl. apply filter_snoc_false.
  unfold passes_with_check in Hck. rewrite atividades_with_check in Hck.
  now apply (foreign_turma d uid v _ Hd Hne Hck).
Qed.

Lemma update_atividades_isolated now w f d' n :
  update_atividades (api_caller uid) now w f d = Ok (d', n) ->
  own_profiles d' v = own_profiles d v
  /\ own_turmas d' v = own_turmas d v
  /\ own_atividades d' v = own_atividades d v.
Proof using Hd Hne.
  intros H. apply update_atividades_Ok in H as (l & Hl & _ & _ & -> & _).
  repeat split. unfold own_atividades. simpl. apply filter_updated.
  apply for_each_row_Ok in Hl. eapply Forall2_impl; [exact Hl|].
  intros a a' Ha. simpl in Ha.
  destruct (atividades_update_target (api_caller uid) w d a) eqn:Et;
    [right | now left].
  unfold atividades_update_target, passes_using in Et.
  apply andb_true_iff in Et as [Et _]. rewrite atividades_using in Et.
  apply atividades_update_row_Ok in Ha as (_ & Hck & _).
  unfold passes_with_check in Hck. rewrite atividades_with_check in Hck.
  split.
  - now apply (foreign_turma d uid v _ Hd Hne Et).
  - now apply (foreign_turma d uid v _ Hd Hne Hck).
Qed.

Lemma delete_atividades_isolated w :
  let d' := fst (delete_atividades (api_caller uid) w d) in
  own_profiles d' v = own_profiles d v
  /\ own_turmas d' v = own_turmas d v
  /\ own_atividades d' v = own_atividades d v.
Proof using Hd Hne.
  intros d'. repeat split.
  unfold own_atividades. simpl. apply filter_filter_implied.
  intros a _ Ha.
  destruct (atividades_delete_target _ w d a) eqn:Et; [|reflexivity].
  unfold atividades_delete_target, passes_using in Et.
  apply andb_true_iff in Et as [Et _]. rewrite atividades_using in Et.
  rewrite (foreign_turma d uid v _ Hd Hne Et (a_turma_id a) eq_refl) in Ha.
  discriminate.
Qed.

End Statements.

Lemma select_profiles_own v w d :
  select_profiles (api_caller v) w d = List.filter w (own_profiles d v).
Proof.
  unfold select_profiles, own_profiles, passes_using.
  rewrite filter_andb. f_equal. apply filter_ext. intros p.
  rewrite profiles_using. simpl.
  destruct v as [x|]; simpl; [|reflexivity]. now rewrite N.eqb_sym.
Qed.

(** X2. Whatever statement of the API one identity commits, the ownership
    chain of every other identity (its profile, its classes, their
    assignments) is left exactly as it was, and so is everything that
    identity can read. *)
Theorem write_isolation (d : db) (tx : transaction) (uid v : option UUID) :
  reachable d -> api_uid (tx_statement tx) = Some uid -> v <> uid ->
  let d' := commit d tx in
  own_profiles d' v = own_profiles d v
  /\ own_turmas d' v = own_turmas d v
  /\ own_atividades d' v = own_atividades d v
  /\ (forall w, select_profiles (api_caller v) w d'
                = select_profiles (api_caller v) w d)
  /\ (forall w, select_turmas (api_caller v) w d'
                = select_turmas (api_caller v) w d)
  /\ (forall w, select_atividades (api_caller v) w d'
                = select_atividades (api_caller v) w d).
Proof.
  intros Hreach Huid Hne d'.
  destruct (reachable_consistent d Hreach) as [Hd _].
  assert (H : own_profiles d' v = own_profiles d v
              /\ own_turmas d' v = own_turmas d v
              /\ own_atividades d' v = own_atividades d v).
  { unfold d', commit. destruct tx as [now gen s]. simpl in *.
    destruct (execute now gen s d) as [d1|e] eqn:E; [|auto].
    destruct s; simpl in Huid; try discriminate;
      injection Huid as ->; cbv beta iota delta [execute] in E; inv_result.
    - destruct (insert_profiles_isolated d uid v Hne _ _ _ _ E)
        as (Hp & Ht & Ha).
      split; [exact Hp|]. now apply chain_below_profiles.
    - match goal with H : update_profiles _ _ _ _ _ = Ok ?r |- _ =>
        destruct r as [d1 n];
        destruct (update_profiles_isolated d uid v Hne _ _ _ _ _ H)
          as (Hp & Ht & Ha)
      end.
      split; [exact Hp|]. now apply chain_below_profiles.
    - rewrite remove_profiles_nothing; [auto|].
      intros; apply profiles_delete_target_api.
    - destruct (insert_turmas_isolated d uid v Hd Hne _ _ _ _ E)
        as (Hp & Ht & Ha).
      split; [exact Hp|]. split; [exact Ht|]. now apply chain_below_turmas.
    - match goal with H : update_turmas _ _ _ _ _ = Ok ?r |- _ =>
        destruct r as [d1 n];
        destruct (update_turmas_isolated d uid v Hd Hne _ _ _ _ _ H)
          as (Hp & Ht & Ha)
      end.
      split; [exact Hp|]. split; [exact Ht|]. now apply chain_below_turmas.
    - exact (delete_turmas_isolated d uid v Hd Hne where_).
    - exact (insert_atividades_isolated d uid v Hd Hne _ _ _ _ E).
    - match goal with H : update_atividades _ _ _ _ _ = Ok ?r |- _ =>
        destruct r as [d1 n];
        exact (update_atividades_isolated d uid v Hd Hne _ _ _ _ _ H)
      end.
    - exact (delete_atividades_isolated d uid v Hd Hne where_). }
  destruct H as (Hp & Ht & Ha).
  repeat (split; [assumption|]).
  split; [|split]; intros w.
  - now rewrite !select_profiles_own, Hp.
  - now rewrite !select_turmas_own, Ht.
  - now rewrite !select_atividades_own, Ha.
Qed.

Lemma write_isolation_witness :
  reachable Scenario.school
  /\ own_turmas
       (commit Scenario.school
          (Scenario.at_ 14%Z 0%N (DeleteTurmas (Some 2%N) (fun _ => true))))
       (Some 1%N)
     = own_turmas Scenario.school (Some 1%N).
Proof.
  assert (Hr : reachable Scenario.school)
    by (exists Scenario.history; reflexivity).
  split; [exact Hr|].
  destruct (write_isolation Scenario.school
              (Scenario.at_ 14%Z 0%N (DeleteTurmas (Some 2%N) (fun _ => true)))
              (Some 2%N) (Some 1%N) Hr eq_refl ltac:(discriminate))
    as (_ & Ht & _).
  exact Ht.
Defined.

End Isolation.

(** ** What the API can and cannot write *)
Module Writes.
Import Sql SqlFacts PolicyFacts StatementFacts Invariants Ownership Targeted.

(** X3. In a reachable state an [INSERT] into [profiles] through the API
    always fails and changes nothing: the identity a new profile must
    refer to already has the profile the trigger gave it. *)
Theorem api_cannot_insert_profile (d : db) (uid : option UUID)
  (now : timestamptz) (gen : UUID) (v : profiles_insert) :
  reachable d ->
  (exists e, insert_profiles (api_caller uid) now gen v d = Err e)
  /\ commit d {| tx_now := now; tx_gen := gen;
                 tx_statement := InsertProfiles uid v |} = d.
Proof.
  intros Hreach. destruct (reachable_consistent d Hreach) as [Hd Hprov].
  assert (H : exists e, insert_profiles (api_caller uid) now gen v d = Err e).
  { destruct (insert_profiles _ now gen v d) as [d'|e] eqn:E; [|eauto].
    exfalso.
    apply insert_profiles_Ok in E as (row & _ & _ & _ & Hfresh & Hfk & _).
    apply in_map_iff in Hfk as (u & Hu & Hin).
    apply Hfresh. rewrite <- Hu. now apply Hprov. }
  split; [exact H|]. destruct H as [e He].
  unfold commit. simpl. now rewrite He.
Qed.

Lemma api_cannot_insert_profile_witness :
  reachable Scenario.school
  /\ exists e,
       insert_profiles (api_caller (Some 1%N)) 14%Z 103%N
         (handle_new_user_values Scenario.ana) Scenario.school = Err e.
Proof.
  assert (Hr : reachable Scenario.school)
    by (exists Scenario.history; reflexivity).
  split; [exact Hr|].
  exact (proj1 (api_cannot_insert_profile Scenario.school (Some 1%N) 14%Z
                  103%N (handle_new_user_values Scenario.ana) Hr)).
Defined.

(** X4. A successful [UPDATE] of [profiles] through the API changes only
    rows of the caller's own identity, stamps them with [now()], and
    leaves the [user_id] of every row as it was: a profile cannot be
    handed to another identity. *)
Theorem profile_stays_with_identity (uid : option UUID) (now : timestamptz)
  (w : profile -> bool) (f : profile -> profiles_tuple) (d d' : db) (n : nat) :
  update_profiles (api_caller uid) now w f d = Ok (d', n) ->
  map p_user_id (profiles d') = map p_user_id (profiles d)
  /\ Forall2
       (fun p p' : profile =>
          p' = p
          \/ (uid = Some (p_user_id p) /\ w p = true
              /\ profile_tuple p' = set_updated_at (Some now) (f p)
              /\ p_user_id (f p) = Some (p_user_id p)))
       (profiles d) (profiles d')
  /\ auth_users d' = auth_users d /\ turmas d' = turmas d
  /\ atividades d' = atividades d.
Proof.
  intros H.
  apply update_profiles_Ok in H as (ps & Hps & _ & _ & _ & _ & -> & _).
  split; [|split; [|repeat split]].
  - apply (for_each_row_map p_user_id _ _ _ _
             (fun r r' _ => profiles_update_keeps_user_id uid now w f r r')
             Hps).
  - simpl. apply for_each_row_Ok in Hps. eapply Forall2_impl; [exact Hps|].
    intros p p' Hp. simpl in Hp.
    destruct (profiles_update_target (api_caller uid) w p) eqn:Et;
      [right | now left].
    pose proof (profiles_update_keeps_user_id uid now w f p p' Et Hp) as Hk.
    apply profiles_update_target_api in Et as [Hu Hw].
    apply profiles_update_row_Ok in Hp as [Htuple _].
    repeat split; try assumption.
    apply (f_equal p_user_id) in Htuple. simpl in Htuple.
    now rewrite <- Htuple, Hk.
Qed.

Lemma profile_stays_with_identity_witness :
  exists d',
    update_profiles (api_caller (Some 1%N)) 20%Z (fun _ => true)
      profile_tuple Scenario.school = Ok (d', 1)
    /\ map p_user_id (profiles d') = [1%N; 2%N].
Proof.
  eexists. split; [reflexivity|].
  exact (proj1 (profile_stays_with_identity (Some 1%N) 20%Z (fun _ => true)
                  profile_tuple Scenario.school _ 1 eq_refl)).
Defined.

Lemma one_profile_per_owner d u (x y : UUID) :
  constraints_hold d -> owns_profile d u x -> owns_profile d u y -> x = y.
Proof.
  intros [] (p & Hp & <- & Hu) (p' & Hp' & <- & Hu').
  rewrite (NoDup_map_In_inj p_user_id _ p p' profiles_user_id_key0 Hp Hp');
    [reflexivity|].
  now rewrite Hu, Hu'.
Qed.

(** X5. In a reachable state a successful [UPDATE] of [turmas] through
    the API leaves the [professor_id] of every class as it was: the new
    row must pass the policy too, and the caller has one profile. *)
Theorem class_stays_with_profile (uid : option UUID) (now : timestamptz)
  (w : turma -> bool) (f : turma -> turmas_tuple) (d d' : db) (n : nat) :
  reachable d ->
  update_turmas (api_caller uid) now w f d = Ok (d', n) ->
  map t_professor_id (turmas d') = map t_professor_id (turmas d)
  /\ Forall2
       (fun t t' : turma =>
          t' = t
          \/ (w t = true
              /\ exists u, uid = Some u
                           /\ owns_profile d u (t_professor_id t)))
       (turmas d) (turmas d').
Proof.
  intros Hreach H. destruct (reachable_consistent d Hreach) as [Hd _].
  apply update_turmas_Ok in H as (ts & Hts & _ & _ & _ & -> & _).
  assert (Hrow : forall t t',
            turmas_update_target (api_caller uid) w d t = true ->
            turmas_update_row (api_caller uid) now f d t = Ok t' ->
            w t = true
            /\ exists u, uid = Some u
                         /\ owns_profile d u (t_professor_id t)
                         /\ owns_profile d u (t_professor_id t')).
  { intros t t' Et Ht. unfold turmas_update_target, passes_using in Et.
    apply andb_true_iff in Et as [Et Hw]. rewrite turmas_using in Et.
    apply holds_own_profile in Et as (u & i & Hu & Hi & Hown).
    simpl in Hi. injection Hi as <-.
    apply turmas_update_row_Ok in Ht as (_ & Hck & _).
    unfold passes_with_check in Hck. rewrite turmas_with_check in Hck.
    apply holds_own_profile in Hck as (u' & i' & Hu' & Hi' & Hown').
    simpl in Hi'. injection Hi' as <-.
    split; [exact Hw|]. exists u. repeat split; try assumption.
    replace u with u' by congruence. exact Hown'. }
  split.
  - simpl. apply (for_each_row_map t_professor_id _ _ _ _) with (2 := Hts).
    intros t t' _ Et Ht.
    destruct (Hrow t t' Et Ht) as (_ & u & _ & Hown & Hown').
    exact (one_profile_per_owner d u _ _ Hd Hown' Hown).
  - simpl. apply for_each_row_Ok in Hts. eapply Forall2_impl; [exact Hts|].
    intros t t' Ht. simpl in Ht.
    destruct (turmas_update_target (api_caller uid) w d t) eqn:Et;
      [right | now left].
    destruct (Hrow t t' Et Ht) as (Hw & u & Hu & Hown & _).
    split; [exact Hw|]. now exists u.
Qed.

Lemma class_stays_with_profile_witness :
  reachable Scenario.school
  /\ exists d',
       update_turmas (api_caller (Some 1%N)) 20%Z (turma_with_id 201%N)
         (Scenario.rename "5º Ano B") Scenario.school = Ok (d', 1)
       /\ map t_professor_id (turmas d') = [101%N].
Proof.
  assert (Hr : reachable Scenario.school)
    by (exists Scenario.history; reflexivity).
  split; [exact Hr|]. eexists. split; [reflexivity|].
  exact (proj1 (class_stays_with_profile (Some 1%N) 20%Z (turma_with_id 201%N)
                  (Scenario.rename "5º Ano B") Scenario.school _ 1 Hr
                  eq_refl)).
Defined.

(** X6. A successful [UPDATE] of [atividades] through the API changes
    only assignments of the caller's classes, and the class such an
    assignment has afterwards is again one of the caller's: an assignment
    cannot be moved into another teacher's class. *)
Theorem assignment_stays_with_owner (uid : option UUID) (now : timestamptz)
  (w : atividade -> bool) (f : atividade -> atividades_tuple) (d d' : db)
  (n : nat) :
  update_atividades (api_caller uid) now w f d = Ok (d', n) ->
  Forall2
    (fun a a' : atividade =>
       a' = a
       \/ (w a = true
           /\ exists u, uid = Some u
                        /\ owns_turma d u (a_turma_id a)
                        /\ owns_turma d u (a_turma_id a')))
    (atividades d) (atividades d')
  /\ turmas d' = turmas d /\ profiles d' = profiles d.
Proof.
  intros H.
  apply update_atividades_Ok in H as (l & Hl & _ & _ & -> & _).
  split; [|split; reflexivity].
  simpl. apply for_each_row_Ok in Hl. eapply Forall2_impl; [exact Hl|].
  intros a a' Ha. simpl in Ha.
  destruct (atividades_update_target (api_caller uid) w d a) eqn:Et;
    [right | now left].
  unfold atividades_update_target, passes_using in Et.
  apply andb_true_iff in Et as [Et Hw]. rewrite atividades_using in Et.
  apply holds_own_turma in Et as (u & i & Hu & Hi & Hown).
  simpl in Hi. injection Hi as <-.
  apply atividades_update_row_Ok in Ha as (_ & Hck & _).
  unfold passes_with_check in Hck. rewrite atividades_with_check in Hck.
  apply holds_own_turma in Hck as (u' & i' & Hu' & Hi' & Hown').
  simpl in Hi'. injection Hi' as <-.
  split; [exact Hw|]. exists u. repeat split; try assumption.
  replace u with u' by congruence. exact Hown'.
Qed.

Lemma assignment_stays_with_owner_witness :
  exists d',
    update_atividades (api_caller (Some 1%N)) 20%Z (atividade_with_id 301%N)
      (Scenario.set_status "finalizada") Scenario.school = Ok (d', 1)
    /\ turmas d' = turmas Scenario.school.
Proof.
  eexists. split; [reflexivity|].
  exact (proj1 (proj2 (assignment_stays_with_owner (Some 1%N) 20%Z
                         (atividade_with_id 301%N)
                         (Scenario.set_status "finalizada") Scenario.school
                         _ 1 eq_refl))).
Defined.

End Writes.

(** ** Inserting classes, and the enumerated columns *)
Module Inserts.
Import Sql SqlFacts PolicyFacts StatementFacts Invariants Ownership Targeted.

(** X7. A class inserted through the API belongs to the caller's own
    profile, and once inserted is read by the caller and by nobody else.
    An insert that names no profile of the caller (a missing one, another
    teacher's, [NULL], or no identity at all) is refused by the policy. *)
Theorem insert_turmas_own (d : db) (uid : option UUID) (now : timestamptz)
  (gen : UUID) (v : turmas_insert) :
  reachable d ->
  (forall d', insert_turmas (api_caller uid) now gen v d = Ok d' ->
     exists (u : UUID) (P : profile) (row : turma),
       uid = Some u /\ In P (profiles d) /\ p_user_id P = u
       /\ t_professor_id v = Given (Some (p_id P))
       /\ t_professor_id row = p_id P
       /\ d' = with_turmas (turmas d ++ [row]) d
       /\ select_turmas (api_caller uid) (turma_with_id (t_id row)) d' = [row]
       /\ forall v', v' <> uid ->
            select_turmas (api_caller v') (turma_with_id (t_id row)) d' = [])
  /\ (~ (exists u pid, uid = Some u
                       /\ t_professor_id v = Given (Some pid)
                       /\ owns_profile d u pid) ->
      insert_turmas (api_caller uid) now gen v d
      = Err (RlsViolation "turmas")).
Proof.
  intros Hreach. destruct (reachable_consistent d Hreach) as [Hd _]. split.
  - intros d' H.
    pose proof (insert_turmas_constraints _ _ _ _ _ _ Hd H) as Hd'.
    apply insert_turmas_Ok in H as (row & Htuple & Hck & _ & _ & _ & ->).
    unfold passes_with_check in Hck. rewrite turmas_with_check in Hck.
    apply holds_own_profile in Hck as (u & i & Hu & Hi & P & HP & HPid & HPu).
    simpl in Hi. injection Hi as <-.
    exists u, P, row.
    assert (HP' : In P (profiles (with_turmas (turmas d ++ [row]) d)))
      by exact HP.
    assert (Hrow : In row (turmas (with_turmas (turmas d ++ [row]) d))).
    { simpl. apply in_app_iff. right. now left. }
    repeat split; try assumption.
    + apply (f_equal t_professor_id) in Htuple. simpl in Htuple.
      destruct (t_professor_id v) as [|x]; simpl in Htuple;
        [discriminate|]. rewrite <- Htuple. now rewrite HPid.
    + now symmetry.
    + rewrite Hu, <- HPu.
      apply (TurmasAccess.owner_select _ P row Hd' HP' Hrow).
      now symmetry.
    + intros v' Hne.
      apply (TurmasAccess.other_select_none _ P row Hd' HP' Hrow).
      * now symmetry.
      * intros Heq. apply Hne. rewrite Heq, Hu. now f_equal.
  - intros Hnone. unfold insert_turmas, passes_with_check.
    destruct (rls_with_check _ _ _) eqn:E; [|reflexivity].
    exfalso. apply Hnone. rewrite turmas_with_check in E.
    apply holds_own_profile in E as (u & i & Hu & Hi & Hown).
    exists u, i. repeat split; try assumption.
    simpl in Hi. destruct (t_professor_id v); simpl in Hi; congruence.
Qed.

Lemma insert_turmas_own_witness :
  reachable Scenario.school
  /\ insert_turmas (api_caller (Some 2%N)) 14%Z 202%N
       (Scenario.turma_5A 101%N) Scenario.school
     = Err (RlsViolation "turmas").
Proof.
  assert (Hr : reachable Scenario.school)
    by (exists Scenario.history; reflexivity).
  split; [exact Hr|].
  apply (proj2 (insert_turmas_own Scenario.school (Some 2%N) 14%Z 202%N
                  (Scenario.turma_5A 101%N) Hr)).
  intros (u & pid & Hu & Hpid & p & Hp & Hid & Huser).
  injection Hu as <-. injection Hpid as <-.
  simpl in Hp. destruct Hp as [<- | [<- | []]]; discriminate.
Defined.

Lemma turmas_constraints_Err (r : turmas_tuple) (e : error) :
  turmas_constraints r = Err e ->
  exists t c, e = ConstraintViolation (NotNullC t c)
              \/ e = ConstraintViolation (CheckC t c).
Proof.
  unfold turmas_constraints, not_null, require.
  destruct (t_id r), (t_professor_id r), (t_nome r), (t_ano_letivo r),
    (t_created_at r), (t_updated_at r), (turmas_periodo_check (t_periodo r));
    simpl; intros H; inversion H; eauto.
Qed.

Lemma atividades_constraints_Err_kind (r : atividades_tuple) (e : error) :
  atividades_constraints r = Err e ->
  exists t c, e = ConstraintViolation (NotNullC t c)
              \/ e = ConstraintViolation (CheckC t c).
Proof.
  unfold atividades_constraints, not_null, require.
  destruct (a_id r), (a_turma_id r), (a_titulo r), (a_created_at r),
    (a_updated_at r), (atividades_tipo_check (a_tipo r)),
    (atividades_status_check (a_status r)); simpl; intros H;
    inversion H; eauto.
Qed.

(** X8. An insert through the API never fails on a foreign key: a parent
    row that is missing is already refused by the policy, so a caller
    cannot tell a missing class or profile from another teacher's. *)
Theorem api_insert_never_fkey (d : db) (uid : option UUID)
  (now : timestamptz) (gen : UUID) :
  (forall v e,
     insert_turmas (api_caller uid) now gen v d = Err e ->
     forall t c, e <> ConstraintViolation (ForeignKeyC t c))
  /\ (forall v e,
        insert_atividades (api_caller uid) now gen v d = Err e ->
        forall t c, e <> ConstraintViolation (ForeignKeyC t c)).
Proof.
  split; intros v e H t c.
  - unfold insert_turmas, passes_with_check in H.
    destruct (rls_with_check _ _ _) eqn:Hck; simpl in H;
      [|inversion H; discriminate].
    destruct (turmas_constraints _) as [row|e'] eqn:Hrow; simpl in H.
    + destruct (negb (mem (t_id row) _)); simpl in H;
        [|inversion H; discriminate].
      rewrite turmas_with_check in Hck.
      apply holds_own_profile in Hck as (u & i & _ & Hi & p & Hp & Hid & _).
      apply turmas_constraints_Ok in Hrow as [Htuple _].
      rewrite <- Htuple in Hi. simpl in Hi. injection Hi as <-.
      assert (Hin : mem (t_professor_id row) (map p_id (profiles d)) = true).
      { apply mem_In. rewrite <- Hid. now apply in_map. }
      rewrite Hin in H. discriminate.
    + inversion H; subst.
      destruct (turmas_constraints_Err _ _ Hrow) as (t' & c' & [-> | ->]);
        discriminate.
  - unfold insert_atividades, passes_with_check in H.
    destruct (rls_with_check _ _ _) eqn:Hck; simpl in H;
      [|inversion H; discriminate].
    destruct (atividades_constraints _) as [row|e'] eqn:Hrow; simpl in H.
    + destruct (negb (mem (a_id row) _)); simpl in H;
        [|inversion H; discriminate].
      rewrite atividades_with_check in Hck.
      apply holds_own_turma in Hck as (u & i & _ & Hi & t0 & Ht0 & Hid & _).
      apply atividades_constraints_Ok in Hrow as [Htuple _].
      rewrite <- Htuple in Hi. simpl in Hi. injection Hi as <-.
      assert (Hin : mem (a_turma_id row) (map t_id (turmas d)) = true).
      { apply mem_In. rewrite <- Hid. now apply in_map. }
      rewrite Hin in H. discriminate.
    + inversion H; subst.
      destruct (atividades_constraints_Err_kind _ _ Hrow)
        as (t' & c' & [-> | ->]); discriminate.
Qed.

Lemma api_insert_never_fkey_witness :
  insert_atividades (api_caller (Some 1%N)) 14%Z 302%N
    (Scenario.prova 999%N (Given (Some "prova")) Omitted) Scenario.school
  = Err (RlsViolation "atividades")
  /\ RlsViolation "atividades"
     <> ConstraintViolation (ForeignKeyC "atividades" "turma_id").
Proof.
  assert (H : insert_atividades (api_caller (Some 1%N)) 14%Z 302%N
                (Scenario.prova 999%N (Given (Some "prova")) Omitted)
                Scenario.school
              = Err (RlsViolation "atividades")) by reflexivity.
  split; [exact H|].
  exact (proj2 (api_insert_never_fkey Scenario.school (Some 1%N) 14%Z 302%N)
           _ _ H "atividades" "turma_id").
Defined.

Lemma periodo_check_iff (x : option text) :
  turmas_periodo_check x = true <->
  x = None \/ exists s, x = Some s /\ In s periodos.
Proof.
  destruct x as [s|].
  - unfold turmas_periodo_check. fold periodos. rewrite Checks.check_in_Some.
    split.
    + intros H. right. now exists s.
    + intros [H | (s' & H & Hin)]; [discriminate | now inversion H; subst].
  - split; [now left | reflexivity].
Qed.

(** X9. In every reachable state the three enumerated columns hold
    [NULL] or one of their declared values; and an insert of a class
    whose [periodo] is any other value inserts nothing, failing with a
    constraint violation when the policy lets the caller through. *)
Theorem enumerations_hold (d : db) :
  reachable d ->
  (forall t, In t (turmas d) ->
     t_periodo t = None \/ exists s, t_periodo t = Some s /\ In s periodos)
  /\ (forall a, In a (atividades d) ->
        (a_tipo a = None \/ exists s, a_tipo a = Some s /\ In s tipos)
        /\ (a_status a = None
            \/ exists s, a_status a = Some s /\ In s statuses))
  /\ (forall who now gen v periodo,
        t_periodo v = Given (Some periodo) -> ~ In periodo periodos ->
        (exists e, insert_turmas who now gen v d = Err e)
        /\ (passes_with_check who (turmas_policies d) INSERT
              (turmas_defaults now gen v) = true ->
            exists c, insert_turmas who now gen v d
                      = Err (ConstraintViolation c))).
Proof.
  intros Hreach. destruct (reachable_consistent d Hreach) as [[] _].
  split; [|split].
  - intros t Ht. now apply periodo_check_iff, turmas_periodo_ok0.
  - intros a Ha. split.
    + now apply Checks.tipo_check_iff, atividades_tipo_ok0.
    + now apply Checks.status_check_iff, atividades_status_ok0.
  - intros who now gen v periodo Hv Hout.
    assert (Hc : exists c, turmas_constraints (turmas_defaults now gen v)
                           = Err (ConstraintViolation c)).
    { destruct (turmas_constraints _) as [row|e] eqn:E.
      - exfalso. apply turmas_constraints_Ok in E as [Htuple Hck].
        apply periodo_check_iff in Hck.
        apply (f_equal t_periodo) in Htuple. simpl in Htuple.
        rewrite Hv in Htuple. simpl in Htuple. rewrite Htuple in Hck.
        destruct Hck as [Hck | (s & Hs & Hin)]; [discriminate|].
        injection Hs as <-. contradiction.
      - destruct (turmas_constraints_Err _ _ E) as (t & c & [-> | ->]);
          eauto. }
    destruct Hc as (c & Hc). unfold insert_turmas.
    destruct (passes_with_check who (turmas_policies d) INSERT _);
      simpl; rewrite ?Hc; simpl; split; eauto; discriminate.
Qed.

Lemma enumerations_hold_witness :
  reachable Scenario.school
  /\ (forall t, In t (turmas Scenario.school) ->
        t_periodo t = None
        \/ exists s, t_periodo t = Some s /\ In s periodos).
Proof.
  assert (Hr : reachable Scenario.school)
    by (exists Scenario.history; reflexivity).
  split; [exact Hr|].
  exact (proj1 (enumerations_hold Scenario.school Hr)).
Defined.

End Inserts.

(** ** The queries of the dashboard *)
Module Queries.
Import Sql SqlFacts PolicyFacts StatementFacts Invariants Ownership Targeted.

Lemma own_profiles_Some d (uid : UUID) :
  own_profiles d (Some uid)
  = List.filter (fun p => N.eqb (p_user_id p) uid) (profiles d).
Proof.
  unfold own_profiles. apply filter_ext. intros p. simpl.
  now destruct (N.eqb (p_user_id p) uid).
Qed.

(** X10. For an identity of a reachable state, the three queries of
    [loadUserData] return its ownership chain: the first exactly one
    profile (so that [.single()] has its row), the second all the classes
    the caller can read, the third all the assignments it can read.  The
    filters the client adds select nothing the policies had not already
    selected. *)
Theorem loadUserData_queries (d : db) (u : auth_users_row) :
  reachable d -> In u (auth_users d) ->
  let me := api_caller (Some (u_id u)) in
  exists P : profile,
    select_profiles me (eq_user_id (u_id u)) d = [P]
    /\ p_user_id P = u_id u
    /\ select_turmas me (eq_professor_id (p_id P)) d
       = select_turmas me (fun _ => true) d
    /\ select_turmas me (fun _ => true) d = own_turmas d (Some (u_id u))
    /\ select_atividades me
         (in_turma_id
            (map t_id (select_turmas me (eq_professor_id (p_id P)) d))) d
       = select_atividades me (fun _ => true) d
    /\ select_atividades me (fun _ => true) d
       = own_atividades d (Some (u_id u)).
Proof.
  intros Hreach Hu me. pose proof (reachable_consistent d Hreach) as Hd.
  destruct (Provisioning.one_profile d u Hd Hu) as [P HP].
  assert (Hown : own_profiles d (Some (u_id u)) = [P])
    by (now rewrite own_profiles_Some).
  assert (HPu : p_user_id P = u_id u).
  { assert (Hin : In P [P]) by now left.
    rewrite <- HP in Hin. apply filter_In in Hin as [_ Hin].
    now apply N.eqb_eq. }
  assert (Hall_t : select_turmas me (fun _ => true) d
                   = own_turmas d (Some (u_id u))).
  { unfold me. rewrite select_turmas_own. now apply filter_all. }
  assert (Hprof : select_turmas me (eq_professor_id (p_id P)) d
                  = own_turmas d (Some (u_id u))).
  { unfold me. rewrite select_turmas_own. apply filter_all.
    intros t Ht. apply filter_In in Ht as [_ Ht]. rewrite Hown in Ht.
    simpl in Ht. unfold eq_professor_id.
    now rewrite orb_false_r in Ht. }
  assert (Hall_a : select_atividades me (fun _ => true) d
                   = own_atividades d (Some (u_id u))).
  { unfold me. rewrite select_atividades_own. now apply filter_all. }
  exists P. split.
  - unfold me. rewrite Isolation.select_profiles_own, Hown. simpl.
    unfold eq_user_id. now rewrite HPu, N.eqb_refl.
  - split; [exact HPu|]. split; [now rewrite Hprof, Hall_t|].
    split; [exact Hall_t|]. split; [|exact Hall_a].
    rewrite Hprof, Hall_a. unfold me. rewrite select_atividades_own.
    apply filter_all. intros a Ha. now apply filter_In in Ha as [_ Ha].
Qed.

Lemma loadUserData_queries_witness :
  reachable Scenario.school
  /\ In Scenario.ana (auth_users Scenario.school)
  /\ exists P : profile,
       select_profiles (api_caller (Some 1%N)) (eq_user_id 1%N)
         Scenario.school = [P]
       /\ p_user_id P = 1%N.
Proof.
  assert (Hr : reachable Scenario.school)
    by (exists Scenario.history; reflexivity).
  assert (Hu : In Scenario.ana (auth_users Scenario.school))
    by (vm_compute; auto).
  split; [exact Hr|]. split; [exact Hu|].
  destruct (loadUserData_queries Scenario.school Scenario.ana Hr Hu)
    as (P & H1 & H2 & _).
  now exists P.
Defined.

End Queries.

(** ** The sign-in form and the answers to a sign-up *)
Module SignInFacts.
Import Js JsFacts Ui SignIn.

(** X11. When the email or the password is empty, [handleSignIn] sends
    nothing to the backend and leaves the form, [localStorage] and the
    location as they were: all it does is show the notice that both
    fields are required. *)
Theorem handleSignIn_validates (signIn_answer : request -> answer bool)
  (storage : request -> gmap jsstring jsstring -> gmap jsstring jsstring)
  (w : world AuthPage.state) :
  AuthPage.email (component w) = []
  \/ AuthPage.password (component w) = [] ->
  let w' := handleSignIn signIn_answer storage w in
  requests w' = requests w
  /\ component w' = component w
  /\ localStorage w' = localStorage w
  /\ location_href w' = location_href w
  /\ toasts w'
     = toasts w
       ++ [{| destructive := true; title := "Campos obrigatórios";
              description := Literal "Por favor, preencha email e senha." |}].
Proof.
  intros Hbad w'. unfold w', handleSignIn.
  assert (E : Js.not (AuthPage.email (component w))
              || Js.not (AuthPage.password (component w)) = true).
  { apply orb_true_iff. rewrite !not_empty. exact Hbad. }
  rewrite E. simpl. auto.
Qed.

Lemma handleSignIn_validates_witness :
  let w : world AuthPage.state :=
    {| component := {| AuthPage.isLoading := false;
                       AuthPage.email := lit "ana@escola.br";
                       AuthPage.password := [];
                       AuthPage.fullName := [] |};
       localStorage := ∅; location_href := lit "/auth";
       toasts := []; requests := []; console_error := [];
       defaultPrevented := false |} in
  requests (handleSignIn (fun _ => Data true) (fun _ m => m) w) = []
  /\ location_href (handleSignIn (fun _ => Data true) (fun _ m => m) w)
     = lit "/auth".
Proof.
  intros w.
  destruct (handleSignIn_validates (fun _ => Data true) (fun _ m => m) w
              (or_intror eq_refl)) as (Hreq & _ & _ & Hloc & _).
  split; [exact Hreq | exact Hloc].
Defined.



End SignInFacts.

(** ** The answers to a sign-up *)
Module SignUpFacts.
Import Js JsFacts AuthPage.



End SignUpFacts.

(** ** The handlers of the activity manager *)
Module AtividadesHandlersFacts.
Import Js JsFacts Ui AtividadesManager AtividadesManagerHandlers.

Lemma filter_comm {A} (f g : A -> bool) (l : list A) :
  List.filter f (List.filter g l) = List.filter g (List.filter f l).
Proof.
  induction l as [|a l IH]; simpl; [reflexivity|].
  destruct (f a) eqn:Ef, (g a) eqn:Eg; simpl; rewrite ?Ef, ?Eg, IH;
    reflexivity.
Qed.

Lemma filter_other_id (id : jsstring) (l : list Atividade.t) :
  (forall a, In a l -> Atividade.id a <> id) ->
  List.filter (fun a => negb (strict_eq (Atividade.id a) id)) l = l.
Proof.
  intros H. induction l as [|a l IH]; simpl; [reflexivity|].
  destruct (strict_eq (Atividade.id a) id) eqn:E.
  - apply strict_eq_eq in E. exfalso. apply (H a); [now left | exact E].
  - simpl. f_equal. apply IH. intros a' Ha'. apply H. now right.
Qed.

Lemma guard_passes (f : formData) :
  titulo f <> [] -> tipo f <> [] -> turma_id f <> [] ->
  Js.not (titulo f) || Js.not (tipo f) || Js.not (turma_id f) = false.
Proof.
  intros Ht Hp Hu.
  destruct (titulo f); [congruence|]. destruct (tipo f); [congruence|].
  destruct (turma_id f); [congruence|]. reflexivity.
Qed.

(** X14. When the title, the type or the class of the form is empty,
    [handleCreateAtividade] sends nothing to the backend and leaves the
    list, the form and the dialog as they were: all it does is show the
    notice that the three are required. *)
Theorem handleCreateAtividade_validates
  (answer_of : request -> answer Atividade.t) (w : world state) :
  titulo (form (component w)) = [] \/ tipo (form (component w)) = []
  \/ turma_id (form (component w)) = [] ->
  let w' := handleCreateAtividade answer_of w in
  requests w' = requests w
  /\ component w' = component w
  /\ toasts w'
     = toasts w
       ++ [{| destructive := true; title := "Campos obrigatórios";
              description :=
                Literal
                  "Por favor, preencha título, tipo e selecione uma turma."
           |}].
Proof.
  intros Hbad w'. unfold w', handleCreateAtividade.
  assert (E : Js.not (titulo (form (component w)))
              || Js.not (tipo (form (component w)))
              || Js.not (turma_id (form (component w))) = true).
  { rewrite !orb_true_iff, !not_empty. tauto. }
  rewrite E. simpl. auto.
Qed.

Lemma handleCreateAtividade_validates_witness :
  let w : world state :=
    {| component :=
         {| isDialogOpen := true; isLoading := false;
            filterTurma := lit "all"; filterStatus := lit "all";
            form := {| titulo := lit "Prova"; descricao := [];
                       data_entrega := []; tipo := lit "prova";
                       turma_id := []; status := lit "ativa" |};
            turmas := [turma_a]; atividades := [tarefa_b] |};
       localStorage := ∅; location_href := lit "/";
       toasts := []; requests := []; console_error := [];
       defaultPrevented := false |} in
  requests (handleCreateAtividade (fun _ => Data prova_a) w) = []
  /\ atividades (component (handleCreateAtividade (fun _ => Data prova_a) w))
     = [tarefa_b].
Proof.
  intros w.
  destruct (handleCreateAtividade_validates (fun _ => Data prova_a) w
              (or_intror (or_intror eq_refl))) as (Hreq & Hc & _).
  split; [exact Hreq | now rewrite Hc].
Defined.



(** X16. [handleDeleteAtividade] sends one delete for the id it is
    given.  When the delete succeeds, the list keeps exactly the
    activities with another id, in their order, so every filtered view
    of the new list is the old view without that id; when it fails, the
    list is as it was.  Either way the component is no longer
    loading. *)
Theorem handleDeleteAtividade_removes (answer_of : request -> answer unit)
  (atividadeId atividadeTitulo : jsstring) (w : world state) :
  let old := atividades (component w) in
  let req := atividades_delete_eq_id atividadeId in
  let w' := handleDeleteAtividade answer_of atividadeId atividadeTitulo w in
  let new := atividades (component w') in
  requests w' = requests w ++ [req]
  /\ isLoading (component w') = false
  /\ match answer_of req with
     | Data _ =>
         (forall a, In a new <-> In a old /\ Atividade.id a <> atividadeId)
         /\ (forall filterTurma filterStatus,
               filteredAtividades new filterTurma filterStatus
               = List.filter
                   (fun a => negb (strict_eq (Atividade.id a) atividadeId))
                   (filteredAtividades old filterTurma filterStatus))
         /\ List.length new <= List.length old
     | _ => new = old
     end.
Proof.
  intros old req w' new.
  unfold new, w', req, old, handleDeleteAtividade.
  destruct (answer_of _) as [[] | m | m]; simpl; repeat apply conj;
    try reflexivity.
  - intros a. rewrite filter_In, negb_true_iff.
    split; intros [Hin Hid]; (split; [exact Hin|]).
    + intros Heq. apply strict_eq_eq in Heq. congruence.
    + destruct (strict_eq (Atividade.id a) atividadeId) eqn:E;
        [|reflexivity].
      apply strict_eq_eq in E. contradiction.
  - intros filterTurma filterStatus. unfold filteredAtividades.
    apply filter_comm.
  - apply List.filter_length_le.
Qed.

(** X17. When [handleUpdateStatus] gets back the row it asked to
    update, the list keeps its length, its order and its ids: the
    entries with the id are the returned row, every other entry is the
    one that was there. *)
Theorem handleUpdateStatus_replaces
  (answer_of : request -> answer Atividade.t)
  (atividadeId novoStatus : jsstring) (data : Atividade.t)
  (w : world state) :
  answer_of (atividades_update_status_eq_id novoStatus atividadeId)
  = Data data ->
  Atividade.id data = atividadeId ->
  let old := atividades (component w) in
  let new :=
    atividades
      (component (handleUpdateStatus answer_of atividadeId novoStatus w)) in
  map Atividade.id new = map Atividade.id old
  /\ forall i,
       nth_error new i
       = match nth_error old i with
         | Some a =>
             Some (if strict_eq (Atividade.id a) atividadeId
                   then data else a)
         | None => None
         end.
Proof.
  intros Hans Hid old new. unfold new, old, handleUpdateStatus.
  rewrite Hans. simpl. split.
  - rewrite map_map. apply map_ext_in. intros a _.
    destruct (strict_eq (Atividade.id a) atividadeId) eqn:E;
      [|reflexivity].
    apply strict_eq_eq in E. congruence.
  - intros i. rewrite nth_error_map.
    destruct (nth_error (atividades (component w)) i); reflexivity.
Qed.

Lemma handleUpdateStatus_replaces_witness :
  let w : world state :=
    {| component :=
         {| isDialogOpen := false; isLoading := false;
            filterTurma := lit "all"; filterStatus := lit "all";
            form := {| titulo := []; descricao := []; data_entrega := [];
                       tipo := []; turma_id := []; status := lit "ativa" |};
            turmas := [turma_a; turma_b];
            atividades := [prova_a; tarefa_b] |};
       localStorage := ∅; location_href := lit "/";
       toasts := []; requests := []; console_error := [];
       defaultPrevented := false |} in
  let reopened :=
    {| Atividade.id := lit "a2"; Atividade.titulo := lit "Tarefa";
       Atividade.descricao := None; Atividade.data_entrega := None;
       Atividade.tipo := lit "tarefa"; Atividade.status := lit "ativa";
       Atividade.turma_id := lit "t2"; Atividade.turma := turma_b;
       Atividade.created_at := None |} in
  map Atividade.id
    (atividades
       (component
          (handleUpdateStatus (fun _ => Data reopened) (lit "a2")
             (lit "ativa") w)))
  = [lit "a1"; lit "a2"].
Proof.
  intros w reopened.
  exact (proj1 (handleUpdateStatus_replaces (fun _ => Data reopened)
                  (lit "a2") (lit "ativa") reopened w eq_refl eq_refl)).
Defined.



(** X19. Creating an activity and then deleting it gives back the list
    there was before, provided no activity of the list already had the
    id of the new row. *)
Theorem create_then_delete (create : request -> answer Atividade.t)
  (delete : request -> answer unit) (data : Atividade.t)
  (w : world state) :
  titulo (form (component w)) <> [] -> tipo (form (component w)) <> [] ->
  turma_id (form (component w)) <> [] ->
  (let f := form (component w) in
   create (atividades_insert (titulo f) (or_null (descricao f))
             (or_null (data_entrega f)) (tipo f) (turma_id f) (status f))
   = Data data) ->
  delete (atividades_delete_eq_id (Atividade.id data)) = Data tt ->
  (forall a, In a (atividades (component w)) ->
             Atividade.id a <> Atividade.id data) ->
  atividades
    (component
       (handleDeleteAtividade delete (Atividade.id data)
          (Atividade.titulo data) (handleCreateAtividade create w)))
  = atividades (component w).
Proof.
  intros Ht Hp Hu Hc Hd Hfresh.
  unfold handleDeleteAtividade, handleCreateAtividade.
  rewrite (guard_passes _ Ht Hp Hu). simpl in Hc. rewrite Hc, Hd. simpl.
  assert (E : strict_eq (Atividade.id data) (Atividade.id data) = true)
    by now apply strict_eq_eq.
  rewrite E. simpl. now apply filter_other_id.
Qed.

Lemma create_then_delete_witness :
  let w : world state :=
    {| component :=
         {| isDialogOpen := true; isLoading := false;
            filterTurma := lit "all"; filterStatus := lit "all";
            form := {| titulo := lit "Prova"; descricao := [];
                       data_entrega := []; tipo := lit "prova";
                       turma_id := lit "t1"; status := lit "ativa" |};
            turmas := [turma_a; turma_b]; atividades := [tarefa_b] |};
       localStorage := ∅; location_href := lit "/";
       toasts := []; requests := []; console_error := [];
       defaultPrevented := false |} in
  atividades
    (component
       (handleDeleteAtividade (fun _ => Data tt) (lit "a1") (lit "Prova")
          (handleCreateAtividade (fun _ => Data prova_a) w)))
  = [tarefa_b].
Proof.
  intros w.
  assert (Ht : titulo (form (component w)) <> []) by discriminate.
  assert (Hp : tipo (form (component w)) <> []) by discriminate.
  assert (Hu : turma_id (form (component w)) <> []) by discriminate.
  assert (Hfresh : forall a, In a (atividades (component w)) ->
                             Atividade.id a <> Atividade.id prova_a).
  { intros a [<- | []]. discriminate. }
  exact (create_then_delete (fun _ => Data prova_a) (fun _ => Data tt)
           prova_a w Ht Hp Hu eq_refl eq_refl Hfresh).
Defined.

End AtividadesHandlersFacts.

(** ** The handlers of the class manager *)
Module TurmasManagerFacts.
Import Js JsFacts Ui AtividadesManager TurmasManager.


(** X20. When the name or the period of the form is empty,
    [handleCreateTurma] sends nothing to the backend and leaves the
    component as it was: all it does is show the notice that both are
    required. *)
Theorem handleCreateTurma_validates (answer_of : request -> answer Turma.t)
  (year : jsstring) (w : world state) :
  nome (form (component w)) = [] \/ periodo (form (component w)) = [] ->
  let w' := handleCreateTurma answer_of year w in
  requests w' = requests w
  /\ component w' = component w
  /\ toasts w'
     = toasts w
       ++ [{| destructive := true; title := "Campos obrigatórios";
              description :=
                Literal "Por favor, preencha nome da turma e período." |}].
Proof.
  intros Hbad w'. unfold w', handleCreateTurma.
  assert (E : Js.not (nome (form (component w)))
              || Js.not (periodo (form (component w))) = true).
  { rewrite orb_true_iff, !not_empty. exact Hbad. }
  rewrite E. simpl. auto.
Qed.

Lemma handleCreateTurma_validates_witness :
  let w : world state :=
    {| component :=
         {| isDialogOpen := true; isLoading := false;
            form := {| nome := lit "7o Ano C"; ano_letivo := lit "2025";
                       periodo := []; descricao := [] |};
            profile := {| Profile.id := lit "p1"; Profile.nome := lit "Ana";
                          Profile.email := lit "ana@escola.br";
                          Profile.escola := None |};
            turmas := [turma_a]; atividades := [prova_a] |};
       localStorage := ∅; location_href := lit "/";
       toasts := []; requests := []; console_error := [];
       defaultPrevented := false |} in
  requests (handleCreateTurma (fun _ => Data turma_b) (lit "2025") w) = []
  /\ turmas (component (handleCreateTurma (fun _ => Data turma_b)
                          (lit "2025") w))
     = [turma_a].
Proof.
  intros w.
  destruct (handleCreateTurma_validates (fun _ => Data turma_b) (lit "2025")
              w (or_intror eq_refl)) as (Hreq & Hc & _).
  split; [exact Hreq | now rewrite Hc].
Defined.




End TurmasManagerFacts.

(** ** The dashboard *)
Module DashboardFacts.
Import Js JsFacts Ui AtividadesManager Dashboard.



(** X24. [loadUserData] asks for the profile of the user, then for the
    classes of that profile, then for the activities of the classes it
    got, and stops loading at the end whatever the answers.  An error
    on the profile stops there without any notice and loads nothing.
    An error on the classes leaves the classes of the state as they
    were, and the activities are then asked for no class at all.  An
    error on the activities leaves them as they were.  Only a rejected
    request shows the notice, and no further request follows it. *)
Theorem loadUserData_outcome (b : backend) (userId : jsstring)
  (w : world state) :
  let w' := loadUserData b userId w in
  let q1 := profiles_select_eq_user_id userId in
  let erro :=
    {| destructive := true; title := "Erro";
       description := Literal "Erro ao carregar dados do usuário" |} in
  isLoading (component w') = false
  /\ match profile_answer b q1 with
     | Data p =>
         let q2 :=
           turmas_select_eq_professor_id (TurmasManager.Profile.id p) in
         profile (component w') = Some p
         /\ match turmas_answer b q2 with
            | Rejected _ =>
                requests w' = requests w ++ [q1; q2]
                /\ turmas (component w') = turmas (component w)
                /\ atividades (component w') = atividades (component w)
                /\ toasts w' = toasts w ++ [erro]
            | a2 =>
                let loaded :=
                  match a2 with
                  | Data data => or_empty data
                  | _ => []
                  end in
                let q3 :=
                  atividades_select_in_turma_id (map Turma.id loaded) in
                requests w' = requests w ++ [q1; q2; q3]
                /\ turmas (component w')
                   = match a2 with
                     | Data _ => loaded
                     | _ => turmas (component w)
                     end
                /\ match atividades_answer b q3 with
                   | Data data =>
                       atividades (component w') = or_empty data
                       /\ toasts w' = toasts w
                   | Error _ =>
                       atividades (component w') = atividades (component w)
                       /\ toasts w' = toasts w
                   | Rejected _ =>
                       atividades (component w') = atividades (component w)
                       /\ toasts w' = toasts w ++ [erro]
                   end
            end
     | Error _ =>
         requests w' = requests w ++ [q1]
         /\ profile (component w') = profile (component w)
         /\ turmas (component w') = turmas (component w)
         /\ atividades (component w') = atividades (component w)
         /\ toasts w' = toasts w
     | Rejected _ =>
         requests w' = requests w ++ [q1]
         /\ profile (component w') = profile (component w)
         /\ turmas (component w') = turmas (component w)
         /\ atividades (component w') = atividades (component w)
         /\ toasts w' = toasts w ++ [erro]
     end.
Proof.
  intros w' q1 erro. split; [reflexivity|].
  unfold w', q1, erro, loadUserData.
  destruct (profile_answer b _) as [p | m | m]; simpl;
    try (repeat apply conj; reflexivity).
  destruct (turmas_answer b _) as [ts | m | m];
    try destruct (atividades_answer b _) as [l | m' | m'];
    simpl; rewrite <- ?app_assoc; repeat apply conj; reflexivity.
Qed.

(** X25. The number of pending activities on the dashboard is the
    number of rows that the activity manager lists with the class
    filter at "all" and the status filter at "ativa"; it never exceeds
    the number of activities, and no call of [handleDeleteAtividade],
    answered or not, makes it larger. *)
Theorem atividadesPendentes_filter (atividades : list Atividade.t) :
  atividadesPendentes atividades
  = List.length (filteredAtividades atividades (lit "all") (lit "ativa"))
  /\ atividadesPendentes atividades <= List.length atividades
  /\ forall answer_of atividadeId atividadeTitulo
            (w : world AtividadesManagerHandlers.state),
       AtividadesManagerHandlers.atividades (component w) = atividades ->
       atividadesPendentes
         (AtividadesManagerHandlers.atividades
            (component
               (AtividadesManagerHandlers.handleDeleteAtividade answer_of
                  atividadeId atividadeTitulo w)))
       <= atividadesPendentes atividades.
Proof.
  unfold atividadesPendentes, filteredAtividades.
  split; [reflexivity|]. split; [apply List.filter_length_le|].
  intros answer_of atividadeId atividadeTitulo w <-.
  unfold AtividadesManagerHandlers.handleDeleteAtividade.
  destruct (answer_of _) as [[] | m | m]; simpl; try apply Nat.le_refl.
  rewrite AtividadesHandlersFacts.filter_comm.
  apply List.filter_length_le.
Qed.

Lemma atividadesPendentes_filter_witness :
  let w : world AtividadesManagerHandlers.state :=
    {| component :=
         {| AtividadesManagerHandlers.isDialogOpen := false;
            AtividadesManagerHandlers.isLoading := false;
            AtividadesManagerHandlers.filterTurma := lit "all";
            AtividadesManagerHandlers.filterStatus := lit "all";
            AtividadesManagerHandlers.form :=
              {| AtividadesManagerHandlers.titulo := [];
                 AtividadesManagerHandlers.descricao := [];
                 AtividadesManagerHandlers.data_entrega := [];
                 AtividadesManagerHandlers.tipo := [];
                 AtividadesManagerHandlers.turma_id := [];
                 AtividadesManagerHandlers.status := lit "ativa" |};
            AtividadesManagerHandlers.turmas := [turma_a; turma_b];
            AtividadesManagerHandlers.atividades := [prova_a; tarefa_b] |};
       localStorage := ∅; location_href := lit "/";
       toasts := []; requests := []; console_error := [];
       defaultPrevented := false |} in
  atividadesPendentes [prova_a; tarefa_b] = 1
  /\ atividadesPendentes
       (AtividadesManagerHandlers.atividades
          (component
             (AtividadesManagerHandlers.handleDeleteAtividade
                (fun _ => Data tt) (lit "a1") (lit "Prova") w)))
     <= 1.
Proof.
  intros w. split; [reflexivity|].
  exact (proj2 (proj2 (atividadesPendentes_filter [prova_a; tarefa_b]))
           (fun _ => Data tt) (lit "a1") (lit "Prova") w eq_refl).
Defined.

End DashboardFacts.

(** ** The badges and the enumerated columns *)
Module Badges.
Import Sql Js JsFacts AtividadesManagerHandlers.

Lemma lit_inj (s t : string) : lit s = lit t -> s = t.
Proof.
  unfold lit. intros H.
  rewrite <- (String.string_of_list_ascii_of_string s),
          <- (String.string_of_list_ascii_of_string t).
  f_equal. revert H.
  generalize (String.list_ascii_of_string s) as l,
             (String.list_ascii_of_string t) as l'.
  induction l as [|a l IH]; intros [|a' l']; simpl; try discriminate;
    [reflexivity|].
  intros H. injection H as Ha Hl. f_equal; [|now apply IH].
  rewrite <- (Ascii.ascii_N_embedding a), <- (Ascii.ascii_N_embedding a').
  now rewrite Ha.
Qed.

Lemma strict_eq_lit (s t : string) :
  strict_eq (lit s) (lit t) = true <-> s = t.
Proof.
  rewrite strict_eq_eq. split; [apply lit_inj | now intros ->].
Qed.

Ltac named_case H s t :=
  let E := fresh "E" in
  destruct (strict_eq (lit s) (lit t)) eqn:E;
  [apply strict_eq_lit in E; subst s; simpl; tauto | rewrite ?E in H].

(** X26. The three badge functions of the client name exactly the
    values that the [CHECK] constraints of the tables admit: a stored
    non-null [periodo], [tipo] or [status] passes its constraint if and
    only if the badge function does not fall to its default. *)
Theorem badges_match_checks (s : text) :
  (turmas_periodo_check (Some s) = true <->
   TurmasManager.getPeriodoColor (lit s) <> "bg-muted")
  /\ (atividades_tipo_check (Some s) = true <->
      getTipoColor (lit s) <> "bg-gray-500 text-white")
  /\ (atividades_status_check (Some s) = true <->
      getStatusColor (lit s) <> "bg-muted").
Proof.
  unfold turmas_periodo_check, atividades_tipo_check,
    atividades_status_check.
  rewrite !Checks.check_in_Some. unfold tipos, statuses.
  split; [|split]; split.
  - simpl. intros [<- | [<- | [<- | []]]]; vm_compute; discriminate.
  - unfold TurmasManager.getPeriodoColor. intros H.
    named_case H s "matutino". named_case H s "vespertino".
    named_case H s "noturno". congruence.
  - simpl. intros [<- | [<- | [<- | [<- | [<- | []]]]]]; vm_compute;
      discriminate.
  - unfold getTipoColor. intros H.
    named_case H s "tarefa". named_case H s "prova".
    named_case H s "projeto". named_case H s "exercicio".
    named_case H s "trabalho". congruence.
  - simpl. intros [<- | [<- | [<- | []]]]; vm_compute; discriminate.
  - unfold getStatusColor. intros H.
    named_case H s "ativa". named_case H s "finalizada".
    named_case H s "cancelada". congruence.
Qed.

End Badges.
